(** * Deduplication and classification pipeline of the agent collection

    A shallow embedding of the decision logic of [intelligent_dedupe.py]
    and [collect_agents.py]: the document parser, the quality scorers, the
    name normaliser, the similarity engine, the duplicate grouper, the
    group resolver and the keyword classifier, then the loaders, the
    writers of the collection and of its index and the runs of the two
    scripts, followed by the properties established about them.

    Text is modelled by [string] (a sequence of 8-bit characters); case
    folding and whitespace follow Python on ASCII text.  Integers are [Z],
    positions and lengths are [nat]. *)

From Stdlib Require Import Bool Arith ZArith QArith Lia List Ascii String.
From Stdlib Require Import Permutation Sorted.
From Stdlib Require DecimalString DecimalNat.
Import ListNotations.

Close Scope Q_scope.
Open Scope string_scope.
Open Scope list_scope.

(* ================================================================== *)
(** * Python text primitives                                           *)
(* ================================================================== *)

Module Py.

(** [c.lower()] on one character. *)
Definition lower_char (c : ascii) : ascii :=
  let n := nat_of_ascii c in
  if (65 <=? n)%nat && (n <=? 90)%nat then ascii_of_nat (n + 32) else c.

(** [s.lower()] on ASCII text, where it keeps the length; the letters
    outside ASCII, which [str.lower] also folds and of which one grows
    into two characters, are left as they are. *)
Fixpoint lower (s : string) : string :=
  match s with
  | EmptyString => EmptyString
  | String c s' => String (lower_char c) (lower s')
  end.

(** [c.isspace()] on an ASCII character: tab, line feed, vertical tab,
    form feed, carriage return, the four separators 28..31 and the
    blank; the spaces outside ASCII are not counted. *)
Definition isspace (c : ascii) : bool :=
  let n := nat_of_ascii c in
  ((9 <=? n)%nat && (n <=? 13)%nat) || ((28 <=? n)%nat && (n <=? 32)%nat).

Fixpoint lstrip (s : string) : string :=
  match s with
  | EmptyString => EmptyString
  | String c s' => if isspace c then lstrip s' else s
  end.

(** Removes trailing whitespace; the result of the tail decides whether
    the current character is itself trailing. *)
Fixpoint rstrip (s : string) : string :=
  match s with
  | EmptyString => EmptyString
  | String c s' =>
      match rstrip s' with
      | EmptyString => if isspace c then EmptyString else String c EmptyString
      | t => String c t
      end
  end.

(** [s.strip()]. *)
Definition strip (s : string) : string := rstrip (lstrip s).

(** [s.startswith(p)]. *)
Fixpoint startswith (p s : string) : bool :=
  match p, s with
  | EmptyString, _ => true
  | String _ _, EmptyString => false
  | String a p', String b s' => Ascii.eqb a b && startswith p' s'
  end.

(** [sub in s]: some suffix of [s] starts with [sub]. *)
Fixpoint contains (sub s : string) : bool :=
  startswith sub s ||
  match s with
  | EmptyString => false
  | String _ s' => contains sub s'
  end.

(** [s[:n]]. *)
Definition take (n : nat) (s : string) : string := substring 0 n s.

(** [s[n:]]. *)
Fixpoint drop (n : nat) (s : string) : string :=
  match n, s with
  | O, _ => s
  | S _, EmptyString => EmptyString
  | S n', String _ s' => drop n' s'
  end.

(** [s.split(sep, maxsplit)] for a non-empty separator, scanning from the
    left: [skip] counts the characters of a separator still to be
    dropped, [cur] is the part read so far. *)
Fixpoint split_loop (sep : string) (maxsplit skip : nat) (cur : string)
         (s : string) : list string :=
  match s with
  | EmptyString => [cur]
  | String c s' =>
      match skip with
      | S k => split_loop sep maxsplit k cur s'
      | O =>
          match maxsplit with
          | S m =>
              if startswith sep s
              then cur :: split_loop sep m (String.length sep - 1) EmptyString s'
              else split_loop sep maxsplit 0 (cur ++ String c EmptyString) s'
          | O => split_loop sep maxsplit 0 (cur ++ String c EmptyString) s'
          end
      end
  end.

Definition split (sep : string) (maxsplit : nat) (s : string) : list string :=
  split_loop sep maxsplit 0 EmptyString s.

(** [s.count(sub)] for a non-empty [sub]: non-overlapping occurrences. *)
Fixpoint count_loop (sub : string) (skip : nat) (s : string) : nat :=
  match s with
  | EmptyString => 0
  | String _ s' =>
      match skip with
      | S k => count_loop sub k s'
      | O => if startswith sub s
             then S (count_loop sub (String.length sub - 1) s')
             else count_loop sub 0 s'
      end
  end.

Definition count (sub s : string) : nat := count_loop sub 0 s.

End Py.

(* ================================================================== *)
(** * The fragment of [re] used by the scripts                         *)
(* ================================================================== *)

Module Re.

(** Character classes. *)
Inductive cclass :=
  | Dot                                   (* [.]  : anything but a newline *)
  | Digit                                 (* [\d] *)
  | OneOf (cs : string)                   (* [[...]] listing its members *)
  | NotLowerAlnum.                        (* [[^a-z0-9]] *)

Definition is_digit (c : ascii) : bool :=
  let n := nat_of_ascii c in (48 <=? n)%nat && (n <=? 57)%nat.

Definition is_lower (c : ascii) : bool :=
  let n := nat_of_ascii c in (97 <=? n)%nat && (n <=? 122)%nat.

Fixpoint mem_char (c : ascii) (cs : string) : bool :=
  match cs with
  | EmptyString => false
  | String d cs' => Ascii.eqb c d || mem_char c cs'
  end.

Definition in_class (k : cclass) (c : ascii) : bool :=
  match k with
  | Dot => negb (Ascii.eqb c "010"%char)
  | Digit => is_digit c
  | OneOf cs => mem_char c cs
  | NotLowerAlnum => negb (is_lower c || is_digit c)
  end.

(** Patterns.  Repetition is only ever applied to a character class. *)
Inductive regex :=
  | Chars (s : string)                    (* literal text *)
  | One (k : cclass)
  | Plus (k : cclass)                     (* [k+], greedy *)
  | Opt (r : regex)                       (* [r?], greedy *)
  | Alt (r1 r2 : regex)                   (* [r1|r2] *)
  | Cat (r1 r2 : regex)
  | Group (r : regex)                     (* capturing group *)
  | Bol                                   (* [^] *)
  | Eol.                                  (* [$] *)

(** A backtracking matcher in continuation-passing style.  [pos] is the
    index of [s] in the subject, [cap] the text captured by the group so
    far; the continuation receives the state after the match and fails
    ([None]) to make the matcher try its next alternative. *)
Section Matcher.
Context {R : Type}.
Definition cont := nat -> string -> option string -> option R.

Definition or_else (x y : option R) : option R :=
  match x with Some _ => x | None => y end.

(** One or more characters of the class, longest first. *)
Fixpoint plus_greedy (k : cclass) (pos : nat) (s : string)
         (cap : option string) (kont : cont) : option R :=
  match s with
  | EmptyString => None
  | String c s' =>
      if in_class k c
      then or_else (plus_greedy k (S pos) s' cap kont) (kont (S pos) s' cap)
      else None
  end.

Fixpoint rmatch (r : regex) (pos : nat) (s : string)
         (cap : option string) (kont : cont) : option R :=
  match r with
  | Chars lit =>
      if Py.startswith lit s
      then kont (pos + String.length lit) (Py.drop (String.length lit) s) cap
      else None
  | One k =>
      match s with
      | String c s' => if in_class k c then kont (S pos) s' cap else None
      | EmptyString => None
      end
  | Plus k => plus_greedy k pos s cap kont
  | Opt r1 => or_else (rmatch r1 pos s cap kont) (kont pos s cap)
  | Alt r1 r2 => or_else (rmatch r1 pos s cap kont) (rmatch r2 pos s cap kont)
  | Cat r1 r2 =>
      rmatch r1 pos s cap (fun pos' s' cap' => rmatch r2 pos' s' cap' kont)
  | Group r1 =>
      rmatch r1 pos s cap
             (fun pos' s' _ => kont pos' s' (Some (Py.take (pos' - pos) s)))
  | Bol => if (pos =? 0)%nat then kont pos s cap else None
  | Eol =>
      match s with
      | EmptyString => kont pos s cap
      | String c EmptyString =>
          if Ascii.eqb c "010"%char then kont pos s cap else None
      | _ => None
      end
  end.
End Matcher.

(** The match object: where the match ends and what group 1 captured
    ([None] when the pattern has no group). *)
Record match_obj := { m_end : nat; m_group1 : option string }.

(** A match of [r] starting at index [pos], where [s] is the subject from
    [pos] on. *)
Definition match_at (r : regex) (pos : nat) (s : string) : option match_obj :=
  rmatch r pos s None
         (fun pos' _ cap => Some {| m_end := pos'; m_group1 := cap |}).

(** [re.match(r, s)]. *)
Definition re_match (r : regex) (s : string) : option match_obj :=
  match_at r 0 s.

(** [re.sub(r, repl, s)] for patterns that match no empty string: every
    leftmost non-overlapping match is replaced.  [skip] counts the
    characters of the current match still to be consumed. *)
Fixpoint sub_loop (r : regex) (repl : string) (pos skip : nat) (s : string)
  : string :=
  match s with
  | EmptyString => EmptyString
  | String c s' =>
      match skip with
      | S k => sub_loop r repl (S pos) k s'
      | O =>
          match match_at r pos s with
          | Some m =>
              if (pos <? m_end m)%nat
              then repl ++ sub_loop r repl (S pos) (m_end m - pos - 1) s'
              else String c (sub_loop r repl (S pos) 0 s')
          | None => String c (sub_loop r repl (S pos) 0 s')
          end
      end
  end.

Definition re_sub (r : regex) (repl s : string) : string :=
  sub_loop r repl 0 0 s.

End Re.

(* ================================================================== *)
(** * [difflib.SequenceMatcher] on strings                             *)
(* ================================================================== *)

Module Difflib.

(** Both scripts call [SequenceMatcher(None, a, b)]: no junk predicate,
    [autojunk] left at its default.  Sequences are character lists. *)

Definition seq := list ascii.

Fixpoint count_occ_char (c : ascii) (b : seq) : nat :=
  match b with
  | [] => 0
  | d :: b' => (if Ascii.eqb c d then 1 else 0) + count_occ_char c b'
  end.

(** [bpopular]: with at least 200 elements in [b], an element occurring
    more than [n // 100 + 1] times is dropped from [b2j]. *)
Definition popular (b : seq) (c : ascii) : bool :=
  let n := List.length b in
  (200 <=? n)%nat && (n / 100 + 1 <? count_occ_char c b)%nat.

(** The indices of [c] in [b], increasing, counted from [i]. *)
Fixpoint indices_from (i : nat) (c : ascii) (b : seq) : list nat :=
  match b with
  | [] => []
  | d :: b' =>
      if Ascii.eqb c d then i :: indices_from (S i) c b'
      else indices_from (S i) c b'
  end.

(** [b2j.get(c, [])] after [__chain_b]. *)
Definition b2j_get (b : seq) (c : ascii) : list nat :=
  if popular b c then [] else indices_from 0 c b.

(** [j2len.get(j - 1, 0)]; the key [-1] is never present. *)
Fixpoint dict_get (d : list (nat * nat)) (j : nat) : nat :=
  match d with
  | [] => 0
  | (j', k) :: d' => if (j =? j')%nat then k else dict_get d' j
  end.

Definition j2len_prev (j2len : list (nat * nat)) (j : nat) : nat :=
  match j with
  | O => 0
  | S j' => dict_get j2len j'
  end.

(** A match [(i, j, size)]. *)
Record Match := { m_a : nat; m_b : nat; m_size : nat }.

(** The loop over the occurrences [j] of [a[i]] in [b]: [continue] below
    [blo], [break] from [bhi] on. *)
Fixpoint inner_loop (i blo bhi : nat) (js : list nat)
         (j2len newj2len : list (nat * nat)) (best : Match)
  : list (nat * nat) * Match :=
  match js with
  | [] => (newj2len, best)
  | j :: js' =>
      if (j <? blo)%nat then inner_loop i blo bhi js' j2len newj2len best
      else if (bhi <=? j)%nat then (newj2len, best)
      else
        let k := j2len_prev j2len j + 1 in
        let best' :=
          if (m_size best <? k)%nat
          then {| m_a := i + 1 - k; m_b := j + 1 - k; m_size := k |}
          else best in
        inner_loop i blo bhi js' j2len ((j, k) :: newj2len) best'
  end.

(** The loop [for i in range(alo, ahi)], over the indices [rng]. *)
Fixpoint outer_loop (a b : seq) (blo bhi : nat) (rng : list nat)
         (j2len : list (nat * nat)) (best : Match) : Match :=
  match rng with
  | [] => best
  | i :: rng' =>
      let '(newj2len, best') :=
        inner_loop i blo bhi (b2j_get b (nth i a "000"%char)) j2len [] best in
      outer_loop a b blo bhi rng' newj2len best'
  end.

(** The first [while]: extend the match to the left while the elements
    before it agree.  [fuel] bounds the iterations by [besti - alo]. *)
Fixpoint extend_left (a b : seq) (alo blo : nat) (fuel : nat) (best : Match)
  : Match :=
  match fuel with
  | O => best
  | S fuel' =>
      if (alo <? m_a best)%nat && (blo <? m_b best)%nat &&
         Ascii.eqb (nth (m_a best - 1) a "000"%char)
                   (nth (m_b best - 1) b "000"%char)
      then extend_left a b alo blo fuel'
             {| m_a := m_a best - 1; m_b := m_b best - 1;
                m_size := m_size best + 1 |}
      else best
  end.

(** The second [while]: extend to the right. *)
Fixpoint extend_right (a b : seq) (ahi bhi : nat) (fuel : nat) (best : Match)
  : Match :=
  match fuel with
  | O => best
  | S fuel' =>
      if (m_a best + m_size best <? ahi)%nat &&
         (m_b best + m_size best <? bhi)%nat &&
         Ascii.eqb (nth (m_a best + m_size best) a "000"%char)
                   (nth (m_b best + m_size best) b "000"%char)
      then extend_right a b ahi bhi fuel'
             {| m_a := m_a best; m_b := m_b best; m_size := m_size best + 1 |}
      else best
  end.

(** [find_longest_match(alo, ahi, blo, bhi)].  The two loops over junk
    elements never run, [bjunk] being empty. *)
Definition find_longest_match (a b : seq) (alo ahi blo bhi : nat) : Match :=
  let best0 := {| m_a := alo; m_b := blo; m_size := 0 |} in
  let best1 := outer_loop a b blo bhi (List.seq alo (ahi - alo)) [] best0 in
  let best2 := extend_left a b alo blo (m_a best1 - alo) best1 in
  extend_right a b ahi bhi (ahi - (m_a best2 + m_size best2)) best2.

(** The work-list loop of [get_matching_blocks]; [queue.pop()] takes the
    entry appended last, kept here at the head.  Every entry is a
    non-empty window of [a], and each iteration either removes a window
    or replaces it by windows on both sides of a match found inside. *)
Fixpoint blocks_loop (a b : seq) (fuel : nat)
         (queue : list (nat * nat * nat * nat)) (matching_blocks : list Match)
  : option (list Match) :=
  match queue with
  | [] => Some matching_blocks
  | (alo, ahi, blo, bhi) :: queue' =>
      match fuel with
      | O => None
      | S fuel' =>
          let x := find_longest_match a b alo ahi blo bhi in
          let '(i, j, k) := (m_a x, m_b x, m_size x) in
          if (k =? 0)%nat then blocks_loop a b fuel' queue' matching_blocks
          else
            let q1 := if (alo <? i)%nat && (blo <? j)%nat
                      then (alo, i, blo, j) :: queue' else queue' in
            let q2 := if (i + k <? ahi)%nat && (j + k <? bhi)%nat
                      then (i + k, ahi, j + k, bhi) :: q1 else q1 in
            blocks_loop a b fuel' q2 (matching_blocks ++ [x])
      end
  end.

(** Insertion into a list sorted by [(i, j, size)], the order of tuples. *)
Definition match_leb (x y : Match) : bool :=
  (m_a x <? m_a y)%nat ||
  ((m_a x =? m_a y)%nat &&
   ((m_b x <? m_b y)%nat ||
    ((m_b x =? m_b y)%nat && (m_size x <=? m_size y)%nat))).

Fixpoint insert_match (x : Match) (l : list Match) : list Match :=
  match l with
  | [] => [x]
  | y :: l' => if match_leb x y then x :: l else y :: insert_match x l'
  end.

(** [matching_blocks.sort()]. *)
Definition sort_matches (l : list Match) : list Match :=
  fold_right insert_match [] l.

(** The loop that merges adjacent blocks; [(i1, j1, k1)] is the block
    being grown. *)
Fixpoint collapse (cur : Match) (l : list Match) : list Match :=
  match l with
  | [] => if (m_size cur =? 0)%nat then [] else [cur]
  | x :: l' =>
      if (m_a cur + m_size cur =? m_a x)%nat &&
         (m_b cur + m_size cur =? m_b x)%nat
      then collapse {| m_a := m_a cur; m_b := m_b cur;
                       m_size := m_size cur + m_size x |} l'
      else (if (m_size cur =? 0)%nat then [] else [cur]) ++ collapse x l'
  end.

(** [get_matching_blocks()].  The work list holds at most one window per
    element of [a] on each side of a match, so [2 * len(a) + 1] iterations
    are enough (lemma [blocks_loop_terminates] below): the [None] branch
    is never taken. *)
Definition get_matching_blocks (a b : seq) : list Match :=
  let la := List.length a in
  let lb := List.length b in
  let found :=
    match blocks_loop a b (2 * la + 1) [(0, la, 0, lb)] [] with
    | Some l => l
    | None => []
    end in
  collapse {| m_a := 0; m_b := 0; m_size := 0 |} (sort_matches found)
    ++ [{| m_a := la; m_b := lb; m_size := 0 |}].

(** [ratio()]: [2.0 * matches / length], or [1.0] for two empty
    sequences.  The quotient is kept exact.  Every caller compares it
    with a decimal threshold [t]; a quotient [2M/T] other than [t]
    differs from it by at least [1/(10T)], far more than the rounding
    error of a double for any text that fits in memory, so the exact
    comparison and the floating-point one agree. *)
Definition ratio (a b : seq) : Q :=
  let matches := fold_right (fun x acc => m_size x + acc)%nat 0%nat
                            (get_matching_blocks a b) in
  let length := (List.length a + List.length b)%nat in
  if (length =? 0)%nat then 1%Q
  else Qmake (2 * Z.of_nat matches) (Pos.of_nat length).

Definition ratio_str (a b : string) : Q :=
  ratio (list_ascii_of_string a) (list_ascii_of_string b).

(** [x > y] on ratios. *)
Definition Qgtb (x y : Q) : bool := negb (Qle_bool x y).

End Difflib.

(* ================================================================== *)
(** * Values produced by [yaml.safe_load]                              *)
(* ================================================================== *)

Module Yaml.

(** Parsed header values; mappings are keyed by strings, each key listed
    once. *)
#[warnings="-register-all"]
Inductive value :=
  | VNull
  | VBool (b : bool)
  | VInt (z : Z)
  | VFloat (q : Q)
  | VStr (s : string)
  | VSeq (l : list value)
  | VMap (m : list (string * value)).

(** The empty mapping [{}]. *)
Definition empty : value := VMap [].

(** [bool(v)]. *)
Definition truthy (v : value) : bool :=
  match v with
  | VNull => false
  | VBool b => b
  | VInt z => negb (z =? 0)%Z
  | VFloat q => negb (Qeq_bool q 0)
  | VStr s => negb (s =? "")
  | VSeq l => match l with [] => false | _ => true end
  | VMap m => match m with [] => false | _ => true end
  end.

(** [v or {}]. *)
Definition or_empty (v : value) : value := if truthy v then v else empty.

Fixpoint lookup (key : string) (m : list (string * value)) : option value :=
  match m with
  | [] => None
  | (k, v) :: m' => if k =? key then Some v else lookup key m'
  end.

(** [key in v] for a string [key]: key membership in a mapping, element
    membership in a sequence, substring test in a string; [None] stands
    for the [TypeError] raised on a value that is not a container. *)
Definition py_in (key : string) (v : value) : option bool :=
  match v with
  | VMap m => Some (match lookup key m with Some _ => true | None => false end)
  | VSeq l =>
      Some (existsb (fun x => match x with VStr s => s =? key | _ => false end) l)
  | VStr s => Some (Py.contains key s)
  | _ => None
  end.

(** [v.get(key, default)]; [None] stands for the [AttributeError] raised
    on a value that is not a mapping. *)
Definition py_get (v : value) (key : string) (default : value) : option value :=
  match v with
  | VMap m => Some (match lookup key m with Some x => x | None => default end)
  | _ => None
  end.

(** [len(v)]; [None] stands for the [TypeError] raised on a scalar. *)
Definition py_len (v : value) : option nat :=
  match v with
  | VStr s => Some (String.length s)
  | VSeq l => Some (List.length l)
  | VMap m => Some (List.length m)
  | _ => None
  end.

End Yaml.

(** Sequencing of computations that may raise: [None] is a raised
    exception. *)
Notation "x <- c1 ;; c2" :=
  (match c1 with Some x => c2 | None => None end)
  (at level 61, c1 at next level, right associativity).

(** The points added by [if c: score += k]. *)
Definition bonus (c : bool) (k : Z) : Z := if c then k else 0%Z.

(** [list.sort(key=..., reverse=True)]: descending by key, elements with
    equal keys keep their relative order. *)
Section StableSort.
Context {A : Type} (key : A -> Z).

Fixpoint insert_desc (x : A) (l : list A) : list A :=
  match l with
  | [] => [x]
  | y :: l' => if (key x <? key y)%Z then y :: insert_desc x l' else x :: l
  end.

Definition sort_desc (l : list A) : list A := fold_right insert_desc [] l.
End StableSort.

(* ================================================================== *)
(** * [intelligent_dedupe.py]                                          *)
(* ================================================================== *)

Module Dedupe.

Import Re.

(** The dataclass [Agent]; a [Path] is the text of the path, and the
    score, annotated [float], only ever holds sums of integers. *)
Record Agent := {
  path : string;
  name : string;
  content : string;
  yaml_data : Yaml.value;
  quality_score : Z;
  content_length : Z;
  has_yaml : bool;
  has_tools : bool;
  has_structure : bool;
  has_examples : bool;
  source_repo : string
}.

Definition set_has_examples (a : Agent) (b : bool) : Agent :=
  {| path := path a; name := name a; content := content a;
     yaml_data := yaml_data a; quality_score := quality_score a;
     content_length := content_length a; has_yaml := has_yaml a;
     has_tools := has_tools a; has_structure := has_structure a;
     has_examples := b; source_repo := source_repo a |}.

Definition set_quality_score (a : Agent) (q : Z) : Agent :=
  {| path := path a; name := name a; content := content a;
     yaml_data := yaml_data a; quality_score := q;
     content_length := content_length a; has_yaml := has_yaml a;
     has_tools := has_tools a; has_structure := has_structure a;
     has_examples := has_examples a; source_repo := source_repo a |}.

(** ** [extract_yaml] *)

Section Parser.
(** [yaml.safe_load] on a non-empty stream, a library outside the
    repository: [None] stands for any exception it raises. *)
Variable yaml_parse : string -> option Yaml.value.

(** The empty stream holds no document: it loads as Python's [None],
    the value [VNull], and the library parser is not consulted. *)
Definition safe_load (s : string) : option Yaml.value :=
  if s =? "" then Some Yaml.VNull else yaml_parse s.

(** The [try] block succeeds with the parsed header and the stripped
    remainder; the bare [except] and every failed test fall through to
    [return {}, content]. *)
Definition extract_yaml (content : string) : Yaml.value * string :=
  if Py.startswith "---" content then
    match Py.split "---" 2 content with
    | _ :: p1 :: p2 :: _ =>
        match safe_load p1 with
        | Some yaml_data => (Yaml.or_empty yaml_data, Py.strip p2)
        | None => (Yaml.empty, content)
        end
    | _ => (Yaml.empty, content)
    end
  else (Yaml.empty, content).
End Parser.

(** ** [calculate_quality_score] *)

Definition quality_repos : list string :=
  ["voltagent"; "wshobson"; "0xfurai"; "davepoon"].

(** Section 2 of the scorer, the header: the points it adds, or [None]
    when a membership test, [get] or [len] raises. *)
Definition frontmatter_points (agent : Agent) : option Z :=
  if has_yaml agent then
    let score := 5%Z in
    in_name <- Yaml.py_in "name" (yaml_data agent) ;;
    let score := (score + bonus in_name 5)%Z in
    in_desc <- Yaml.py_in "description" (yaml_data agent) ;;
    score <-
      (if in_desc : bool then
         let score := (score + 5)%Z in
         d <- Yaml.py_get (yaml_data agent) "description" (Yaml.VStr "") ;;
         desc_len <- Yaml.py_len d ;;
         Some (score + (if (100 <? desc_len)%nat then 5
                        else if (50 <? desc_len)%nat then 3 else 0))%Z
       else Some score) ;;
    in_tools <- Yaml.py_in "tools" (yaml_data agent) ;;
    (if in_tools : bool then
       let score := (score + 5)%Z in
       t <- Yaml.py_get (yaml_data agent) "tools" (Yaml.VSeq []) ;;
       tool_count <- Yaml.py_len t ;;
       Some (score + (if (5 <? tool_count)%nat then 5
                      else if (2 <? tool_count)%nat then 3 else 0))%Z
     else Some score)
  else Some 0%Z.

(** [calculate_quality_score(agent)]: the score together with the agent
    as the call leaves it, or [None] when the header section raises. *)
Definition calculate_quality_score (agent : Agent) : option (Z * Agent) :=
  let score := 0%Z in
  (* 1. Content length *)
  let score :=
    (score + (if 3000 <? content_length agent then 20
              else if 2000 <? content_length agent then 15
              else if 1000 <? content_length agent then 10
              else if 500 <? content_length agent then 5
              else 0))%Z in
  (* 2. YAML frontmatter quality *)
  points <- frontmatter_points agent ;;
  let score := (score + points)%Z in
  (* 3. Content structure *)
  let content_lower := Py.lower (content agent) in
  let score :=
    (score + bonus (Py.contains "## responsibilities" content_lower ||
                    Py.contains "## your role" content_lower) 5)%Z in
  let score :=
    (score + bonus (Py.contains "## guidelines" content_lower ||
                    Py.contains "## principles" content_lower) 5)%Z in
  let score :=
    (score + bonus (Py.contains "## workflow" content_lower ||
                    Py.contains "## process" content_lower) 5)%Z in
  let examples :=
    Py.contains "## examples" content_lower ||
    Py.contains "```" (content agent) in
  let score := (score + bonus examples 5)%Z in
  let agent' := if examples then set_has_examples agent true else agent in
  (* 4. Specificity indicators *)
  let score :=
    (score + bonus (Py.contains "you are" content_lower ||
                    Py.contains "your role" content_lower) 5)%Z in
  let score :=
    (score + bonus (Py.contains "must" content_lower ||
                    Py.contains "should" content_lower) 5)%Z in
  let score :=
    (score + bonus (Py.contains "step" content_lower ||
                    Py.contains "process" content_lower) 5)%Z in
  (* 5. Code examples bonus *)
  let code_blocks := Py.count "```" (content agent) in
  let score :=
    (score + (if (4 <=? code_blocks)%nat then 10
              else if (2 <=? code_blocks)%nat then 5 else 0))%Z in
  (* 6. Source repository quality bonus *)
  let score :=
    (score + bonus (existsb (fun repo =>
                               Py.contains repo (Py.lower (source_repo agent)))
                            quality_repos) 10)%Z in
  Some (score, agent').

(** ** [get_semantic_key] *)

(** [(.+)[-_]?] followed by [body] and [$]. *)
Definition stem_then (body : regex) : regex :=
  Cat (Group (Plus Dot)) (Cat (Opt (One (OneOf "-_"))) (Cat body Eol)).

Definition sep_opt : regex := Opt (One (OneOf "-_")).

Definition duplicate_patterns : list (list regex) :=
  [ [ stem_then (Chars "pro"); stem_then (Chars "expert");
      stem_then (Chars "developer"); stem_then (Chars "engineer");
      stem_then (Chars "specialist") ];
    [ stem_then (Chars "architect"); stem_then (Chars "architecture") ];
    [ stem_then (Cat (Chars "test") (Opt (Alt (Chars "er") (Chars "ing"))));
      stem_then (Chars "qa") ];
    [ stem_then (Cat (Chars "debug") (Opt (Chars "ger")));
      stem_then (Cat (Chars "troubleshoot") (Opt (Chars "er"))) ];
    [ stem_then (Cat (Chars "optimize") (Opt (Chars "r")));
      stem_then (Chars "performance") ];
    [ Cat (Chars "ml") (Cat sep_opt (Cat (Chars "engineer") Eol));
      Cat (Chars "machine")
          (Cat sep_opt (Cat (Chars "learning")
                            (Cat sep_opt (Cat (Chars "engineer") Eol)))) ];
    [ Cat (Chars "ai") (Cat sep_opt (Cat (Chars "engineer") Eol));
      Cat (Chars "artificial")
          (Cat sep_opt (Cat (Chars "intelligence")
                            (Cat sep_opt (Cat (Chars "engineer") Eol)))) ] ].

(** The two nested loops over the patterns: the first pattern matching
    [clean] decides. *)
Fixpoint first_match (patterns : list regex) (clean : string) : option string :=
  match patterns with
  | [] => None
  | pattern :: rest =>
      match re_match pattern clean with
      | Some m =>
          Some (match m_group1 m with
                | Some g => Py.strip g
                | None => clean
                end)
      | None => first_match rest clean
      end
  end.

Definition get_semantic_key (name : string) : string :=
  let clean := re_sub (Cat Bol (Cat (Plus Digit) (One (OneOf "-_")))) "" name in
  let clean := re_sub (One (OneOf "-_")) " " clean in
  let clean := Py.strip (Py.lower clean) in
  match first_match (List.concat duplicate_patterns) clean with
  | Some key => key
  | None => clean
  end.

(** ** [name_similarity] and [content_similarity] *)

Definition name_similarity (name1 name2 : string) : Q :=
  let clean1 := re_sub (One NotLowerAlnum) "" (Py.lower name1) in
  let clean2 := re_sub (One NotLowerAlnum) "" (Py.lower name2) in
  if Py.contains clean1 clean2 || Py.contains clean2 clean1 then 9 # 10
  else Difflib.ratio_str clean1 clean2.

Definition content_similarity (content1 content2 : string) : Q :=
  let snippet1 := Py.lower (Py.take 500 content1) in
  let snippet2 := Py.lower (Py.take 500 content2) in
  Difflib.ratio_str snippet1 snippet2.

(** ** [find_duplicates] *)

Definition role_suffix : regex :=
  Cat (One (OneOf "-_"))
      (Cat (Group (Alt (Chars "pro")
                  (Alt (Chars "expert")
                  (Alt (Chars "developer")
                  (Alt (Chars "engineer") (Chars "specialist"))))))
           Eol).

(** The verdict computed in the body of the inner loop for the seed
    [agent1] and the candidate [agent2]. *)
Definition is_duplicate (agent1 agent2 : Agent) : bool :=
  let key1 := get_semantic_key (name agent1) in
  let key2 := get_semantic_key (name agent2) in
  let is_dup := false in
  let is_dup :=
    (* 1. Same semantic key *)
    if key1 =? key2 then true
    (* 2. High name similarity *)
    else if Difflib.Qgtb (name_similarity (name agent1) (name agent2)) (7 # 10)
    then true
    (* 3. Very similar content *)
    else if Difflib.Qgtb (content_similarity (content agent1) (content agent2))
                         (8 # 10)
    then true
    else is_dup in
  (* 4. Common patterns *)
  let name1_clean := re_sub role_suffix "" (Py.lower (name agent1)) in
  let name2_clean := re_sub role_suffix "" (Py.lower (name agent2)) in
  if (name1_clean =? name2_clean) && negb (name1_clean =? "") then true
  else is_dup.

(** Membership in a set of paths. *)
Definition mem (p : string) (s : list string) : bool :=
  existsb (String.eqb p) s.

Section Grouper.
(** The verdict on a seed and a candidate ([is_duplicate] above). *)
Variable verdict : Agent -> Agent -> bool.

(** The inner loop, over [all_agents[i+1:]]. *)
Fixpoint scan (agent1 : Agent) (rest : list Agent)
         (processed : list string) (current_group : list Agent)
  : list string * list Agent :=
  match rest with
  | [] => (processed, current_group)
  | agent2 :: rest' =>
      if mem (path agent2) processed
      then scan agent1 rest' processed current_group
      else if verdict agent1 agent2
      then scan agent1 rest' (path agent2 :: processed)
                (current_group ++ [agent2])
      else scan agent1 rest' processed current_group
  end.

(** The outer loop; [groups] lists the values of the dictionary in the
    order of their identifiers. *)
Fixpoint group_loop (agents : list Agent) (processed : list string)
         (groups : list (list Agent)) : list (list Agent) :=
  match agents with
  | [] => groups
  | agent1 :: rest =>
      if mem (path agent1) processed then group_loop rest processed groups
      else
        let '(processed', current_group) :=
          scan agent1 rest (path agent1 :: processed) [agent1] in
        group_loop rest processed'
          (if (1 <? List.length current_group)%nat
           then groups ++ [current_group] else groups)
  end.
End Grouper.

(** An entry of the decision log; its [reason] is the score again, as
    text. *)
Record decision := {
  d_group : string;
  d_selected : string;
  d_score : Z;
  d_rejected : list string
}.

(** The state of an [IntelligentDeduplicator]. *)
Record State := {
  all_agents : list Agent;
  duplicate_groups : list (list Agent);
  unique_agents : list Agent;
  decision_log : list decision
}.

(** The state after [__init__] and [load_agents]. *)
Definition loaded (agents : list Agent) : State :=
  {| all_agents := agents; duplicate_groups := [];
     unique_agents := []; decision_log := [] |}.

Definition find_duplicates (st : State) : State :=
  {| all_agents := all_agents st;
     duplicate_groups := group_loop is_duplicate (all_agents st) [] [];
     unique_agents := unique_agents st;
     decision_log := decision_log st |}.

(** ** [select_best_from_groups] *)

(** The loop over the groups: each is sorted in place, its first element
    is kept and a decision is logged.  [agents[0]] raises on an empty
    group. *)
Fixpoint select_loop (groups : list (list Agent)) (unique : list Agent)
         (log : list decision)
  : option (list (list Agent) * list Agent * list decision) :=
  match groups with
  | [] => Some ([], unique, log)
  | agents :: groups' =>
      match sort_desc quality_score agents with
      | [] => None
      | best :: rejected =>
          let d := {| d_group := get_semantic_key (name best);
                      d_selected := name best;
                      d_score := quality_score best;
                      d_rejected := map name rejected |} in
          r <- select_loop groups' (unique ++ [best]) (log ++ [d]) ;;
          let '(sorted', unique', log') := r in
          Some ((best :: rejected) :: sorted', unique', log')
      end
  end.

Definition select_best_from_groups (st : State) : option State :=
  let in_groups := map path (List.concat (duplicate_groups st)) in
  let unique :=
    unique_agents st ++
    filter (fun agent => negb (mem (path agent) in_groups)) (all_agents st) in
  r <- select_loop (duplicate_groups st) unique (decision_log st) ;;
  let '(sorted, unique', log') := r in
  Some {| all_agents := all_agents st; duplicate_groups := sorted;
          unique_agents := unique'; decision_log := log' |}.

(** ** [load_agents] *)

(** A file found by [rglob], with what [pathlib] derives from its path. *)
Record File := {
  f_path : string;
  f_stem : string;
  f_parts : list string;
  f_text : string
}.

Section Loader.
Variable yaml_parse : string -> option Yaml.value.

(** The body of the [try] block for one file; [None] when it raises,
    in which case the file is reported and skipped. *)
Definition load_agent (agent_file : File) : option Agent :=
  let content := f_text agent_file in
  let '(yaml_data, clean_content) := extract_yaml yaml_parse content in
  let parts := f_parts agent_file in
  let source_repo :=
    if (2 <? List.length parts)%nat then
      if (3 <? List.length parts)%nat
      then nth (List.length parts - 3) parts "" else ""
    else "" in
  has_tools_ <- Yaml.py_in "tools" yaml_data ;;
  let agent :=
    {| path := f_path agent_file; name := f_stem agent_file;
       content := content; yaml_data := yaml_data; quality_score := 0;
       content_length := Z.of_nat (String.length content);
       has_yaml := Yaml.truthy yaml_data; has_tools := has_tools_;
       has_structure := Py.contains "##" content;
       has_examples := false; source_repo := source_repo |} in
  r <- calculate_quality_score agent ;;
  let '(score, agent) := r in
  Some (set_quality_score agent score).

Fixpoint load_agents (files : list File) : list Agent :=
  match files with
  | [] => []
  | agent_file :: files' =>
      match load_agent agent_file with
      | Some agent => agent :: load_agents files'
      | None => load_agents files'
      end
  end.
End Loader.

End Dedupe.

(* ================================================================== *)
(** * [collect_agents.py]                                              *)
(* ================================================================== *)

Module Collector.

(** The dataclass [Agent]. *)
Record Agent := {
  original_path : string;
  source_repo : string;
  name : string;
  description : string;
  content : string;
  content_hash : string;
  yaml_frontmatter : Yaml.value;
  tools : Yaml.value;
  category : string;
  subcategory : string;
  agent_id : Z;
  quality_score : Z
}.

(** [self.categories]: the taxonomy in the order of its declaration,
    which is the order in which the dictionaries are iterated. *)
Definition categories : list (string * list (string * list string)) :=
  [ ("languages",
     [ ("python", ["python"; "py"; "pip"; "django"; "flask"; "fastapi"]);
       ("javascript", ["javascript"; "js"; "node"; "npm"]);
       ("typescript", ["typescript"; "ts"; "tsx"]);
       ("java", ["java"; "spring"; "maven"]);
       ("csharp", ["c#"; "csharp"; "dotnet"; ".net"]);
       ("cpp", ["c++"; "cpp"; "cmake"]);
       ("rust", ["rust"; "cargo"]);
       ("go", ["go"; "golang"]);
       ("ruby", ["ruby"; "rails"]);
       ("php", ["php"; "laravel"]);
       ("swift", ["swift"; "ios"]);
       ("kotlin", ["kotlin"; "android"]) ]);
    ("frameworks",
     [ ("react", ["react"; "jsx"; "hooks"]);
       ("vue", ["vue"; "vuex"; "pinia"]);
       ("angular", ["angular"; "rxjs"]);
       ("nextjs", ["next"; "nextjs"; "vercel"]);
       ("express", ["express"; "nodejs"]);
       ("django", ["django"; "drf"]);
       ("flask", ["flask"; "werkzeug"]);
       ("fastapi", ["fastapi"; "pydantic"]);
       ("spring", ["spring"; "boot"]);
       ("rails", ["rails"; "activerecord"]) ]);
    ("tasks",
     [ ("testing", ["test"; "testing"; "tdd"; "bdd"; "jest"; "pytest"; "unit"]);
       ("debugging", ["debug"; "fix"; "bug"; "error"; "troubleshoot"]);
       ("refactoring", ["refactor"; "optimize"; "clean"; "improve"]);
       ("security", ["security"; "audit"; "vulnerability"; "penetration"]);
       ("review", ["review"; "code review"; "quality"]);
       ("documentation", ["document"; "docs"; "readme"; "api"]);
       ("deployment", ["deploy"; "ci/cd"; "docker"; "kubernetes"]);
       ("automation", ["automate"; "automation"; "workflow"; "pipeline"]) ]);
    ("specialized",
     [ ("devops", ["devops"; "infrastructure"; "terraform"; "ansible"]);
       ("data", ["data"; "analysis"; "ml"; "ai"; "science"; "pandas"]);
       ("mobile", ["mobile"; "ios"; "android"; "react-native"; "flutter"]);
       ("cloud", ["aws"; "azure"; "gcp"; "cloud"; "serverless"]);
       ("database", ["database"; "sql"; "nosql"; "postgres"; "mongodb"]);
       ("frontend", ["frontend"; "ui"; "ux"; "css"; "design"]);
       ("backend", ["backend"; "api"; "server"; "microservice"]);
       ("blockchain", ["blockchain"; "crypto"; "web3"; "solidity"]);
       ("game", ["game"; "unity"; "unreal"; "godot"]);
       ("iot", ["iot"; "embedded"; "arduino"; "raspberry"]) ]) ].

(** ** [extract_yaml_frontmatter] *)

Section Parser.
Variable yaml_parse : string -> option Yaml.value.

Definition extract_yaml_frontmatter (content : string)
  : Yaml.value * string :=
  if Py.startswith "---" content then
    match Py.split "---" 2 content with
    | _ :: p1 :: p2 :: _ =>
        match Dedupe.safe_load yaml_parse p1 with
        | Some frontmatter => (Yaml.or_empty frontmatter, Py.strip p2)
        | None => (Yaml.empty, content)
        end
    | _ => (Yaml.empty, content)
    end
  else (Yaml.empty, content).
End Parser.

(** ** [calculate_quality_score] *)

Definition keywords : list string :=
  ["responsibilities"; "guidelines"; "process"; "steps"; "workflow"].

(** The loop over the instruction keywords. *)
Fixpoint keyword_loop (kws : list string) (content : string) (score : Z) : Z :=
  match kws with
  | [] => score
  | keyword :: kws' =>
      keyword_loop kws' content
        (score + bonus (Py.contains (Py.lower keyword) (Py.lower content)) 2)%Z
  end.

(** The header part of the scorer: the points it adds, or [None] when a
    membership test raises. *)
Definition frontmatter_points (agent : Agent) : option Z :=
  if Yaml.truthy (yaml_frontmatter agent) then
    let score := 10%Z in
    in_name <- Yaml.py_in "name" (yaml_frontmatter agent) ;;
    let score := (score + bonus in_name 5)%Z in
    in_desc <- Yaml.py_in "description" (yaml_frontmatter agent) ;;
    let score := (score + bonus in_desc 5)%Z in
    in_tools <- Yaml.py_in "tools" (yaml_frontmatter agent) ;;
    Some (score + bonus in_tools 5)%Z
  else Some 0%Z.

(** [calculate_quality_score(agent)]; [None] when the header part
    raises.  Nothing is assigned. *)
Definition calculate_quality_score (agent : Agent) : option Z :=
  let score := 0%Z in
  points <- frontmatter_points agent ;;
  let score := (score + points)%Z in
  let content_length := String.length (content agent) in
  let score := (score + bonus (500 <? content_length)%nat 5)%Z in
  let score := (score + bonus (1000 <? content_length)%nat 5)%Z in
  let score := (score + bonus (2000 <? content_length)%nat 5)%Z in
  let score := (score + bonus (Py.contains "## " (content agent)) 3)%Z in
  let score := (score + bonus (Py.contains "### " (content agent)) 2)%Z in
  let score := (score + bonus (Py.contains "```" (content agent)) 5)%Z in
  Some (keyword_loop keywords (content agent) score).

(** ** [categorize_agent] *)

(** The loop over the keywords of one subcategory. *)
Fixpoint keyword_score (kws : list string)
         (name_lower desc_lower content_lower : string) (score : Z) : Z :=
  match kws with
  | [] => score
  | keyword :: kws' =>
      let score := (if Py.contains keyword name_lower
                    then score + 3 else score)%Z in
      let score := (if Py.contains keyword desc_lower
                    then score + 2 else score)%Z in
      let score := (if Py.contains keyword content_lower
                    then score + 1 else score)%Z in
      keyword_score kws' name_lower desc_lower content_lower score
  end.

(** [(best_category, best_subcategory, best_score)]. *)
Definition best := (string * string * Z)%type.

(** The loop over the subcategories of [category]. *)
Fixpoint subcategory_loop (category : string)
         (subcategories : list (string * list string))
         (name_lower desc_lower content_lower : string) (b : best) : best :=
  match subcategories with
  | [] => b
  | (subcategory, kws) :: rest =>
      let score := keyword_score kws name_lower desc_lower content_lower 0 in
      let '(_, _, best_score) := b in
      subcategory_loop category rest name_lower desc_lower content_lower
        (if (best_score <? score)%Z then (category, subcategory, score) else b)
  end.

(** The loop over the categories. *)
Fixpoint category_loop (cats : list (string * list (string * list string)))
         (name_lower desc_lower content_lower : string) (b : best) : best :=
  match cats with
  | [] => b
  | (category, subcategories) :: rest =>
      category_loop rest name_lower desc_lower content_lower
        (subcategory_loop category subcategories
                          name_lower desc_lower content_lower b)
  end.

(** [categorize_agent] over a taxonomy [cats]. *)
Definition categorize_with (cats : list (string * list (string * list string)))
           (agent : Agent) : string * string :=
  let name_lower := Py.lower (name agent) in
  let desc_lower := Py.lower (description agent) in
  let content_lower := Py.lower (Py.take 1000 (content agent)) in
  let '(best_category, best_subcategory, _) :=
    category_loop cats name_lower desc_lower content_lower
                  ("specialized", "general", 0%Z) in
  (best_category, best_subcategory).

Definition categorize_agent (agent : Agent) : string * string :=
  categorize_with categories agent.

(** ** [find_duplicates] *)

Record State := {
  all_agents : list Agent;
  unique_agents : list Agent;
  duplicates : list Agent
}.

Section Grouper.
(** [similarity_score(agent, seed) > 0.8], a weighted sum of three
    ratios evaluated in floating point. *)
Variable similar : Agent -> Agent -> bool.

(** The loop over the existing groups for one agent: it joins the
    first group whose first member it resembles, otherwise a new group
    is appended.  [group_agents[0]] raises on an empty group. *)
Fixpoint place (agent : Agent) (groups : list (list Agent))
  : option (list (list Agent)) :=
  match groups with
  | [] => Some [[agent]]
  | group_agents :: rest =>
      match group_agents with
      | [] => None
      | seed :: _ =>
          if similar agent seed
          then Some ((group_agents ++ [agent]) :: rest)
          else r <- place agent rest ;; Some (group_agents :: r)
      end
  end.

Fixpoint group_loop (agents : list Agent) (groups : list (list Agent))
  : option (list (list Agent)) :=
  match agents with
  | [] => Some groups
  | agent :: rest => g <- place agent groups ;; group_loop rest g
  end.

(** The loop selecting the best agent of each group. *)
Fixpoint select_loop (groups : list (list Agent))
         (unique dups : list Agent) : option (list Agent * list Agent) :=
  match groups with
  | [] => Some (unique, dups)
  | group_agents :: rest =>
      if (1 <? List.length group_agents)%nat then
        match sort_desc quality_score group_agents with
        | [] => None
        | first :: others =>
            select_loop rest (unique ++ [first]) (dups ++ others)
        end
      else
        match group_agents with
        | [] => None
        | first :: _ => select_loop rest (unique ++ [first]) dups
        end
  end.

Definition find_duplicates (st : State) : option State :=
  groups <- group_loop (all_agents st) [] ;;
  r <- select_loop groups (unique_agents st) (duplicates st) ;;
  let '(unique, dups) := r in
  Some {| all_agents := all_agents st; unique_agents := unique;
          duplicates := dups |}.
End Grouper.

End Collector.

(* ================================================================== *)
(** * Notions used to state the properties                             *)
(* ================================================================== *)

(** The four tests of the similarity engine, as they appear in the body
    of [Dedupe.is_duplicate]. *)
Module Signal.
Import Dedupe.

Definition same_key (a1 a2 : Agent) : bool :=
  get_semantic_key (name a1) =? get_semantic_key (name a2).

Definition fuzzy_name (a1 a2 : Agent) : bool :=
  Difflib.Qgtb (name_similarity (name a1) (name a2)) (7 # 10).

Definition fuzzy_content (a1 a2 : Agent) : bool :=
  Difflib.Qgtb (content_similarity (content a1) (content a2)) (8 # 10).

Definition same_stem (a1 a2 : Agent) : bool :=
  (Re.re_sub role_suffix "" (Py.lower (name a1)) =?
   Re.re_sub role_suffix "" (Py.lower (name a2))) &&
  negb (Re.re_sub role_suffix "" (Py.lower (name a1)) =? "").
End Signal.

Module Spec.

(** Grouping against seeds only, as the design describes it: the first
    record of the list seeds a group, the later records that [judge]
    accepts against that seed join it, and the others are grouped in the
    same way. *)
Inductive seed_grouping {A : Type} (judge : A -> A -> bool)
  : list A -> list (list A) -> Prop :=
  | sg_nil : seed_grouping judge [] []
  | sg_seed : forall seed rest groups,
      seed_grouping judge (filter (fun r => negb (judge seed r)) rest) groups ->
      seed_grouping judge (seed :: rest)
                    ((seed :: filter (judge seed) rest) :: groups).

(** Groups of more than one record. *)
Definition multi {A : Type} (g : list A) : bool := (1 <? List.length g)%nat.

(** The earliest element with the greatest key, scanning from the left
    and replacing the candidate only by a strictly greater key. *)
Fixpoint first_max_from {A : Type} (key : A -> Z) (cand : A) (l : list A) : A :=
  match l with
  | [] => cand
  | x :: l' => first_max_from key (if (key cand <? key x)%Z then x else cand) l'
  end.

(** [best] is the earliest element of [g] with the greatest key: every
    element before it has a strictly smaller key, none after it a
    greater one. *)
Definition earliest_max {A : Type} (key : A -> Z) (g : list A) (best : A)
  : Prop :=
  exists pre post,
    g = pre ++ best :: post /\
    (forall x, In x pre -> (key x < key best)%Z) /\
    (forall x, In x post -> (key x <= key best)%Z).

(** A list in descending order of keys. *)
Definition descending {A : Type} (key : A -> Z) (l : list A) : Prop :=
  StronglySorted (fun x y => (key y <= key x)%Z) l.

(** The elements of [l] whose key is [v], in the order of [l]. *)
Definition with_key {A : Type} (key : A -> Z) (v : Z) (l : list A) : list A :=
  filter (fun x => (key x =? v)%Z) l.

(** A character counted as alphanumeric: an ASCII letter or digit. *)
Definition is_alnum (c : ascii) : bool :=
  let n := nat_of_ascii c in
  ((48 <=? n)%nat && (n <=? 57)%nat) ||
  ((65 <=? n)%nat && (n <=? 90)%nat) ||
  ((97 <=? n)%nat && (n <=? 122)%nat).

Fixpoint no_alnum (s : string) : bool :=
  match s with
  | EmptyString => true
  | String c s' => negb (is_alnum c) && no_alnum s'
  end.

(** The lines of a text. *)
Definition lines (s : string) : list string :=
  Py.split (String "010"%char EmptyString) (String.length s) s.

(** The text begins with a line made of three hyphens only and another
    such line occurs later. *)
Definition delimiter_framed (raw : string) : bool :=
  match lines raw with
  | first :: later => (first =? "---") && existsb (String.eqb "---") later
  | [] => false
  end.

(** The entries of a taxonomy in declaration order. *)
Definition entries (cats : list (string * list (string * list string)))
  : list (string * string * list string) :=
  flat_map (fun c => map (fun s => (fst c, fst s, snd s)) (snd c)) cats.

(** The accumulated score of one taxonomy entry for the lowercased name,
    description and content prefix of a record. *)
Definition entry_score (name_lower desc_lower content_lower : string)
           (e : string * string * list string) : Z :=
  Collector.keyword_score (snd e) name_lower desc_lower content_lower 0.

(** The test [if score > best_score] of the classifier for one entry. *)
Definition challenge (name_lower desc_lower content_lower : string)
           (b : Collector.best) (e : string * string * list string)
  : Collector.best :=
  if (snd b <? entry_score name_lower desc_lower content_lower e)%Z
  then (fst (fst e), snd (fst e),
        entry_score name_lower desc_lower content_lower e)
  else b.

(** A record whose path is not in the set [processed]. *)
Definition unprocessed (processed : list string) (agent : Dedupe.Agent)
  : bool :=
  negb (Dedupe.mem (Dedupe.path agent) processed).

(** The condition under which the scorer of [intelligent_dedupe.py]
    assigns [has_examples]. *)
Definition marks_examples (agent : Dedupe.Agent) : bool :=
  Py.contains "## examples" (Py.lower (Dedupe.content agent)) ||
  Py.contains "```" (Dedupe.content agent).

(** The entry [key] of a mapping, when present, has a length. *)
Definition sized (key : string) (m : list (string * Yaml.value)) : bool :=
  match Yaml.lookup key m with
  | Some v => match Yaml.py_len v with Some _ => true | None => false end
  | None => true
  end.

(** A header on which the scorer does not raise: a mapping whose
    description and tools, when present, have a length. *)
Definition scorable (header : Yaml.value) : bool :=
  match header with
  | Yaml.VMap m => sized "description" m && sized "tools" m
  | _ => false
  end.

(** The description of a mapping is absent or a text of fewer than 50
    characters. *)
Definition short_description (m : list (string * Yaml.value)) : bool :=
  match Yaml.lookup "description" m with
  | Some (Yaml.VStr d) => (String.length d <? 50)%nat
  | Some _ => false
  | None => true
  end.

(** The lines of a header block that is closed by a delimiter line, and
    the lines after that delimiter line. *)
Fixpoint header_block (later : list string)
  : option (list string * list string) :=
  match later with
  | [] => None
  | line :: rest =>
      if line =? "---" then Some ([], rest)
      else match header_block rest with
           | Some (header, body) => Some (line :: header, body)
           | None => None
           end
  end.

(** Lines put together again. *)
Definition unlines (ls : list string) : string :=
  String.concat (String "010"%char EmptyString) ls.

(** The body of a text as the design words it.  When the text begins
    with a delimiter line and a second delimiter line occurs later, the
    lines between them are the header block; when the block is parsed,
    the body is the text after the second delimiter line, trimmed.
    Without such a block, or when the block is not parsed, the body is
    the text unchanged. *)
Definition body_content (yaml_parse : string -> option Yaml.value)
           (raw : string) : string :=
  match lines raw with
  | first :: later =>
      if first =? "---" then
        match header_block later with
        | Some (header, body) =>
            match yaml_parse (unlines header) with
            | Some _ => Py.strip (unlines body)
            | None => raw
            end
        | None => raw
        end
      else raw
  | [] => raw
  end.

(** The content test as the design words it, on the bodies. *)
Definition fuzzy_body (yaml_parse : string -> option Yaml.value)
           (a1 a2 : Dedupe.Agent) : bool :=
  Difflib.Qgtb
    (Dedupe.content_similarity (body_content yaml_parse (Dedupe.content a1))
                               (body_content yaml_parse (Dedupe.content a2)))
    (8 # 10).

(** The verdict of [collect_agents.py] on a seed and a later record: the
    record is compared with the seed, in this order. *)
Definition against_seed {A : Type} (similar : A -> A -> bool) (seed r : A)
  : bool :=
  similar r seed.

(** A match lying inside the window [alo, ahi) of the first sequence. *)
Definition inside (alo ahi : nat) (m : Difflib.Match) : Prop :=
  (alo <= Difflib.m_a m /\ Difflib.m_a m + Difflib.m_size m <= ahi)%nat.

(** Every length recorded in a row of [j2len] is at most [bound]. *)
Definition bounded (bound : nat) (d : list (nat * nat)) : Prop :=
  forall j k, In (j, k) d -> (k <= bound)%nat.

(** The work left in a queue of windows: one unit for every window and
    two for every element of the first sequence it spans. *)
Definition work (queue : list (nat * nat * nat * nat)) : nat :=
  list_sum (map (fun w => 2 * (snd (fst (fst w)) - fst (fst (fst w))) + 1)%nat
                queue).

(** Windows whose lower end is not above their upper end. *)
Definition well_formed (queue : list (nat * nat * nat * nat)) : Prop :=
  Forall (fun w => fst (fst (fst w)) <= snd (fst (fst w)))%nat queue.

End Spec.

(* ================================================================== *)
(** * Sample records                                                   *)
(* ================================================================== *)

Module Sample.

(** A record of [intelligent_dedupe.py] as [load_agents] builds it for a
    file without header. *)
Definition plain (file stem text : string) (score : Z) : Dedupe.Agent :=
  {| Dedupe.path := file; Dedupe.name := stem; Dedupe.content := text;
     Dedupe.yaml_data := Yaml.empty; Dedupe.quality_score := score;
     Dedupe.content_length := Z.of_nat (String.length text);
     Dedupe.has_yaml := false; Dedupe.has_tools := false;
     Dedupe.has_structure := Py.contains "##" text;
     Dedupe.has_examples := false; Dedupe.source_repo := "" |}.

Definition code_reviewer : Dedupe.Agent :=
  plain "agents/code-reviewer.md" "code-reviewer" "You review pull requests." 5.

Definition code_writer : Dedupe.Agent :=
  plain "agents/code-writer.md" "code-writer" "Implement the feature." 5.

Definition python_pro : Dedupe.Agent :=
  plain "agents/python-pro.md" "python-pro" "You are a Python professional." 5.

Definition python_expert : Dedupe.Agent :=
  plain "agents/python-expert.md" "python-expert" "Expert in Python typing." 10.

Definition rust_engineer : Dedupe.Agent :=
  plain "agents/rust-engineer.md" "rust-engineer" "Owns the borrow checker." 10.

Definition expert : Dedupe.Agent :=
  plain "agents/expert.md" "expert" "Answers hard questions." 3.

(** Three variants with scores 40, 55 and 55, in this order. *)
Definition variant_a : Dedupe.Agent :=
  plain "agents/01/api-designer.md" "api-designer" "Designs APIs." 40.

Definition variant_b : Dedupe.Agent :=
  plain "agents/02/api-designer.md" "api-designer" "Designs REST APIs." 55.

Definition variant_c : Dedupe.Agent :=
  plain "agents/03/api-designer.md" "api-designer" "Designs web APIs." 55.

(** A record of [collect_agents.py] with a header holding its name and
    description. *)
Definition described (stem desc text : string) : Collector.Agent :=
  {| Collector.original_path := "temp_repo/" ++ stem ++ ".md";
     Collector.source_repo := "repo";
     Collector.name := stem; Collector.description := desc;
     Collector.content := text; Collector.content_hash := "";
     Collector.yaml_frontmatter :=
       Yaml.VMap [("name", Yaml.VStr stem); ("description", Yaml.VStr desc)];
     Collector.tools := Yaml.VSeq [];
     Collector.category := ""; Collector.subcategory := "";
     Collector.agent_id := 0; Collector.quality_score := 0 |}.

Definition django_orm_expert : Collector.Agent :=
  described "django-orm-expert" "Tunes queries against postgres."
            "You are an ORM specialist.".

Definition note_taker : Collector.Agent :=
  described "note-taker" "Keeps minutes." "You take notes.".

(** A text with a code fence. *)
Definition shell_helper : Dedupe.Agent :=
  plain "agents/shell-helper.md" "shell-helper" "Run ```ls``` first." 0.

(** Two files with the same body, the first below a rule of six
    hyphens. *)
Definition ruled_file : Dedupe.File :=
  {| Dedupe.f_path := "agents/core/review/ruled.md";
     Dedupe.f_stem := "ruled";
     Dedupe.f_parts := ["agents"; "core"; "review"; "ruled.md"];
     Dedupe.f_text := "------" ++ String "010"%char "Review code." |}.

Definition bare_file : Dedupe.File :=
  {| Dedupe.f_path := "agents/core/audit/bare.md";
     Dedupe.f_stem := "bare";
     Dedupe.f_parts := ["agents"; "core"; "audit"; "bare.md"];
     Dedupe.f_text := "Review code." |}.

(** A file with the body of [bare_file] below a header block that gives
    a name. *)
Definition framed_file : Dedupe.File :=
  {| Dedupe.f_path := "agents/core/review/framed.md";
     Dedupe.f_stem := "framed";
     Dedupe.f_parts := ["agents"; "core"; "review"; "framed.md"];
     Dedupe.f_text :=
       "---" ++ String "010"%char
         ("name: x" ++ String "010"%char
            ("---" ++ String "010"%char "Review code.")) |}.

(** What [yaml.safe_load] answers on the header of [framed_file], taken
    with or without the line ends around it; on every other text this
    loader fails. *)
Definition header_parse (s : string) : option Yaml.value :=
  if (s =? "name: x") ||
     (s =? String "010"%char ("name: x" ++ String "010"%char ""))%string
  then Some (Yaml.VMap [("name", Yaml.VStr "x")])
  else None.

(** Descriptions of 102 and of 13 characters. *)
Definition long_description : string :=
  "Reviews every pull request for correctness, style, security and test coverage before it can be merged.".

Definition short_description : string := "Reviews code.".

(** A record of [intelligent_dedupe.py] with a header holding a
    description. *)
Definition headed (desc : string) : Dedupe.Agent :=
  {| Dedupe.path := "agents/reviewer.md"; Dedupe.name := "reviewer";
     Dedupe.content := "You are a reviewer.";
     Dedupe.yaml_data :=
       Yaml.VMap [("name", Yaml.VStr "reviewer");
                  ("description", Yaml.VStr desc)];
     Dedupe.quality_score := 0; Dedupe.content_length := 19;
     Dedupe.has_yaml := true; Dedupe.has_tools := false;
     Dedupe.has_structure := false; Dedupe.has_examples := false;
     Dedupe.source_repo := "" |}.

End Sample.

(** [list.sort(key=...)]: ascending by key, elements with equal keys keep
    their relative order.  [ltb] is the strict order of the keys. *)
Section StableSortBy.
Context {A K : Type} (ltb : K -> K -> bool) (key : A -> K).

Fixpoint insert_asc (x : A) (l : list A) : list A :=
  match l with
  | [] => [x]
  | y :: l' => if ltb (key y) (key x) then y :: insert_asc x l' else x :: l
  end.

Definition sort_asc (l : list A) : list A := fold_right insert_asc [] l.
End StableSortBy.

(* ================================================================== *)
(** * Text primitives of the writers                                   *)
(* ================================================================== *)

Module Text.

(** [str(n)] for a natural number. *)
Definition str_nat (n : nat) : string :=
  DecimalString.NilEmpty.string_of_uint (Nat.to_uint n).

Fixpoint zeros (n : nat) : string :=
  match n with
  | O => EmptyString
  | S n' => String "0" (zeros n')
  end.

(** [f"{i:03d}"]: the decimal digits, padded with zeros to three
    characters. *)
Definition format_03d (i : nat) : string :=
  (zeros (3 - String.length (str_nat i)) ++ str_nat i)%string.

Definition is_upper (c : ascii) : bool :=
  let n := nat_of_ascii c in (65 <=? n)%nat && (n <=? 90)%nat.

(** [\w] on ASCII text: letters, digits and the underscore. *)
Definition is_word (c : ascii) : bool :=
  Re.is_lower c || is_upper c || Re.is_digit c || Ascii.eqb c "_".

(** [re.sub(r'[^\w...]', '_', s)], where [extra] lists the characters
    named in the class besides [\w]: the class matches one character, so
    every character outside it is replaced by an underscore. *)
Fixpoint sub_non_word (extra : string) (s : string) : string :=
  match s with
  | EmptyString => EmptyString
  | String c s' =>
      String (if is_word c || Re.mem_char c extra then c else "_"%char)
             (sub_non_word extra s')
  end.

(** [any(w in text for w in words)]. *)
Definition any_in (words : list string) (text : string) : bool :=
  existsb (fun w => Py.contains w text) words.

End Text.

(* ================================================================== *)
(** * [intelligent_dedupe.py]: writing the collection                  *)
(* ================================================================== *)

Module Saver.

Import Dedupe.

(** The chain of tests on the lowercased name: the first test that
    holds decides, and [("specialized", "general")] is kept when none
    does. *)
Definition categorize (name_lower : string) : string * string :=
  (* Language detection *)
  if Text.any_in ["python"; "py"; "django"; "flask"; "fastapi"] name_lower
  then ("languages", "python")
  else if Text.any_in ["javascript"; "js"; "node"; "react"; "vue"] name_lower
  then ("languages", "javascript")
  else if Text.any_in ["typescript"; "ts"] name_lower
  then ("languages", "typescript")
  else if Text.any_in ["rust"; "cargo"] name_lower
  then ("languages", "rust")
  else if Text.any_in ["go"; "golang"] name_lower
  then ("languages", "go")
  else if Text.any_in ["java"; "spring"] name_lower
  then ("languages", "java")
  else if Text.any_in ["ruby"; "rails"] name_lower
  then ("languages", "ruby")
  else if Text.any_in ["php"; "laravel"] name_lower
  then ("languages", "php")
  else if Text.any_in ["csharp"; "c#"; "dotnet"] name_lower
  then ("languages", "csharp")
  (* Task detection *)
  else if Text.any_in ["test"; "qa"; "jest"; "pytest"] name_lower
  then ("tasks", "testing")
  else if Text.any_in ["debug"; "fix"; "troubleshoot"] name_lower
  then ("tasks", "debugging")
  else if Text.any_in ["refactor"; "optimize"; "clean"] name_lower
  then ("tasks", "refactoring")
  else if Text.any_in ["security"; "audit"; "vulnerability"] name_lower
  then ("tasks", "security")
  else if Text.any_in ["deploy"; "ci"; "cd"; "docker"] name_lower
  then ("tasks", "deployment")
  else if Text.any_in ["document"; "docs"; "readme"] name_lower
  then ("tasks", "documentation")
  else ("specialized", "general").

(** An entry of [saved_agents]. *)
Record saved_agent := {
  s_id : nat;
  s_name : string;
  s_category : string;
  s_subcategory : string;
  s_path : string;
  s_quality_score : Z
}.

(** A file written below the output directory [agents]: the two
    directories joined by [cat_dir], the file name and the text. *)
Record written := {
  w_category : string;
  w_subcategory : string;
  w_filename : string;
  w_text : string
}.

(** The body of the loop for the agent numbered [i]. *)
Definition save_agent (i : nat) (agent : Agent) : saved_agent * written :=
  let name_lower := Py.lower (name agent) in
  let '(category, subcategory) := categorize name_lower in
  let clean_name := Text.sub_non_word "-" (name agent) in
  let filename :=
    (Text.format_03d i ++ "_" ++ clean_name ++ ".md")%string in
  ({| s_id := i;
      s_name := name agent;
      s_category := category;
      s_subcategory := subcategory;
      s_path := category ++ "/" ++ subcategory ++ "/" ++ filename;
      s_quality_score := quality_score agent |},
   {| w_category := category; w_subcategory := subcategory;
      w_filename := filename; w_text := content agent |}).

(** [for i, agent in enumerate(..., i)]. *)
Fixpoint save_loop (i : nat) (agents : list Agent)
  : list (saved_agent * written) :=
  match agents with
  | [] => []
  | agent :: rest => save_agent i agent :: save_loop (S i) rest
  end.

(** [deduplication_log.json]. *)
Record log_file := {
  original_count : nat;
  unique_count : nat;
  duplicate_groups_count : nat;
  decisions : list decision
}.

(** [agents-index.json]. *)
Record index_file := {
  total : nat;
  agents : list saved_agent
}.

(** What a call leaves on disk: the directory [agents] is emptied
    first, so it holds the files written by the loop, in this order; a
    file written twice under one path keeps the later text. *)
Record output := {
  o_files : list written;
  o_log : log_file;
  o_index : index_file
}.

Definition save_deduplicated_collection (st : State) : State * output :=
  (* Sort agents by name for consistent numbering *)
  let sorted :=
    sort_asc String.ltb (fun x => Py.lower (name x)) (unique_agents st) in
  let saved := save_loop 1 sorted in
  let saved_agents := map fst saved in
  ({| all_agents := all_agents st;
      duplicate_groups := duplicate_groups st;
      unique_agents := sorted;
      decision_log := decision_log st |},
   {| o_files := map snd saved;
      o_log := {| original_count := List.length (all_agents st);
                  unique_count := List.length sorted;
                  duplicate_groups_count := List.length (duplicate_groups st);
                  decisions := decision_log st |};
      o_index := {| total := List.length saved_agents;
                    agents := saved_agents |} |}).

(** [run], from the files that [rglob] lists: [None] when a step
    raises. *)
Definition run (yaml_parse : string -> option Yaml.value)
           (files : list File) : option (State * output) :=
  let st := loaded (load_agents yaml_parse files) in
  let st := find_duplicates st in
  st <- select_best_from_groups st ;;
  Some (save_deduplicated_collection st).

End Saver.

(* ================================================================== *)
(** * [collect_agents.py]: collecting, organising and indexing         *)
(* ================================================================== *)

Module Collecting.

Import Collector.

(** A file found by [glob]: its name, its stem, its path as text and
    its text. *)
Record File := {
  f_name : string;
  f_stem : string;
  f_path : string;
  f_text : string
}.

Definition skipped_names : list string :=
  ["readme"; "license"; "contributing"; ".github"; "node_modules"].

Definition markers : list string := ["You are"; "Your role"; "## "].

(** What the body of the loop does with a file: it leaves the loop
    body by [continue], it raises an exception that is reported, or it
    appends a record. *)
Inductive outcome :=
  | Skipped
  | Failed
  | Collected (agent : Agent).

Definition set_quality_score (a : Agent) (q : Z) : Agent :=
  {| original_path := original_path a; source_repo := source_repo a;
     name := name a; description := description a; content := content a;
     content_hash := content_hash a; yaml_frontmatter := yaml_frontmatter a;
     tools := tools a; category := category a; subcategory := subcategory a;
     agent_id := agent_id a; quality_score := q |}.

Definition set_category (a : Agent) (c s : string) : Agent :=
  {| original_path := original_path a; source_repo := source_repo a;
     name := name a; description := description a; content := content a;
     content_hash := content_hash a; yaml_frontmatter := yaml_frontmatter a;
     tools := tools a; category := c; subcategory := s;
     agent_id := agent_id a; quality_score := quality_score a |}.

Definition set_agent_id (a : Agent) (i : Z) : Agent :=
  {| original_path := original_path a; source_repo := source_repo a;
     name := name a; description := description a; content := content a;
     content_hash := content_hash a; yaml_frontmatter := yaml_frontmatter a;
     tools := tools a; category := category a; subcategory := subcategory a;
     agent_id := i; quality_score := quality_score a |}.

Section Collect.
Variable yaml_parse : string -> option Yaml.value.
(** [hashlib.md5(content.encode()).hexdigest()], a library outside the
    repository. *)
Variable md5_hexdigest : string -> string.

(** The body of the loop over the files of a repository.  The name and
    the description taken from the header can be any value; a value that
    is not a text makes [categorize_agent] raise at its call of
    [lower], after the score is computed, and the record is dropped. *)
Definition collect_file (repo_name : string) (file_path : File) : outcome :=
  (* Skip non-agent files *)
  if Text.any_in skipped_names (Py.lower (f_name file_path)) then Skipped
  else
    let content := f_text file_path in
    (* Extract metadata *)
    let '(yaml_frontmatter, clean_content) :=
      extract_yaml_frontmatter yaml_parse content in
    (* Determine name and description *)
    match Yaml.py_get yaml_frontmatter "name" (Yaml.VStr (f_stem file_path)),
          Yaml.py_get yaml_frontmatter "description" (Yaml.VStr ""),
          Yaml.py_get yaml_frontmatter "tools" (Yaml.VSeq []) with
    | Some name, Some description, Some tools =>
        (* Skip if doesn't look like an agent *)
        if negb (Yaml.truthy yaml_frontmatter) &&
           negb (Text.any_in markers (Py.take 200 content))
        then Skipped
        else
          match name, description with
          | Yaml.VStr name, Yaml.VStr description =>
              let agent :=
                {| original_path := f_path file_path;
                   source_repo := repo_name;
                   name := name; description := description;
                   content := content;
                   content_hash := md5_hexdigest content;
                   yaml_frontmatter := yaml_frontmatter; tools := tools;
                   category := ""; subcategory := "";
                   agent_id := 0; quality_score := 0 |} in
              (* Calculate quality score *)
              match calculate_quality_score agent with
              | Some score =>
                  let agent := set_quality_score agent score in
                  (* Categorize *)
                  let '(c, s) := categorize_agent agent in
                  Collected (set_category agent c s)
              | None => Failed
              end
          | _, _ => Failed
          end
    | _, _, _ => Failed
    end.

(** The loop over the files of one repository. *)
Fixpoint collect_loop (repo_name : string) (files : list File)
         (all_agents : list Agent) : list Agent :=
  match files with
  | [] => all_agents
  | file_path :: rest =>
      collect_loop repo_name rest
        match collect_file repo_name file_path with
        | Collected agent => all_agents ++ [agent]
        | _ => all_agents
        end
  end.

(** [collect_agents], over the repositories with their files. *)
Fixpoint collect_agents (repos : list (string * list File))
         (all_agents : list Agent) : list Agent :=
  match repos with
  | [] => all_agents
  | (repo_name, files) :: rest =>
      collect_agents rest (collect_loop repo_name files all_agents)
  end.
End Collect.

(** ** [organize_agents] *)

(** The order of the tuples [(category, subcategory, name)]. *)
Definition tuple_ltb (x y : string * string * string) : bool :=
  match String.compare (fst (fst x)) (fst (fst y)) with
  | Lt => true
  | Gt => false
  | Eq =>
      match String.compare (snd (fst x)) (snd (fst y)) with
      | Lt => true
      | Gt => false
      | Eq => String.ltb (snd x) (snd y)
      end
  end.

Definition sort_key (x : Agent) : string * string * string :=
  (category x, subcategory x, name x).

(** A file written below the directory [agents]. *)
Record written := {
  w_category : string;
  w_subcategory : string;
  w_filename : string;
  w_text : string
}.

Definition file_name (i : nat) (agent : Agent) : string :=
  let filename :=
    (Text.format_03d i ++ "-" ++ category agent ++ "-" ++ subcategory agent
       ++ "-" ++ name agent ++ ".md")%string in
  Text.sub_non_word "-." filename.

(** The body of the loop for the agent numbered [i]: the agent with its
    identifier and the file written. *)
Definition organize_agent (i : nat) (agent : Agent) : Agent * written :=
  let agent := set_agent_id agent (Z.of_nat i) in
  (agent,
   {| w_category := category agent; w_subcategory := subcategory agent;
      w_filename := file_name i agent; w_text := content agent |}).

Fixpoint organize_loop (i : nat) (agents : list Agent)
  : list (Agent * written) :=
  match agents with
  | [] => []
  | agent :: rest => organize_agent i agent :: organize_loop (S i) rest
  end.

(** [organize_agents]: the list [unique_agents] as the call leaves it,
    sorted and numbered, and the files written, in order.  The records
    are shared with [all_agents], which no later step reads. *)
Definition organize_agents (unique_agents : list Agent)
  : list Agent * list written :=
  let sorted := sort_asc tuple_ltb sort_key unique_agents in
  let organized := organize_loop 1 sorted in
  (map fst organized, map snd organized).

(** ** [create_index] *)

(** [counts[subcategory] += 1], the entry being created at 0 when it is
    missing. *)
Fixpoint count_subcategory (subcategory : string) (counts : list (string * nat))
  : list (string * nat) :=
  match counts with
  | [] => [(subcategory, 1%nat)]
  | (s, n) :: rest =>
      if s =? subcategory then (s, S n) :: rest
      else (s, n) :: count_subcategory subcategory rest
  end.

(** The same for [index["categories"][category][subcategory]]. *)
Fixpoint count_category (category subcategory : string)
         (cats : list (string * list (string * nat)))
  : list (string * list (string * nat)) :=
  match cats with
  | [] => [(category, [(subcategory, 1%nat)])]
  | (c, counts) :: rest =>
      if c =? category then (c, count_subcategory subcategory counts) :: rest
      else (c, counts) :: count_category category subcategory rest
  end.

(** The loop counting by category. *)
Fixpoint count_loop (agents : list Agent)
         (cats : list (string * list (string * nat)))
  : list (string * list (string * nat)) :=
  match agents with
  | [] => cats
  | agent :: rest =>
      count_loop rest (count_category (category agent) (subcategory agent) cats)
  end.

(** An entry of [index["agents"]]. *)
Record index_entry := {
  e_id : Z;
  e_name : string;
  e_description : string;
  e_category : string;
  e_subcategory : string;
  e_tools : Yaml.value;
  e_source : string;
  e_quality_score : Z
}.

Record index := {
  total_agents : nat;
  total_duplicates_removed : nat;
  categories_count : list (string * list (string * nat));
  agents : list index_entry
}.

Definition create_index (unique_agents duplicates : list Agent) : index :=
  {| total_agents := List.length unique_agents;
     total_duplicates_removed := List.length duplicates;
     categories_count := count_loop unique_agents [];
     agents :=
       map (fun agent =>
              {| e_id := agent_id agent; e_name := name agent;
                 e_description := description agent;
                 e_category := category agent;
                 e_subcategory := subcategory agent;
                 e_tools := tools agent; e_source := source_repo agent;
                 e_quality_score := quality_score agent |})
           unique_agents |}.

(** ** [create_readme] *)

(** The link that [create_readme] writes for the agent numbered [i]. *)
Definition readme_path (i : nat) (agent : Agent) : string :=
  let path :=
    ("agents/" ++ category agent ++ "/" ++ subcategory agent ++ "/" ++
     Text.format_03d i ++ "-" ++ category agent ++ "-" ++ subcategory agent
     ++ "-" ++ name agent ++ ".md")%string in
  Text.sub_non_word "-./" path.

(** The path, below the base directory, of the file that
    [organize_agents] writes for the agent numbered [i]. *)
Definition organized_path (i : nat) (agent : Agent) : string :=
  ("agents/" ++ category agent ++ "/" ++ subcategory agent ++ "/" ++
   file_name i agent)%string.

(** ** [run], up to the index *)

Section Run.
Variable yaml_parse : string -> option Yaml.value.
Variable md5_hexdigest : string -> string.
Variable similar : Agent -> Agent -> bool.

(** The steps of [run] that build the collection: collecting, finding
    duplicates, organising and indexing.  [None] when a step raises. *)
Definition run (repos : list (string * list File))
  : option (list written * index) :=
  let all_agents := collect_agents yaml_parse md5_hexdigest repos [] in
  st <- find_duplicates similar
          {| all_agents := all_agents; unique_agents := [];
             duplicates := [] |} ;;
  let '(unique, files) := organize_agents (unique_agents st) in
  Some (files, create_index unique (duplicates st)).
End Run.

End Collecting.

(* ================================================================== *)
(** * Further notions used to state the properties                     *)
(* ================================================================== *)

Module Notion.

(** The characters of [s] that satisfy [p], in order. *)
Fixpoint keep (p : ascii -> bool) (s : string) : string :=
  match s with
  | EmptyString => EmptyString
  | String c s' => if p c then String c (keep p s') else keep p s'
  end.

(** Every character of [s] satisfies [p]. *)
Fixpoint all (p : ascii -> bool) (s : string) : bool :=
  match s with
  | EmptyString => true
  | String c s' => p c && all p s'
  end.

(** [s] with every character that satisfies [p] replaced by [repl]. *)
Fixpoint replace (p : ascii -> bool) (repl : string) (s : string) : string :=
  match s with
  | EmptyString => EmptyString
  | String c s' =>
      if p c then repl ++ replace p repl s' else String c (replace p repl s')
  end.





(** The name as [get_semantic_key] cleans it before it tries its
    patterns. *)
Definition cleaned (name : string) : string :=
  let clean :=
    Re.re_sub (Re.Cat Re.Bol (Re.Cat (Re.Plus Re.Digit)
                                     (Re.One (Re.OneOf "-_")))) "" name in
  let clean := Re.re_sub (Re.One (Re.OneOf "-_")) " " clean in
  Py.strip (Py.lower clean).


Definition is_separator (c : ascii) : bool := Re.mem_char c "-_".




(** The number written by decimal digits, leading zeros allowed. *)
Definition read_nat (s : string) : option nat :=
  option_map Nat.of_uint (DecimalString.NilEmpty.uint_of_string s).

(** In the order of keys [y] does not come before [x]. *)
Definition not_after {A K : Type} (ltb : K -> K -> bool) (key : A -> K)
           (x y : A) : Prop :=
  ltb (key y) (key x) = false.

(** A character no substitution of the writers replaces: a word
    character, a hyphen or a dot. *)
Definition safe_char (c : ascii) : bool :=
  Text.is_word c || Re.mem_char c "-.".

(** The directories [save_deduplicated_collection] can name. *)
Definition save_dirs : list (string * string) :=
  [ ("languages", "python"); ("languages", "javascript");
    ("languages", "typescript"); ("languages", "rust"); ("languages", "go");
    ("languages", "java"); ("languages", "ruby"); ("languages", "php");
    ("languages", "csharp");
    ("tasks", "testing"); ("tasks", "debugging"); ("tasks", "refactoring");
    ("tasks", "security"); ("tasks", "deployment"); ("tasks", "documentation");
    ("specialized", "general") ].

(** The count that a dictionary of counts holds for [key]. *)
Definition count_in (key : string) (counts : list (string * nat)) : nat :=
  match find (fun e => fst e =? key) counts with
  | Some e => snd e
  | None => 0%nat
  end.

(** The count that the index holds for a category and a subcategory. *)
Definition count_of (category subcategory : string)
           (cats : list (string * list (string * nat))) : nat :=
  match find (fun e => fst e =? category) cats with
  | Some e => count_in subcategory (snd e)
  | None => 0%nat
  end.

(** The sum of all the counts of the index. *)
Definition total_count (cats : list (string * list (string * nat))) : nat :=
  list_sum (map (fun e => list_sum (map snd (snd e))) cats).

(** The record [a] is filed under the category and the subcategory. *)
Definition filed_under (category subcategory : string) (a : Collector.Agent)
  : bool :=
  (Collector.category a =? category) &&
  (Collector.subcategory a =? subcategory).

(** A match lying inside the window [blo, bhi) of the second
    sequence. *)
Definition inside_b (blo bhi : nat) (m : Difflib.Match) : Prop :=
  (blo <= Difflib.m_b m /\ Difflib.m_b m + Difflib.m_size m <= bhi)%nat.

(** Every run recorded in a row of [j2len] starts at [blo] or later. *)
Definition anchored (blo : nat) (d : list (nat * nat)) : Prop :=
  forall j k, In (j, k) d -> (blo + k <= j + 1)%nat.

(** Windows whose lower ends are not above their upper ends, in both
    sequences. *)
Definition windows_ok (queue : list (nat * nat * nat * nat)) : Prop :=
  Forall (fun w => (fst (fst (fst w)) <= snd (fst (fst w)) /\
                    snd (fst w) <= snd w)%nat) queue.

(** The elements of the first and of the second sequence that the
    windows of a queue span. *)
Definition span_a (queue : list (nat * nat * nat * nat)) : nat :=
  list_sum (map (fun w => snd (fst (fst w)) - fst (fst (fst w)))%nat queue).

Definition span_b (queue : list (nat * nat * nat * nat)) : nat :=
  list_sum (map (fun w => snd w - snd (fst w))%nat queue).

(** The elements matched by a list of blocks. *)
Definition sizes (blocks : list Difflib.Match) : nat :=
  fold_right (fun x acc => Difflib.m_size x + acc)%nat 0%nat blocks.

(** A pattern without capturing group. *)
Fixpoint groupless (r : Re.regex) : bool :=
  match r with
  | Re.Opt r1 => groupless r1
  | Re.Alt r1 r2 | Re.Cat r1 r2 => groupless r1 && groupless r2
  | Re.Group _ => false
  | _ => true
  end.

(** A pattern that begins with the group [(.+)] and has no other. *)
Definition stem_shaped (r : Re.regex) : bool :=
  match r with
  | Re.Cat (Re.Group (Re.Plus Re.Dot)) rest => groupless rest
  | _ => false
  end.

(** The patterns of the first five groups, those that capture a stem. *)
Definition suffix_patterns : list Re.regex :=
  List.concat (firstn 5 Dedupe.duplicate_patterns).

(** A character that a semantic key can hold: no hyphen, no underscore,
    no ASCII capital. *)
Definition key_char (c : ascii) : bool :=
  negb (is_separator c) && negb (Text.is_upper c).

(** The pairs of category and subcategory that the classifier of
    [collect_agents.py] can return. *)
Definition taxonomy_dirs : list (string * string) :=
  ("specialized", "general") ::
  map (fun e => (fst (fst e), snd (fst e))) (Spec.entries Collector.categories).

(** A text without slash. *)
Definition no_slash (s : string) : bool :=
  all (fun c => negb (Ascii.eqb c "/")) s.

(** The words that [save_deduplicated_collection] takes for the sign of
    a language, and those it takes for the sign of a task. *)
Definition language_words : list string :=
  ["python"; "py"; "django"; "flask"; "fastapi";
   "javascript"; "js"; "node"; "react"; "vue";
   "typescript"; "ts"; "rust"; "cargo"; "go"; "golang"; "java"; "spring";
   "ruby"; "rails"; "php"; "laravel"; "csharp"; "c#"; "dotnet"].

Definition task_words : list string :=
  ["test"; "qa"; "jest"; "pytest"; "debug"; "fix"; "troubleshoot";
   "refactor"; "optimize"; "clean"; "security"; "audit"; "vulnerability";
   "deploy"; "ci"; "cd"; "docker"; "document"; "docs"; "readme"].

(** A value that is a text. *)
Definition is_text (v : Yaml.value) : bool :=
  match v with
  | Yaml.VStr _ => true
  | _ => false
  end.

(** The decision logged for a sorted group [s] and its head [best]. *)
Definition logged_for (s : list Dedupe.Agent)
           (e : Dedupe.Agent * Dedupe.decision) : Prop :=
  exists rejected,
    s = fst e :: rejected /\
    Dedupe.d_group (snd e) = Dedupe.get_semantic_key (Dedupe.name (fst e)) /\
    Dedupe.d_selected (snd e) = Dedupe.name (fst e) /\
    Dedupe.d_score (snd e) = Dedupe.quality_score (fst e) /\
    Dedupe.d_rejected (snd e) = map Dedupe.name rejected.

(** What the resolver makes of the group [g]: sorting it puts [best]
    first, and [best] is the earliest record of [g] with the greatest
    key, the one that a scan from the left keeping the first strictly
    greater key finds; the sorted group is a rearrangement of [g] in
    descending order in which the records of equal key keep their
    order. *)
Definition resolved {A : Type} (key : A -> Z) (g : list A) (best : A)
  : Prop :=
  exists rejected,
    sort_desc key g = best :: rejected /\
    Spec.earliest_max key g best /\
    (forall first later,
        g = first :: later -> best = Spec.first_max_from key first later) /\
    Permutation (best :: rejected) g /\
    Spec.descending key (best :: rejected) /\
    (forall v, Spec.with_key key v (best :: rejected) =
               Spec.with_key key v g).

(** The records of the sorted group after its first. *)
Definition rejected_of {A : Type} (key : A -> Z) (g : list A) : list A :=
  tl (sort_desc key g).

(** An ASCII character. *)
Definition ascii_char (c : ascii) : bool := (nat_of_ascii c <? 128)%nat.

End Notion.

(* ================================================================== *)
(** * Further sample records                                           *)
(* ================================================================== *)

Module Fixture.

Definition nl : string := String "010"%char EmptyString.

(** A text with every heading, wording and code fence that the scorer
    of [intelligent_dedupe.py] rewards, followed by 3000 digits. *)
Definition rich_text : string :=
  ("## Responsibilities" ++ nl ++ "## Guidelines" ++ nl ++
   "## Workflow" ++ nl ++ "## Examples" ++ nl ++
   "You are a reviewer; you must follow each step." ++ nl ++
   "```sh" ++ nl ++ "make check" ++ nl ++ "```" ++ nl ++
   "```sh" ++ nl ++ "make test" ++ nl ++ "```" ++ nl ++
   Text.zeros 3000)%string.

Definition rich_header : Yaml.value :=
  Yaml.VMap [("name", Yaml.VStr "reviewer");
             ("description", Yaml.VStr Sample.long_description);
             ("tools", Yaml.VSeq [Yaml.VStr "Read"; Yaml.VStr "Write";
                                  Yaml.VStr "Edit"; Yaml.VStr "Grep";
                                  Yaml.VStr "Glob"; Yaml.VStr "Bash"])].

(** A record of [intelligent_dedupe.py] that earns every point. *)
Definition full_marks : Dedupe.Agent :=
  {| Dedupe.path := "agents/voltagent/core/reviewer.md";
     Dedupe.name := "reviewer"; Dedupe.content := rich_text;
     Dedupe.yaml_data := rich_header; Dedupe.quality_score := 0;
     Dedupe.content_length := Z.of_nat (String.length rich_text);
     Dedupe.has_yaml := true; Dedupe.has_tools := true;
     Dedupe.has_structure := true; Dedupe.has_examples := false;
     Dedupe.source_repo := "voltagent" |}.

(** A record of [collect_agents.py] that earns every point. *)
Definition full_collected : Collector.Agent :=
  {| Collector.original_path := "temp_repo/reviewer.md";
     Collector.source_repo := "repo";
     Collector.name := "reviewer";
     Collector.description := Sample.long_description;
     Collector.content :=
       ("### Steps and process" ++ nl ++ rich_text)%string;
     Collector.content_hash := "";
     Collector.yaml_frontmatter := rich_header;
     Collector.tools := Yaml.VSeq [];
     Collector.category := ""; Collector.subcategory := "";
     Collector.agent_id := 0; Collector.quality_score := 0 |}.

(** Two files without header: the first holds a marker, the second
    the same words in lowercase. *)
Definition marked_file : Collecting.File :=
  {| Collecting.f_name := "helper.md"; Collecting.f_stem := "helper";
     Collecting.f_path := "temp_repo/agents/helper.md";
     Collecting.f_text := "You are a careful helper." |}.

Definition unmarked_file : Collecting.File :=
  {| Collecting.f_name := "notes.md"; Collecting.f_stem := "notes";
     Collecting.f_path := "temp_repo/agents/notes.md";
     Collecting.f_text := "you are reading my notes." |}.

(** The record collected from [marked_file]. *)
Definition helper : Collector.Agent :=
  {| Collector.original_path := "temp_repo/agents/helper.md";
     Collector.source_repo := "repo";
     Collector.name := "helper"; Collector.description := "";
     Collector.content := "You are a careful helper.";
     Collector.content_hash := "";
     Collector.yaml_frontmatter := Yaml.empty;
     Collector.tools := Yaml.VSeq [];
     Collector.category := "specialized"; Collector.subcategory := "general";
     Collector.agent_id := 0; Collector.quality_score := 0 |}.

(** A record whose name holds a slash. *)
Definition pipeline_helper : Collector.Agent :=
  {| Collector.original_path := "temp_repo/agents/pipeline.md";
     Collector.source_repo := "repo";
     Collector.name := "ci/cd-helper"; Collector.description := "";
     Collector.content := "You are a release engineer.";
     Collector.content_hash := "";
     Collector.yaml_frontmatter :=
       Yaml.VMap [("name", Yaml.VStr "ci/cd-helper")];
     Collector.tools := Yaml.VSeq [];
     Collector.category := "tasks"; Collector.subcategory := "deployment";
     Collector.agent_id := 3; Collector.quality_score := 15 |}.

(** A file whose header leaves its description empty. *)
Definition undescribed_file : Dedupe.File :=
  {| Dedupe.f_path := "agents/core/review/undescribed.md";
     Dedupe.f_stem := "undescribed";
     Dedupe.f_parts := ["agents"; "core"; "review"; "undescribed.md"];
     Dedupe.f_text :=
       ("---" ++ nl ++ "name: x" ++ nl ++ "description:" ++ nl ++
        "---" ++ nl ++ "You are a reviewer.")%string |}.

(** What [yaml.safe_load] answers on the header of [undescribed_file]
    and on that of [numbered_file]; on every other text this loader
    fails. *)
Definition toy_parse (s : string) : option Yaml.value :=
  if (s =? nl ++ "name: x" ++ nl ++ "description:" ++ nl)%string
  then Some (Yaml.VMap [("name", Yaml.VStr "x"); ("description", Yaml.VNull)])
  else if s =? " name: 7 "
  then Some (Yaml.VMap [("name", Yaml.VInt 7)])
  else None.

(** A file whose header gives a number for a name. *)
Definition numbered_file : Collecting.File :=
  {| Collecting.f_name := "seven.md"; Collecting.f_stem := "seven";
     Collecting.f_path := "temp_repo/agents/seven.md";
     Collecting.f_text := "--- name: 7 --- You are agent seven." |}.

End Fixture.

(* ================================================================== *)
(** * Properties                                                       *)
(* ================================================================== *)

(** ** Termination of the matching-block search *)

Section MatchingBlocks.
Import Difflib.
Import Spec.

Variables a b : seq.

Lemma j2len_prev_bounded (bound : nat) (d : list (nat * nat)) (j : nat) :
  bounded bound d -> (j2len_prev d j <= bound)%nat.
Proof.
  intro H. destruct j as [|j]; simpl; [lia|].
  induction d as [|[j' k] d IH]; simpl; [lia|].
  destruct (j =? j')%nat.
  - apply (H j' k). now left.
  - apply IH. intros j0 k0 Hin. apply (H j0 k0). now right.
Qed.

Lemma inner_loop_inside (alo ahi i blo bhi : nat) (js : list nat)
      (j2len : list (nat * nat)) :
  (alo <= i < ahi)%nat ->
  bounded (i - alo) j2len ->
  forall newj2len best,
    bounded (S i - alo) newj2len -> inside alo ahi best ->
    bounded (S i - alo) (fst (inner_loop i blo bhi js j2len newj2len best)) /\
    inside alo ahi (snd (inner_loop i blo bhi js j2len newj2len best)).
Proof.
  intros Hi Hold. induction js as [|j js IH]; intros newj2len best Hnew Hbest.
  - simpl. auto.
  - cbn [inner_loop]. destruct (j <? blo)%nat; [now apply IH|].
    destruct (bhi <=? j)%nat; [simpl; auto|].
    pose proof (j2len_prev_bounded _ _ j Hold) as Hk.
    apply IH.
    + intros j0 k0 [E|Hin]; [|now apply (Hnew j0 k0)].
      injection E as _ <-. lia.
    + destruct (m_size best <? j2len_prev j2len j + 1)%nat; [|exact Hbest].
      unfold inside. simpl. lia.
Qed.

Lemma outer_loop_inside (alo ahi blo bhi : nat) (n : nat) :
  forall i j2len best,
    (alo <= i)%nat -> (i + n <= ahi)%nat ->
    bounded (i - alo) j2len -> inside alo ahi best ->
    inside alo ahi (outer_loop a b blo bhi (List.seq i n) j2len best).
Proof.
  induction n as [|n IH]; intros i j2len best Hlo Hhi Hd Hbest;
    [exact Hbest|].
  cbn [List.seq outer_loop].
  assert (Hi : (alo <= i < ahi)%nat) by lia.
  assert (Hnil : bounded (S i - alo) []) by (intros ? ? []).
  destruct (inner_loop_inside alo ahi i blo bhi
              (b2j_get b (nth i a "000"%char)) j2len Hi Hd
              [] best Hnil Hbest) as [Hd' Hbest'].
  destruct (inner_loop i blo bhi _ j2len [] best) as [newj2len best'].
  apply IH; try lia; assumption.
Qed.

Lemma extend_left_inside (alo ahi blo fuel : nat) (best : Match) :
  inside alo ahi best -> inside alo ahi (extend_left a b alo blo fuel best).
Proof.
  revert best. induction fuel as [|fuel IH]; intros best H; [exact H|].
  cbn [extend_left].
  destruct ((alo <? m_a best)%nat && (blo <? m_b best)%nat && _) eqn:E;
    [|exact H].
  apply andb_true_iff in E as [E _]. apply andb_true_iff in E as [E _].
  apply Nat.ltb_lt in E. apply IH. unfold inside in *. simpl. lia.
Qed.

Lemma extend_right_inside (alo ahi bhi fuel : nat) (best : Match) :
  inside alo ahi best -> inside alo ahi (extend_right a b ahi bhi fuel best).
Proof.
  revert best. induction fuel as [|fuel IH]; intros best H; [exact H|].
  cbn [extend_right].
  destruct ((m_a best + m_size best <? ahi)%nat && _ && _) eqn:E; [|exact H].
  apply andb_true_iff in E as [E _]. apply andb_true_iff in E as [E _].
  apply Nat.ltb_lt in E. apply IH. unfold inside in *. simpl. lia.
Qed.

(** The longest match found in a window lies inside it. *)
Lemma find_longest_match_inside (alo ahi blo bhi : nat) :
  (alo <= ahi)%nat ->
  inside alo ahi (find_longest_match a b alo ahi blo bhi).
Proof.
  intro H. unfold find_longest_match.
  apply extend_right_inside, extend_left_inside, outer_loop_inside;
    try lia.
  - intros j k [].
  - unfold inside. simpl. lia.
Qed.

Lemma blocks_loop_returns (fuel : nat) :
  forall queue matching_blocks,
    well_formed queue -> (work queue <= fuel)%nat ->
    exists blocks, blocks_loop a b fuel queue matching_blocks = Some blocks.
Proof.
  induction fuel as [|fuel IH]; intros queue acc Hwf Hfuel.
  - destruct queue as [|[[[alo ahi] blo] bhi] queue]; [simpl; eauto|].
    unfold work in Hfuel. simpl in Hfuel. lia.
  - destruct queue as [|[[[alo ahi] blo] bhi] queue]; [simpl; eauto|].
    inversion Hwf as [|? ? Hw Hq]; subst. simpl in Hw.
    unfold work in Hfuel. cbn [map list_sum fold_right fst snd] in Hfuel.
    fold (list_sum (map (fun w => 2 * (snd (fst (fst w)) -
                                       fst (fst (fst w))) + 1)%nat queue))
      in Hfuel.
    fold (work queue) in Hfuel.
    pose proof (find_longest_match_inside alo ahi blo bhi Hw) as [Hlo Hhi].
    cbn [blocks_loop].
    set (x := find_longest_match a b alo ahi blo bhi) in *.
    destruct (m_size x =? 0)%nat eqn:Ek.
    + apply IH; [exact Hq|lia].
    + apply Nat.eqb_neq in Ek. apply IH.
      * destruct ((alo <? m_a x)%nat && (blo <? m_b x)%nat) eqn:E1,
          ((m_a x + m_size x <? ahi)%nat && (m_b x + m_size x <? bhi)%nat)
            eqn:E2; repeat constructor; simpl; try lia; exact Hq.
      * destruct ((alo <? m_a x)%nat && (blo <? m_b x)%nat) eqn:E1,
          ((m_a x + m_size x <? ahi)%nat && (m_b x + m_size x <? bhi)%nat)
            eqn:E2; unfold work; cbn [map list_sum fold_right fst snd];
          fold (list_sum (map (fun w => 2 * (snd (fst (fst w)) -
                                             fst (fst (fst w))) + 1)%nat
                              queue));
          fold (work queue); lia.
Qed.

(** The fuel given by [get_matching_blocks] is enough: the search for
    matching blocks always ends with a list of blocks. *)
Theorem blocks_loop_terminates :
  exists blocks,
    blocks_loop a b (2 * List.length a + 1)
                [(0, List.length a, 0, List.length b)]%nat [] = Some blocks.
Proof.
  apply blocks_loop_returns.
  - repeat constructor. simpl. lia.
  - unfold work. simpl. lia.
Qed.
End MatchingBlocks.

(** ** The similarity engine *)

Section SimilarityFacts.
Import Dedupe Signal.

(** The verdict is the disjunction of the four tests. *)
Lemma is_duplicate_or (a1 a2 : Agent) :
  is_duplicate a1 a2 =
  same_key a1 a2 || fuzzy_name a1 a2 || fuzzy_content a1 a2 || same_stem a1 a2.
Proof.
  unfold is_duplicate, same_key, fuzzy_name, fuzzy_content, same_stem.
  destruct (get_semantic_key (name a1) =? get_semantic_key (name a2));
    destruct (Difflib.Qgtb _ (7 # 10)%Q);
    destruct (Difflib.Qgtb _ (8 # 10)%Q);
    destruct (_ && _); reflexivity.
Qed.

Lemma Qgtb_iff (x y : Q) : Difflib.Qgtb x y = true <-> (y < x)%Q.
Proof.
  unfold Difflib.Qgtb. rewrite negb_true_iff.
  split; intro H.
  - apply Qnot_le_lt. intro Hle. apply Qle_bool_iff in Hle. congruence.
  - destruct (Qle_bool x y) eqn:E; [|reflexivity].
    apply Qle_bool_iff in E. exfalso. exact (Qlt_not_le _ _ H E).
Qed.

Lemma not_alnum_stripped (c : ascii) :
  Spec.is_alnum c = false ->
  Re.in_class Re.NotLowerAlnum (Py.lower_char c) = true.
Proof.
  destruct c as [[] [] [] [] [] [] [] []]; vm_compute; congruence.
Qed.

Lemma sub_loop_no_alnum (s : string) :
  Spec.no_alnum s = true ->
  forall pos, Re.sub_loop (Re.One Re.NotLowerAlnum) "" pos 0 (Py.lower s) = "".
Proof.
  induction s as [|c s IH]; intros H pos; [reflexivity|].
  simpl in H. apply andb_true_iff in H as [Hc Hs].
  apply negb_true_iff in Hc.
  cbn [Py.lower Re.sub_loop]. unfold Re.match_at. cbn [Re.rmatch].
  rewrite (not_alnum_stripped _ Hc). cbn [Re.m_end].
  replace (pos <? S pos)%nat with true by (symmetry; apply Nat.ltb_lt; lia).
  replace (S pos - pos - 1)%nat with 0%nat by lia.
  cbn [append]. apply IH, Hs.
Qed.

Lemma clean_no_alnum (s : string) :
  Spec.no_alnum s = true ->
  Re.re_sub (Re.One Re.NotLowerAlnum) "" (Py.lower s) = "".
Proof. intro H. apply sub_loop_no_alnum, H. Qed.

Lemma contains_empty (s : string) : Py.contains "" s = true.
Proof. destruct s; reflexivity. Qed.

(** C10.  When one of two display names has no alphanumeric character,
    its cleaned form is empty, [name_similarity] returns 0.9 whatever
    the other name is, 0.9 exceeds the threshold 0.7, and the verdict
    on two records bearing these names is "duplicate", in either
    order. *)
Theorem name_without_alnum_is_duplicate (name1 name2 : string) :
  Spec.no_alnum name1 = true \/ Spec.no_alnum name2 = true ->
  (Spec.no_alnum name1 = true ->
   Re.re_sub (Re.One Re.NotLowerAlnum) "" (Py.lower name1) = "") /\
  name_similarity name1 name2 = (9 # 10)%Q /\
  Difflib.Qgtb (name_similarity name1 name2) (7 # 10)%Q = true /\
  forall a1 a2 : Agent,
    name a1 = name1 -> name a2 = name2 ->
    fuzzy_name a1 a2 = true /\ is_duplicate a1 a2 = true.
Proof.
  intro H.
  assert (Hsim : name_similarity name1 name2 = (9 # 10)%Q).
  { unfold name_similarity.
    destruct H as [H|H]; rewrite (clean_no_alnum _ H), contains_empty.
    - reflexivity.
    - rewrite orb_true_r. reflexivity. }
  split; [apply clean_no_alnum|].
  split; [exact Hsim|].
  split; [rewrite Hsim; reflexivity|].
  intros a1 a2 E1 E2.
  assert (Hf : fuzzy_name a1 a2 = true).
  { unfold fuzzy_name. rewrite E1, E2, Hsim. reflexivity. }
  split; [exact Hf|].
  rewrite is_duplicate_or, Hf.
  destruct (same_key a1 a2); reflexivity.
Qed.
End SimilarityFacts.

Section SymmetryFacts.
Import Dedupe Signal.

Lemma same_key_sym (a b : Agent) : same_key a b = same_key b a.
Proof. apply String.eqb_sym. Qed.

Lemma same_stem_sym (a b : Agent) : same_stem a b = same_stem b a.
Proof.
  unfold same_stem.
  rewrite (String.eqb_sym (Re.re_sub role_suffix "" (Py.lower (name b)))).
  destruct (_ =? Re.re_sub role_suffix "" (Py.lower (name b))) eqn:E;
    [|reflexivity].
  apply String.eqb_eq in E. rewrite E. reflexivity.
Qed.

(** C5, as the code has it.  Equality of semantic keys, the substring
    rule and equality of suffix-stripped names do not depend on the
    order of the two records; the verdict does not either on every
    pair for which each of the two sequence-similarity ratios (of the
    cleaned names, of the lowercased content prefixes) falls on the
    same side of its threshold in both orders. *)
Theorem is_duplicate_symmetric_when_ratios_are (a b : Agent) :
  let clean n := Re.re_sub (Re.One Re.NotLowerAlnum) "" (Py.lower n) in
  let snippet c := Py.lower (Py.take 500 c) in
  same_key a b = same_key b a /\
  same_stem a b = same_stem b a /\
  ((Py.contains (clean (name a)) (clean (name b)) ||
    Py.contains (clean (name b)) (clean (name a))) = true ->
   name_similarity (name a) (name b) = (9 # 10)%Q /\
   name_similarity (name b) (name a) = (9 # 10)%Q) /\
  (Difflib.Qgtb (Difflib.ratio_str (clean (name a)) (clean (name b)))
                (7 # 10)%Q =
   Difflib.Qgtb (Difflib.ratio_str (clean (name b)) (clean (name a)))
                (7 # 10)%Q ->
   Difflib.Qgtb (Difflib.ratio_str (snippet (content a)) (snippet (content b)))
                (8 # 10)%Q =
   Difflib.Qgtb (Difflib.ratio_str (snippet (content b)) (snippet (content a)))
                (8 # 10)%Q ->
   fuzzy_name a b = fuzzy_name b a /\
   fuzzy_content a b = fuzzy_content b a /\
   is_duplicate a b = is_duplicate b a).
Proof.
  intros clean snippet.
  split; [apply same_key_sym|]. split; [apply same_stem_sym|].
  split.
  - intro H. unfold name_similarity. fold (clean (name a)) (clean (name b)).
    rewrite (orb_comm (Py.contains (clean (name b)) _)), H. auto.
  - intros Hn Hc.
    assert (Fn : fuzzy_name a b = fuzzy_name b a).
    { unfold fuzzy_name, name_similarity.
      fold (clean (name a)) (clean (name b)).
      rewrite (orb_comm (Py.contains (clean (name b)) _)).
      destruct (_ || _); [reflexivity|]. exact Hn. }
    assert (Fc : fuzzy_content a b = fuzzy_content b a).
    { unfold fuzzy_content, content_similarity. exact Hc. }
    repeat split; try assumption.
    rewrite !is_duplicate_or, Fn, Fc, (same_key_sym a b), (same_stem_sym a b).
    reflexivity.
Qed.

(** C5 fails as stated: the library ratio depends on the order of its
    arguments, and so does the verdict on these two records. *)
Lemma is_duplicate_order_dependent :
  is_duplicate Sample.code_reviewer Sample.code_writer = true /\
  is_duplicate Sample.code_writer Sample.code_reviewer = false /\
  fuzzy_name Sample.code_reviewer Sample.code_writer = true /\
  fuzzy_name Sample.code_writer Sample.code_reviewer = false.
Proof. vm_compute. repeat split. Qed.

Lemma is_duplicate_symmetric_when_ratios_are_witness :
  is_duplicate Sample.python_pro Sample.python_expert =
  is_duplicate Sample.python_expert Sample.python_pro.
Proof.
  apply (is_duplicate_symmetric_when_ratios_are
           Sample.python_pro Sample.python_expert);
    vm_compute; reflexivity.
Defined.
End SymmetryFacts.

(** ** The stable descending sort and the group resolver *)

Section SortFacts.
Context {A : Type} (key : A -> Z).

Lemma insert_desc_perm (x : A) (l : list A) :
  Permutation (insert_desc key x l) (x :: l).
Proof.
  induction l as [|y l IH]; simpl; [reflexivity|].
  destruct (key x <? key y)%Z; [|reflexivity].
  rewrite IH. apply perm_swap.
Qed.

Lemma sort_desc_perm (l : list A) : Permutation (sort_desc key l) l.
Proof.
  induction l as [|x l IH]; simpl; [reflexivity|].
  rewrite insert_desc_perm. now constructor.
Qed.

Lemma insert_desc_sorted (x : A) (l : list A) :
  Spec.descending key l -> Spec.descending key (insert_desc key x l).
Proof.
  unfold Spec.descending.
  induction l as [|y l IH]; intro H; simpl.
  - repeat constructor.
  - inversion H as [|? ? Hl Hy]; subst.
    destruct (key x <? key y)%Z eqn:E.
    + apply Z.ltb_lt in E. constructor; [apply IH, Hl|].
      rewrite Forall_forall in *. intros z Hz.
      apply (Permutation_in _ (insert_desc_perm x l)) in Hz.
      destruct Hz as [<-|Hz]; [lia|auto].
    + apply Z.ltb_ge in E. constructor; [exact H|].
      constructor; [exact E|].
      rewrite Forall_forall in *. intros z Hz. specialize (Hy z Hz). lia.
Qed.

Lemma sort_desc_sorted (l : list A) : Spec.descending key (sort_desc key l).
Proof.
  induction l as [|x l IH]; simpl; [constructor|].
  apply insert_desc_sorted, IH.
Qed.

(** Stability: inserting [x] puts it before the elements with its own
    key and leaves the order of the others alone. *)
Lemma insert_desc_with_key (v : Z) (x : A) (l : list A) :
  Spec.descending key l ->
  Spec.with_key key v (insert_desc key x l) = Spec.with_key key v (x :: l).
Proof.
  unfold Spec.descending, Spec.with_key.
  induction l as [|y l IH]; intro H; [reflexivity|].
  inversion H as [|? ? Hl Hy]; subst. simpl.
  destruct (key x <? key y)%Z eqn:E; [|reflexivity].
  apply Z.ltb_lt in E. simpl. rewrite (IH Hl). simpl.
  destruct (key y =? v)%Z eqn:Ey, (key x =? v)%Z eqn:Ex; try reflexivity.
  apply Z.eqb_eq in Ey, Ex. lia.
Qed.

Lemma sort_desc_stable (v : Z) (l : list A) :
  Spec.with_key key v (sort_desc key l) = Spec.with_key key v l.
Proof.
  induction l as [|x l IH]; [reflexivity|]. simpl sort_desc.
  rewrite insert_desc_with_key by apply sort_desc_sorted.
  unfold Spec.with_key in *. simpl. rewrite IH. reflexivity.
Qed.

(** The head of the sorted list is the earliest maximum. *)
Lemma sort_desc_head (l : list A) :
  l <> [] ->
  exists best rejected,
    sort_desc key l = best :: rejected /\ Spec.earliest_max key l best.
Proof.
  induction l as [|x l IH]; intro Hne; [congruence|].
  destruct l as [|y l'].
  - exists x, []. split; [reflexivity|].
    exists [], []. repeat split; intros ? [].
  - destruct IH as (b & rej & Hs & pre & post & Hl & Hpre & Hpost);
      [congruence|].
    simpl sort_desc in *. rewrite Hs. simpl.
    destruct (key x <? key b)%Z eqn:E.
    + apply Z.ltb_lt in E. exists b, (insert_desc key x rej).
      split; [reflexivity|].
      exists (x :: pre), post. rewrite Hl. repeat split; auto.
      intros z [<-|Hz]; auto.
    + apply Z.ltb_ge in E. exists x, (b :: rej). split; [reflexivity|].
      exists [], (y :: l'). repeat split; [intros ? []|].
      intros z Hz. rewrite Hl in Hz. apply in_app_or in Hz.
      destruct Hz as [Hz|[<-|Hz]]; [specialize (Hpre z Hz)| |
                                    specialize (Hpost z Hz)]; lia.
Qed.

Lemma first_max_from_keep (c : A) (l : list A) :
  (forall x, In x l -> (key x <= key c)%Z) ->
  Spec.first_max_from key c l = c.
Proof.
  revert c. induction l as [|x l IH]; intros c H; [reflexivity|]. simpl.
  replace (key c <? key x)%Z with false.
  - apply IH. intros; apply H; now right.
  - symmetry. apply Z.ltb_ge, H. now left.
Qed.

Lemma first_max_from_later (c b : A) (pre post : list A) :
  (key c < key b)%Z ->
  (forall x, In x pre -> (key x < key b)%Z) ->
  (forall x, In x post -> (key x <= key b)%Z) ->
  Spec.first_max_from key c (pre ++ b :: post) = b.
Proof.
  revert c. induction pre as [|y pre IH]; intros c Hc Hpre Hpost; simpl.
  - replace (key c <? key b)%Z with true by (symmetry; now apply Z.ltb_lt).
    now apply first_max_from_keep.
  - apply IH; auto.
    + destruct (key c <? key y)%Z; [apply Hpre; now left|exact Hc].
    + intros; apply Hpre; now right.
Qed.

(** The earliest maximum is what a left-to-right scan keeping the
    first strictly greater key finds. *)
Lemma earliest_max_scan (x : A) (l : list A) (best : A) :
  Spec.earliest_max key (x :: l) best ->
  best = Spec.first_max_from key x l.
Proof.
  intros (pre & post & E & Hpre & Hpost).
  destruct pre as [|y pre]; simpl in E; injection E as -> ->.
  - symmetry. now apply first_max_from_keep.
  - symmetry. apply first_max_from_later; auto.
    + apply Hpre. now left.
    + intros; apply Hpre; now right.
Qed.
End SortFacts.

(** ** The classifier *)

Section ClassifierFacts.
Import Collector.

Variables name_lower desc_lower content_lower : string.

Abbreviation entry_score :=
  (Spec.entry_score name_lower desc_lower content_lower).
Abbreviation challenge := (Spec.challenge name_lower desc_lower content_lower).

Lemma keyword_score_ge (kws : list string) (s : Z) :
  (s <= keyword_score kws name_lower desc_lower content_lower s)%Z.
Proof.
  revert s. induction kws as [|k kws IH]; intro s; simpl; [lia|].
  eapply Z.le_trans; [|apply IH].
  destruct (Py.contains k name_lower), (Py.contains k desc_lower),
    (Py.contains k content_lower); lia.
Qed.

Lemma entry_score_nonneg e : (0 <= entry_score e)%Z.
Proof. apply keyword_score_ge. Qed.

Lemma subcategory_loop_fold (category : string) subs (b : best) :
  subcategory_loop category subs name_lower desc_lower content_lower b =
  fold_left challenge (map (fun s => (category, fst s, snd s)) subs) b.
Proof.
  revert b. induction subs as [|[sub kws] subs IH]; intro b; [reflexivity|].
  simpl. destruct b as [[bc bs] bscore]. rewrite IH. reflexivity.
Qed.

Lemma category_loop_fold cats (b : best) :
  category_loop cats name_lower desc_lower content_lower b =
  fold_left challenge (Spec.entries cats) b.
Proof.
  revert b. induction cats as [|[category subs] cats IH]; intro b;
    [reflexivity|].
  simpl. rewrite IH, subcategory_loop_fold.
  unfold Spec.entries. simpl. rewrite fold_left_app. reflexivity.
Qed.

Lemma fold_challenge_keep es (b : best) :
  (forall e, In e es -> (entry_score e <= snd b)%Z) ->
  fold_left challenge es b = b.
Proof.
  revert b. induction es as [|e es IH]; intros b H; [reflexivity|]. simpl.
  unfold Spec.challenge at 2.
  replace (snd b <? entry_score e)%Z with false.
  - apply IH. intros; apply H; now right.
  - symmetry. apply Z.ltb_ge, H. now left.
Qed.

Lemma fold_challenge_win pre e post (b : best) :
  (snd b < entry_score e)%Z ->
  (forall x, In x pre -> (entry_score x < entry_score e)%Z) ->
  (forall x, In x post -> (entry_score x <= entry_score e)%Z) ->
  fold_left challenge (pre ++ e :: post) b =
  (fst (fst e), snd (fst e), entry_score e).
Proof.
  revert b. induction pre as [|y pre IH]; intros b Hb Hpre Hpost; simpl.
  - unfold Spec.challenge at 2.
    replace (snd b <? entry_score e)%Z with true
      by (symmetry; now apply Z.ltb_lt).
    now apply fold_challenge_keep.
  - apply IH; auto.
    + unfold Spec.challenge. destruct (snd b <? entry_score y)%Z; simpl; auto.
      apply Hpre. now left.
    + intros; apply Hpre; now right.
Qed.

(** The loops return the default when no entry scores, and otherwise
    the earliest entry of greatest score. *)
Lemma category_loop_spec cats :
  ((forall e, In e (Spec.entries cats) -> entry_score e = 0%Z) ->
   category_loop cats name_lower desc_lower content_lower
                 ("specialized", "general", 0%Z) =
   ("specialized", "general", 0%Z)) /\
  (forall e, Spec.earliest_max entry_score (Spec.entries cats) e ->
             (0 < entry_score e)%Z ->
             category_loop cats name_lower desc_lower content_lower
                           ("specialized", "general", 0%Z) =
             (fst (fst e), snd (fst e), entry_score e)).
Proof.
  split.
  - intro H. rewrite category_loop_fold. apply fold_challenge_keep.
    intros e He. rewrite (H e He). simpl. lia.
  - intros e (pre & post & E & Hpre & Hpost) Hpos.
    rewrite category_loop_fold, E. now apply fold_challenge_win.
Qed.
End ClassifierFacts.

Section ClassifierTheorem.
Import Collector.

Lemma entry_eq_dec (x y : string * string * list string) : {x = y} + {x <> y}.
Proof. repeat decide equality. Qed.

(** The classifier over any non-empty taxonomy. *)
Lemma categorize_with_spec cats (agent : Agent) :
  Spec.entries cats <> [] ->
  let score :=
    Spec.entry_score (Py.lower (name agent)) (Py.lower (description agent))
                     (Py.lower (Py.take 1000 (content agent))) in
  let pair (e : string * string * list string) := (fst (fst e), snd (fst e)) in
  (forall e, (0 <= score e)%Z) /\
  ((forall e, In e (Spec.entries cats) -> score e = 0%Z) ->
   categorize_with cats agent = ("specialized", "general")) /\
  (forall e, Spec.earliest_max score (Spec.entries cats) e ->
             (0 < score e)%Z -> categorize_with cats agent = pair e) /\
  (forall e, In e (Spec.entries cats) ->
             (forall e', In e' (Spec.entries cats) -> e' <> e ->
                         (score e' < score e)%Z) ->
             (0 < score e)%Z -> categorize_with cats agent = pair e) /\
  (exists e, Spec.earliest_max score (Spec.entries cats) e).
Proof.
  intros Hne score pair.
  destruct (category_loop_spec (Py.lower (name agent))
              (Py.lower (description agent))
              (Py.lower (Py.take 1000 (content agent))) cats)
    as [Hzero Hmax].
  fold score in Hzero, Hmax.
  assert (Hex : exists e, Spec.earliest_max score (Spec.entries cats) e).
  { destruct (sort_desc_head score (Spec.entries cats) Hne)
      as (e & _ & _ & He). now exists e. }
  assert (Hfirst : forall e,
             Spec.earliest_max score (Spec.entries cats) e ->
             (0 < score e)%Z -> categorize_with cats agent = pair e).
  { intros e He Hpos. unfold categorize_with.
    rewrite (Hmax e He Hpos). reflexivity. }
  split; [intro e; apply entry_score_nonneg|].
  split; [|split; [exact Hfirst|split; [|exact Hex]]].
  - intro H. unfold categorize_with. rewrite (Hzero H). reflexivity.
  - intros e He Hstrict Hpos.
    destruct Hex as (b & Hb).
    assert (b = e) as <-; [|now apply Hfirst].
    destruct (entry_eq_dec b e) as [E|N]; [exact E|exfalso].
    destruct Hb as (pre & post & E & Hpre & Hpost).
    assert (Hlt : (score b < score e)%Z).
    { apply Hstrict; [|exact N]. rewrite E.
      apply in_or_app. right. now left. }
    assert (In e (pre ++ b :: post)) as Hin by (rewrite <- E; exact He).
    apply in_app_or in Hin.
    destruct Hin as [Hin|[Hin|Hin]];
      [specialize (Hpre e Hin)|congruence|specialize (Hpost e Hin)]; lia.
Qed.

Lemma categories_nonempty : Spec.entries categories <> [].
Proof.
  intro H. apply (f_equal (@List.length _)) in H.
  vm_compute in H. discriminate.
Qed.

(** C4.  With [score] the accumulated weighted keyword score of a
    taxonomy entry for the record: scores are never negative; when every
    entry scores zero the classifier returns the default pair
    ("specialized", "general"); otherwise it returns the pair of the
    earliest entry, in declaration order, among those of greatest score,
    which is in particular the entry of strictly greatest score when
    there is one.  An entry of greatest score always exists, so one of
    the two cases applies. *)
Theorem classifier_returns_first_highest (agent : Agent) :
  let score :=
    Spec.entry_score (Py.lower (name agent)) (Py.lower (description agent))
                     (Py.lower (Py.take 1000 (content agent))) in
  let pair (e : string * string * list string) := (fst (fst e), snd (fst e)) in
  (forall e, (0 <= score e)%Z) /\
  ((forall e, In e (Spec.entries categories) -> score e = 0%Z) ->
   categorize_agent agent = ("specialized", "general")) /\
  (forall e, Spec.earliest_max score (Spec.entries categories) e ->
             (0 < score e)%Z -> categorize_agent agent = pair e) /\
  (forall e, In e (Spec.entries categories) ->
             (forall e', In e' (Spec.entries categories) -> e' <> e ->
                         (score e' < score e)%Z) ->
             (0 < score e)%Z -> categorize_agent agent = pair e) /\
  (exists e, Spec.earliest_max score (Spec.entries categories) e).
Proof.
  exact (categorize_with_spec categories agent categories_nonempty).
Qed.
End ClassifierTheorem.

Lemma classifier_returns_first_highest_witness :
  Collector.categorize_agent Sample.note_taker = ("specialized", "general") /\
  Collector.categorize_agent Sample.django_orm_expert = ("languages", "python").
Proof.
  split.
  - apply (classifier_returns_first_highest Sample.note_taker).
    intros e He. vm_compute in He.
    repeat (destruct He as [<-|He]; [vm_compute; reflexivity|]).
    destruct He.
  - apply (proj1 (proj2 (proj2
             (classifier_returns_first_highest Sample.django_orm_expert)))
             ("languages", "python",
              ["python"; "py"; "pip"; "django"; "flask"; "fastapi"])).
    + exists [], (tl (Spec.entries Collector.categories)).
      split; [reflexivity|]. split; [intros x []|].
      intros x Hx. vm_compute in Hx.
      repeat (destruct Hx as [<-|Hx]; [vm_compute; discriminate|]).
      destruct Hx.
    + vm_compute. reflexivity.
Defined.

(** ** The document parser *)

Section ParserFacts.
Local Open Scope string_scope.

Lemma append_empty_r (s : string) : s ++ "" = s.
Proof. induction s as [|c s IH]; simpl; [reflexivity|now rewrite IH]. Qed.

Lemma append_assoc (s t u : string) : (s ++ t) ++ u = s ++ (t ++ u).
Proof. induction s as [|c s IH]; simpl; [reflexivity|now rewrite IH]. Qed.

Lemma startswith_app (p s t : string) :
  Py.startswith p s = true -> Py.startswith p (s ++ t) = true.
Proof.
  revert s. induction p as [|a p IH]; intros s H; [reflexivity|].
  destruct s as [|b s]; [discriminate|]. simpl in *.
  apply andb_true_iff in H as [H1 H2]. rewrite H1. simpl. now apply IH.
Qed.

(** Once no split is left the rest of the text is one part. *)
Lemma split_loop_exhausted (sep cur s : string) :
  Py.split_loop sep 0 0 cur s = [cur ++ s].
Proof.
  revert cur. induction s as [|c s IH]; intro cur; simpl.
  - now rewrite append_empty_r.
  - rewrite IH, append_assoc. reflexivity.
Qed.

(** A text without the separator is one part. *)
Lemma split_loop_absent (sep : string) (m : nat) (cur s : string) :
  Py.contains sep s = false ->
  Py.split_loop sep m 0 cur s = [cur ++ s].
Proof.
  revert cur. induction s as [|c s IH]; intros cur H; simpl.
  - now rewrite append_empty_r.
  - cbn [Py.contains] in H. apply orb_false_iff in H as [H1 H2].
    rewrite H1. destruct m; rewrite (IH _ H2), append_assoc; reflexivity.
Qed.

Lemma startswith_hyphens (s : string) :
  Py.startswith "---" s = true -> s = "---" ++ Py.drop 3 s.
Proof.
  destruct s as [|a [|b [|c s]]]; cbn [Py.startswith]; try discriminate;
    rewrite ?andb_false_r; try discriminate.
  intro H. apply andb_true_iff in H as [Ha H].
  apply andb_true_iff in H as [Hb H]. apply andb_true_iff in H as [Hc _].
  apply Ascii.eqb_eq in Ha, Hb, Hc. subst. reflexivity.
Qed.

(** The first occurrence of the separator ends the current part; with
    one split left, what follows it is the last part. *)
Lemma split_loop_first (s : string) :
  Py.contains "---" s = true ->
  exists p1 p2,
    s = p1 ++ "---" ++ p2 /\
    Py.contains "---" (p1 ++ "--") = false /\
    forall cur, Py.split_loop "---" 1 0 cur s = [cur ++ p1; p2].
Proof.
  induction s as [|c s IH]; intro H; [discriminate|].
  destruct (Py.startswith "---" (String c s)) eqn:E.
  - exists "", (Py.drop 3 (String c s)).
    split; [now apply startswith_hyphens|]. split; [reflexivity|].
    intro cur. cbn [Py.split_loop]. rewrite E.
    destruct s as [|b [|d s]]; cbn [Py.startswith] in E;
      rewrite ?andb_false_r in E; try discriminate.
    cbn [String.length Nat.sub Py.split_loop Py.drop].
    now rewrite split_loop_exhausted, append_empty_r.
  - cbn [Py.contains] in H. rewrite E in H. simpl in H.
    destruct (IH H) as (p1 & p2 & Hs & Hmin & Hsplit).
    exists (String c p1), p2. split; [simpl; f_equal; exact Hs|]. split.
    + cbn [append Py.contains]. rewrite Hmin, orb_false_r.
      destruct (Py.startswith "---" (String c (p1 ++ "--"))) eqn:E'; auto.
      assert (Hx : String c s = String c (p1 ++ "--") ++ ("-" ++ p2)).
      { rewrite Hs. simpl. f_equal. rewrite append_assoc. reflexivity. }
      rewrite Hx, (startswith_app _ _ _ E') in E. discriminate.
    + intro cur. cbn [Py.split_loop]. rewrite E, Hsplit, append_assoc.
      reflexivity.
Qed.

Variable yaml_parse : string -> option Yaml.value.

(** C9, as the code has it.  The parser returns the empty mapping and the
    text unchanged unless the text starts with three hyphens and three
    hyphens occur again after them, wherever they stand.  In that case
    the text between the two occurrences is given to the loader and what
    follows the second one is the body: a loader failure falls back to
    the empty mapping and the unchanged text, a success yields the parsed
    header (the empty mapping in place of an empty one) and the stripped
    body.  Every failure of the loader is absorbed: the parser always
    returns.  Both scripts define the same parser. *)
Theorem parser_falls_back (content : string) :
  (Py.startswith "---" content = false ->
   Dedupe.extract_yaml yaml_parse content = (Yaml.empty, content)) /\
  (Py.startswith "---" content = true ->
   Py.contains "---" (Py.drop 3 content) = false ->
   Dedupe.extract_yaml yaml_parse content = (Yaml.empty, content)) /\
  (Py.startswith "---" content = true ->
   Py.contains "---" (Py.drop 3 content) = true ->
   exists p1 p2,
     content = "---" ++ p1 ++ "---" ++ p2 /\
     Py.contains "---" (p1 ++ "--") = false /\
     Dedupe.extract_yaml yaml_parse content =
     match Dedupe.safe_load yaml_parse p1 with
     | Some header => (Yaml.or_empty header, Py.strip p2)
     | None => (Yaml.empty, content)
     end) /\
  Collector.extract_yaml_frontmatter yaml_parse content =
  Dedupe.extract_yaml yaml_parse content.
Proof.
  assert (Hsplit : Py.startswith "---" content = true ->
                   Py.split "---" 2 content =
                   "" :: Py.split_loop "---" 1 0 "" (Py.drop 3 content)).
  { intro H. unfold Py.split.
    destruct content as [|a [|b [|c s]]]; cbn [Py.startswith] in H;
      rewrite ?andb_false_r in H; try discriminate.
    cbn [Py.split_loop Py.startswith]. rewrite H. reflexivity. }
  split; [|split; [|split]].
  - intro H. unfold Dedupe.extract_yaml. now rewrite H.
  - intros H Habs. unfold Dedupe.extract_yaml.
    rewrite H, (Hsplit H), (split_loop_absent _ _ _ _ Habs). reflexivity.
  - intros H Hocc.
    destruct (split_loop_first _ Hocc) as (p1 & p2 & Hs & Hmin & Hl).
    exists p1, p2. split; [|split; [exact Hmin|]].
    + rewrite (startswith_hyphens _ H) at 1. now rewrite Hs.
    + unfold Dedupe.extract_yaml. rewrite H, (Hsplit H), Hl. reflexivity.
  - reflexivity.
Qed.
End ParserFacts.

(** C9 fails as stated: a text whose first line is a rule of six hyphens
    does not begin with a delimiter line, yet the parser removes the
    rule and returns a body that differs from the text. *)
Lemma parser_accepts_inline_hyphens :
  let raw := ("------" ++ String "010"%char "You are a reviewer.")%string in
  Spec.delimiter_framed raw = false /\
  forall yaml_parse,
    Dedupe.extract_yaml yaml_parse raw = (Yaml.empty, "You are a reviewer.") /\
    Dedupe.extract_yaml yaml_parse raw <> (Yaml.empty, raw).
Proof.
  split; [reflexivity|]. intro yaml_parse.
  split; [reflexivity|]. vm_compute. discriminate.
Qed.

(** ** The quality scorers *)

Section ScorerFacts.
Import Dedupe.

Lemma bonus_nonneg (c : bool) (k : Z) : (0 <= k -> 0 <= bonus c k)%Z.
Proof. destruct c; simpl; lia. Qed.

Ltac bonus_bounds :=
  repeat match goal with
         | |- context [bonus ?c ?k] =>
             let H := fresh "Hb" in
             assert (H : (0 <= bonus c k)%Z) by (apply bonus_nonneg; lia);
             revert H; generalize (bonus c k); intros ? ?
         end.

Ltac split_ifs :=
  repeat match goal with
         | |- context [if ?c then _ else _] => destruct c
         end.

Ltac header_step :=
  match goal with
  | |- context [match Yaml.py_in ?k ?v with _ => _ end] =>
      destruct (Yaml.py_in k v) as [[]|]
  | |- context [match Yaml.py_get ?v ?k ?d with _ => _ end] =>
      destruct (Yaml.py_get v k d)
  | |- context [match Yaml.py_len ?v with _ => _ end] =>
      destruct (Yaml.py_len v)
  end; try discriminate.

(** The header section adds at least 5 points to a record with a header
    and nothing to one without. *)
Lemma frontmatter_points_bounds (agent : Agent) (p : Z) :
  frontmatter_points agent = Some p ->
  (if has_yaml agent then 5 <= p else p = 0)%Z.
Proof.
  unfold frontmatter_points. destruct (has_yaml agent); [|congruence].
  repeat header_step.
  all: intro H; injection H as <-; bonus_bounds; split_ifs; lia.
Qed.

(** What a call of the scorer leaves behind. *)
Lemma calculate_quality_score_inv (agent agent' : Agent) (score : Z) :
  calculate_quality_score agent = Some (score, agent') ->
  exists p,
    frontmatter_points agent = Some p /\
    (p <= score)%Z /\
    agent' = (if Spec.marks_examples agent
              then set_has_examples agent true else agent).
Proof.
  unfold calculate_quality_score.
  destruct (frontmatter_points agent) as [p|]; [|discriminate].
  cbv zeta.
  match goal with |- Some (?e, _) = _ -> _ => remember e as total eqn:Ht end.
  intro H. injection H as <- <-. exists p.
  split; [reflexivity|]. split; [|reflexivity].
  revert Ht. bonus_bounds. split_ifs; intros; lia.
Qed.

(** The score depends on the record through its header points, its
    content, its recorded length and its source only. *)
Lemma calculate_quality_score_congr (a b a' : Agent) (sa pa pb : Z) :
  content a = content b ->
  content_length a = content_length b ->
  source_repo a = source_repo b ->
  frontmatter_points a = Some pa ->
  frontmatter_points b = Some pb ->
  calculate_quality_score a = Some (sa, a') ->
  exists b', calculate_quality_score b = Some ((sa - pa + pb)%Z, b').
Proof.
  unfold calculate_quality_score. intros Ec El Er Ha Hb.
  rewrite Ha, Hb, Ec, El, Er. cbv zeta.
  match goal with |- Some (?e, _) = _ -> _ => remember e as total eqn:Ht end.
  intro H. injection H as <- _.
  eexists. f_equal. f_equal. lia.
Qed.

Lemma frontmatter_points_set_has_examples (agent : Agent) (b : bool) :
  frontmatter_points (set_has_examples agent b) = frontmatter_points agent.
Proof. reflexivity. Qed.

(** Scoring a record again gives the same score and changes nothing
    more. *)
Lemma calculate_quality_score_again (agent agent' : Agent) (score : Z) :
  calculate_quality_score agent = Some (score, agent') ->
  calculate_quality_score agent' = Some (score, agent').
Proof.
  intro H. destruct (calculate_quality_score_inv _ _ _ H) as (p & Hp & _ & Ha).
  revert H. unfold Spec.marks_examples in Ha.
  unfold calculate_quality_score. rewrite Hp.
  subst agent'.
  destruct (Py.contains "## examples" (Py.lower (content agent)) ||
            Py.contains "```" (content agent)) eqn:E.
  - rewrite frontmatter_points_set_has_examples, Hp.
    cbn [content content_length source_repo set_has_examples].
    rewrite E. intro H. injection H as <-. reflexivity.
  - rewrite Hp, E. intro H. injection H as <-. reflexivity.
Qed.

(** A header without length problems never makes the scorer raise. *)
Lemma frontmatter_points_defined (agent : Agent) :
  has_yaml agent = false \/ Spec.scorable (yaml_data agent) = true ->
  exists p, frontmatter_points agent = Some p.
Proof.
  unfold frontmatter_points. intros [H|H]; [rewrite H; eauto|].
  destruct (has_yaml agent); [|eauto].
  destruct (yaml_data agent) as [| | | | | |m]; try discriminate.
  simpl in H. apply andb_true_iff in H as [Hd Ht].
  unfold Spec.sized in Hd, Ht. cbn [Yaml.py_in Yaml.py_get].
  destruct (Yaml.lookup "description" m) as [d|];
    destruct (Yaml.lookup "tools" m) as [t|];
    try (destruct (Yaml.py_len d); [|discriminate]);
    try (destruct (Yaml.py_len t); [|discriminate]); eauto.
Qed.
End ScorerFacts.

Section ScorerTheorems.
Import Dedupe.

Lemma keyword_loop_ge (kws : list string) (text : string) (s : Z) :
  (s <= Collector.keyword_loop kws text s)%Z.
Proof.
  revert s. induction kws as [|k kws IH]; intro s; simpl; [lia|].
  eapply Z.le_trans; [|apply IH].
  assert (0 <= bonus (Py.contains (Py.lower k) (Py.lower text)) 2)%Z
    by (apply bonus_nonneg; lia).
  lia.
Qed.

Lemma some_inj {A : Type} (x y : A) : Some x = Some y -> x = y.
Proof. congruence. Qed.

Lemma collector_score_nonneg (agent : Collector.Agent) (s : Z) :
  Collector.calculate_quality_score agent = Some s -> (0 <= s)%Z.
Proof.
  unfold Collector.calculate_quality_score.
  destruct (Collector.frontmatter_points agent) as [p|] eqn:Hp;
    [|discriminate].
  assert (Hpos : (0 <= p)%Z).
  { revert Hp. unfold Collector.frontmatter_points.
    destruct (Yaml.truthy (Collector.yaml_frontmatter agent)).
    - destruct (Yaml.py_in "name" _) as [n|]; [|discriminate].
      destruct (Yaml.py_in "description" _) as [d|]; [|discriminate].
      destruct (Yaml.py_in "tools" _) as [t|]; [|discriminate].
      cbv zeta. intro H. apply some_inj in H. subst p.
      destruct n, d, t; cbv; congruence.
    - intro H. apply some_inj in H. subst p. lia. }
  cbv zeta. intro H. apply some_inj in H. subst s.
  eapply Z.le_trans; [|apply keyword_loop_ge].
  repeat match goal with
         | |- context [bonus ?c ?k] =>
             let H := fresh "Hb" in
             assert (H : (0 <= bonus c k)%Z) by (apply bonus_nonneg; lia);
             revert H; generalize (bonus c k); intros ? ?
         end.
  lia.
Qed.

(** C7, as the code has it.  On a record without header, or whose header
    is a mapping with a description and tools that have a length, the
    scorer of [intelligent_dedupe.py] returns.  Whenever it returns, the
    score is an integer that is not negative, the record is left as it
    was except for its field [has_examples], which is set when the
    content has an examples heading or a code fence, and scoring the
    record again yields the same score and the same record.  The scorer
    of [collect_agents.py] returns a score that is not negative and
    assigns nothing. *)
Theorem scorer_writes_only_has_examples (agent : Agent) :
  (has_yaml agent = false \/ Spec.scorable (yaml_data agent) = true ->
   exists score agent', calculate_quality_score agent = Some (score, agent')) /\
  (forall score agent',
      calculate_quality_score agent = Some (score, agent') ->
      (0 <= score)%Z /\
      agent' = (if Spec.marks_examples agent
                then set_has_examples agent true else agent) /\
      has_examples agent' = Spec.marks_examples agent || has_examples agent /\
      (path agent' = path agent /\ name agent' = name agent /\
       content agent' = content agent /\ yaml_data agent' = yaml_data agent /\
       quality_score agent' = quality_score agent /\
       content_length agent' = content_length agent /\
       has_yaml agent' = has_yaml agent /\ has_tools agent' = has_tools agent /\
       has_structure agent' = has_structure agent /\
       source_repo agent' = source_repo agent) /\
      calculate_quality_score agent' = Some (score, agent')) /\
  (forall (other : Collector.Agent) (s : Z),
      Collector.calculate_quality_score other = Some s -> (0 <= s)%Z).
Proof.
  split; [|split].
  - intro H. destruct (frontmatter_points_defined agent H) as (p & Hp).
    unfold calculate_quality_score. rewrite Hp. eauto.
  - intros score agent' H.
    destruct (calculate_quality_score_inv _ _ _ H) as (p & Hp & Hle & Ha).
    pose proof (frontmatter_points_bounds _ _ Hp) as Hb.
    split; [destruct (has_yaml agent); lia|].
    split; [exact Ha|].
    split; [|split; [|exact (calculate_quality_score_again _ _ _ H)]].
    + rewrite Ha. destruct (Spec.marks_examples agent); reflexivity.
    + rewrite Ha. destruct (Spec.marks_examples agent); repeat split.
  - apply collector_score_nonneg.
Qed.

(** C7 fails as stated: scoring this record, whose content has a code
    fence, assigns its field [has_examples]. *)
Lemma scorer_assigns_has_examples :
  exists score agent',
    calculate_quality_score Sample.shell_helper = Some (score, agent') /\
    has_examples Sample.shell_helper = false /\
    has_examples agent' = true /\
    agent' <> Sample.shell_helper.
Proof.
  eexists. eexists. split; [vm_compute; reflexivity|].
  split; [reflexivity|]. split; [reflexivity|]. discriminate.
Qed.

Lemma scorer_writes_only_has_examples_witness :
  (exists score agent',
      calculate_quality_score Sample.shell_helper = Some (score, agent')) /\
  (0 <= 10)%Z /\
  calculate_quality_score (set_has_examples Sample.shell_helper true) =
  Some (10%Z, set_has_examples Sample.shell_helper true).
Proof.
  destruct (scorer_writes_only_has_examples Sample.shell_helper) as (H1 & H2 & _).
  split; [apply H1; left; reflexivity|].
  assert (E : calculate_quality_score Sample.shell_helper =
              Some (10%Z, set_has_examples Sample.shell_helper true))
    by (vm_compute; reflexivity).
  destruct (H2 _ _ E) as (Hpos & _ & _ & _ & Hagain).
  split; [exact Hpos|exact Hagain].
Defined.
End ScorerTheorems.

Section DescriptionTheorem.
Import Dedupe.

Lemma lookup_nonempty (key : string) (m : list (string * Yaml.value)) v :
  Yaml.lookup key m = Some v -> Yaml.truthy (Yaml.VMap m) = true.
Proof. destruct m; [discriminate|reflexivity]. Qed.

(** The scorer of [intelligent_dedupe.py] rewards the longer of two
    descriptions. *)
Lemma description_length_bonus
      (a b : Agent) (ma mb : list (string * Yaml.value)) (da : string) :
  content a = content b ->
  content_length a = content_length b ->
  source_repo a = source_repo b ->
  yaml_data a = Yaml.VMap ma -> yaml_data b = Yaml.VMap mb ->
  has_yaml a = Yaml.truthy (yaml_data a) ->
  has_yaml b = Yaml.truthy (yaml_data b) ->
  (forall k, k <> "description" -> Yaml.lookup k ma = Yaml.lookup k mb) ->
  Spec.sized "tools" ma = true ->
  Yaml.lookup "description" ma = Some (Yaml.VStr da) ->
  (100 < String.length da)%nat ->
  Spec.short_description mb = true ->
  exists sa sb a' b',
    calculate_quality_score a = Some (sa, a') /\
    calculate_quality_score b = Some (sb, b') /\
    (sb + 5 <= sa)%Z.
Proof.
  intros Ec El Er Ya Yb Ha Hb Hagree Htools Hda Hlen Hshort.
  assert (Hname : Yaml.lookup "name" ma = Yaml.lookup "name" mb)
    by (apply Hagree; discriminate).
  assert (Htl : Yaml.lookup "tools" ma = Yaml.lookup "tools" mb)
    by (apply Hagree; discriminate).
  rewrite Ya in Ha. rewrite (lookup_nonempty _ _ _ Hda) in Ha.
  rewrite Yb in Hb.
  apply Nat.ltb_lt in Hlen.
  assert (Hpa : exists tool_pts,
             (0 <= tool_pts)%Z /\
             frontmatter_points a =
             Some (5 + bonus (match Yaml.lookup "name" ma with
                              | Some _ => true | None => false end) 5
                   + 5 + 5 + tool_pts)%Z /\
             (mb = [] \/
              exists desc_pts,
                (desc_pts <= 5)%Z /\
                frontmatter_points b =
                Some (5 + bonus (match Yaml.lookup "name" ma with
                                 | Some _ => true | None => false end) 5
                      + desc_pts + tool_pts)%Z)).
  { exists (match Yaml.lookup "tools" ma with
            | Some t =>
                match Yaml.py_len t with
                | Some n => 5 + (if (5 <? n)%nat then 5
                                 else if (2 <? n)%nat then 3 else 0)
                | None => 0
                end
            | None => 0
            end)%Z.
    unfold frontmatter_points. rewrite Ha, Hb, Ya, Yb.
    cbn [Yaml.py_in Yaml.py_get]. rewrite <- Hname, <- Htl, Hda.
    cbn [Yaml.py_len]. rewrite Hlen. cbv zeta.
    unfold Spec.sized in Htools. unfold Spec.short_description in Hshort.
    split; [|split].
    - destruct (Yaml.lookup "tools" ma) as [t|]; [|lia].
      destruct (Yaml.py_len t) as [n|]; [|lia].
      destruct (5 <? n)%nat, (2 <? n)%nat; lia.
    - destruct (Yaml.lookup "tools" ma) as [t|]; [|f_equal; ring].
      destruct (Yaml.py_len t) as [n|]; [|discriminate]. f_equal. ring.
    - destruct mb as [|entry mb']; [now left|right].
      set (mb := entry :: mb') in *.
      replace (Yaml.truthy (Yaml.VMap mb)) with true by reflexivity.
      exists (match Yaml.lookup "description" mb with
              | Some _ => 5 | None => 0 end)%Z.
      split; [destruct (Yaml.lookup "description" mb); lia|].
      destruct (Yaml.lookup "description" mb) as [[| | | |db| |]|];
        try discriminate.
      + cbn [Yaml.py_len].
        replace (100 <? String.length db)%nat with false
          by (symmetry; apply Nat.ltb_ge; apply Nat.ltb_lt in Hshort; lia).
        replace (50 <? String.length db)%nat with false
          by (symmetry; apply Nat.ltb_ge; apply Nat.ltb_lt in Hshort; lia).
        destruct (Yaml.lookup "tools" ma) as [t|]; [|f_equal; ring].
        destruct (Yaml.py_len t) as [n|]; [|discriminate]. f_equal. ring.
      + destruct (Yaml.lookup "tools" ma) as [t|]; [|f_equal; ring].
        destruct (Yaml.py_len t) as [n|]; [|discriminate]. f_equal. ring. }
  destruct Hpa as (tp & Htp & Hpa & Hpb).
  assert (Hn : (0 <= bonus (match Yaml.lookup "name" ma with
                            | Some _ => true | None => false end) 5)%Z)
    by (apply bonus_nonneg; lia).
  assert (Hsa : exists sa a', calculate_quality_score a = Some (sa, a')).
  { unfold calculate_quality_score. rewrite Hpa. eauto. }
  destruct Hsa as (sa & a' & Hsa).
  destruct Hpb as [->|(dp & Hdp & Hpb)].
  - assert (Hpb : frontmatter_points b = Some 0%Z).
    { unfold frontmatter_points. rewrite Hb. reflexivity. }
    destruct (calculate_quality_score_congr a b a' sa _ _ Ec El Er Hpa Hpb Hsa)
      as (b' & Hsb).
    eexists sa, _, a', b'. split; [exact Hsa|]. split; [exact Hsb|]. lia.
  - destruct (calculate_quality_score_congr a b a' sa _ _ Ec El Er Hpa Hpb Hsa)
      as (b' & Hsb).
    eexists sa, _, a', b'. split; [exact Hsa|]. split; [exact Hsb|]. lia.
Qed.

(** The scorer of [collect_agents.py] reads the header through the
    presence of its keys only. *)
Lemma collector_score_ignores_description
      (c d : Collector.Agent) (mc md : list (string * Yaml.value))
      (vc vd : Yaml.value) :
  Collector.content c = Collector.content d ->
  Collector.yaml_frontmatter c = Yaml.VMap mc ->
  Collector.yaml_frontmatter d = Yaml.VMap md ->
  (forall k, k <> "description" -> Yaml.lookup k mc = Yaml.lookup k md) ->
  Yaml.lookup "description" mc = Some vc ->
  Yaml.lookup "description" md = Some vd ->
  Collector.calculate_quality_score c = Collector.calculate_quality_score d.
Proof.
  intros Ec Yc Yd Hagree Hc Hd.
  unfold Collector.calculate_quality_score, Collector.frontmatter_points.
  rewrite Ec, Yc, Yd.
  rewrite (lookup_nonempty _ _ _ Hc), (lookup_nonempty _ _ _ Hd).
  cbn [Yaml.py_in].
  rewrite (Hagree "name"), (Hagree "tools"), Hc, Hd by discriminate.
  reflexivity.
Qed.

(** C8, as the code has it.  For the scorer of [intelligent_dedupe.py],
    take two records with the same content, recorded length and source,
    whose headers are mappings that agree on every key but
    [description], the first with a description of more than 100
    characters, the second with a description of fewer than 50
    characters or none: both are scored, and the first scores at least
    5 points more than the second.  For the scorer of
    [collect_agents.py], two records with the same content whose
    headers agree on every key but [description] and both hold a
    description receive the same score, whatever the descriptions. *)
Theorem longer_description_scores_higher :
  (forall (a b : Agent) (ma mb : list (string * Yaml.value)) (da : string),
      content a = content b ->
      content_length a = content_length b ->
      source_repo a = source_repo b ->
      yaml_data a = Yaml.VMap ma -> yaml_data b = Yaml.VMap mb ->
      has_yaml a = Yaml.truthy (yaml_data a) ->
      has_yaml b = Yaml.truthy (yaml_data b) ->
      (forall k, k <> "description" -> Yaml.lookup k ma = Yaml.lookup k mb) ->
      Spec.sized "tools" ma = true ->
      Yaml.lookup "description" ma = Some (Yaml.VStr da) ->
      (100 < String.length da)%nat ->
      Spec.short_description mb = true ->
      exists sa sb a' b',
        calculate_quality_score a = Some (sa, a') /\
        calculate_quality_score b = Some (sb, b') /\
        (sb + 5 <= sa)%Z) /\
  (forall (c d : Collector.Agent) (mc md : list (string * Yaml.value))
          (vc vd : Yaml.value),
      Collector.content c = Collector.content d ->
      Collector.yaml_frontmatter c = Yaml.VMap mc ->
      Collector.yaml_frontmatter d = Yaml.VMap md ->
      (forall k, k <> "description" -> Yaml.lookup k mc = Yaml.lookup k md) ->
      Yaml.lookup "description" mc = Some vc ->
      Yaml.lookup "description" md = Some vd ->
      Collector.calculate_quality_score c =
      Collector.calculate_quality_score d).
Proof.
  split.
  - intros a b ma mb da Ec El Er Ya Yb Ha Hb Hagree Htools Hda Hlen Hshort.
    exact (description_length_bonus a b ma mb da Ec El Er Ya Yb Ha Hb
             Hagree Htools Hda Hlen Hshort).
  - intros c d mc md vc vd Ec Yc Yd Hagree Hc Hd.
    exact (collector_score_ignores_description c d mc md vc vd
             Ec Yc Yd Hagree Hc Hd).
Qed.

(** C8 fails as stated for the scorer of [collect_agents.py], which has
    no signal for the length of a description: two records that differ
    in their description only, one of more than 100 characters and one
    of fewer than 50, receive the same score. *)
Lemma collector_score_ignores_description_length :
  (100 < String.length Sample.long_description)%nat /\
  (String.length Sample.short_description < 50)%nat /\
  Collector.calculate_quality_score
    (Sample.described "reviewer" Sample.long_description "You are a reviewer.")
  = Some 20%Z /\
  Collector.calculate_quality_score
    (Sample.described "reviewer" Sample.short_description "You are a reviewer.")
  = Some 20%Z.
Proof. vm_compute. repeat split; lia. Qed.

Lemma longer_description_scores_higher_witness :
  (exists sa sb a' b',
      calculate_quality_score (Sample.headed Sample.long_description)
      = Some (sa, a') /\
      calculate_quality_score (Sample.headed Sample.short_description)
      = Some (sb, b') /\
      (sb + 5 <= sa)%Z) /\
  Collector.calculate_quality_score
    (Sample.described "reviewer" Sample.long_description "You are a reviewer.")
  = Collector.calculate_quality_score
      (Sample.described "reviewer" Sample.short_description
                        "You are a reviewer.").
Proof.
  split.
  - apply (proj1 longer_description_scores_higher
                 (Sample.headed Sample.long_description)
                 (Sample.headed Sample.short_description)
                 [("name", Yaml.VStr "reviewer");
                  ("description", Yaml.VStr Sample.long_description)]
                 [("name", Yaml.VStr "reviewer");
                  ("description", Yaml.VStr Sample.short_description)]
                 Sample.long_description); try reflexivity.
    + intros k Hk. cbn [Yaml.lookup].
      destruct ("description" =? k) eqn:E; [|reflexivity].
      apply String.eqb_eq in E. congruence.
    + vm_compute. lia.
  - apply (proj2 longer_description_scores_higher
                 (Sample.described "reviewer" Sample.long_description
                                   "You are a reviewer.")
                 (Sample.described "reviewer" Sample.short_description
                                   "You are a reviewer.")
                 [("name", Yaml.VStr "reviewer");
                  ("description", Yaml.VStr Sample.long_description)]
                 [("name", Yaml.VStr "reviewer");
                  ("description", Yaml.VStr Sample.short_description)]
                 (Yaml.VStr Sample.long_description)
                 (Yaml.VStr Sample.short_description)); try reflexivity.
    intros k Hk. cbn [Yaml.lookup].
    destruct ("description" =? k) eqn:E; [|reflexivity].
    apply String.eqb_eq in E. congruence.
Defined.
End DescriptionTheorem.

(** ** The content test of the similarity engine *)

Section ContentFacts.
Import Dedupe Signal.

Variable yaml_parse : string -> option Yaml.value.

(** A loaded record carries the text of its file, header included. *)
Lemma load_agent_content (agent_file : File) (agent : Agent) :
  load_agent yaml_parse agent_file = Some agent ->
  content agent = f_text agent_file /\
  path agent = f_path agent_file /\
  name agent = f_stem agent_file /\
  yaml_data agent = fst (extract_yaml yaml_parse (f_text agent_file)).
Proof.
  unfold load_agent.
  destruct (extract_yaml yaml_parse (f_text agent_file)) as [yd body].
  destruct (Yaml.py_in "tools" yd) as [t|]; [|discriminate].
  match goal with
  | |- context [calculate_quality_score ?x] =>
      destruct (calculate_quality_score x) as [[score scored]|] eqn:E;
      [|discriminate]
  end.
  apply calculate_quality_score_inv in E as (_ & _ & _ & ->).
  intro H. apply some_inj in H. subst agent.
  destruct (Spec.marks_examples _); repeat split.
Qed.

(** Distinct files give records with distinct paths. *)
Lemma load_agents_distinct_paths (files : list File) :
  NoDup (map f_path files) ->
  NoDup (map path (load_agents yaml_parse files)).
Proof.
  assert (Hsub : forall fs p,
             In p (map path (load_agents yaml_parse fs)) ->
             In p (map f_path fs)).
  { induction fs as [|f fs IH]; intros p Hp; [exact Hp|].
    cbn [load_agents] in Hp.
    destruct (load_agent yaml_parse f) as [agent|] eqn:E.
    - destruct Hp as [<-|Hp].
      + left. symmetry. apply (load_agent_content _ _ E).
      + right. apply IH, Hp.
    - right. apply IH, Hp. }
  induction files as [|f files IH]; intro Hnd; [constructor|].
  inversion Hnd as [|? ? Hf Hfiles]; subst. cbn [load_agents].
  destruct (load_agent yaml_parse f) as [agent|] eqn:E; [|now apply IH].
  cbn [map]. constructor; [|now apply IH].
  intro Hin. apply Hf. apply Hsub.
  destruct (load_agent_content _ _ E) as (_ & <- & _). exact Hin.
Qed.

(** C6, as the code has it.  For two loaded records the content test
    compares, case-insensitively and by sequence-similarity ratio, the
    first 500 characters of the texts of their files, header block
    included, and holds exactly when the ratio exceeds 0.8; it decides
    the verdict whenever the three tests on names fail. *)
Theorem content_test_reads_file_text (f1 f2 : File) (a1 a2 : Agent) :
  load_agent yaml_parse f1 = Some a1 ->
  load_agent yaml_parse f2 = Some a2 ->
  content a1 = f_text f1 /\ content a2 = f_text f2 /\
  (fuzzy_content a1 a2 = true <->
   (8 # 10 < Difflib.ratio_str (Py.lower (Py.take 500 (f_text f1)))
                               (Py.lower (Py.take 500 (f_text f2))))%Q) /\
  (same_key a1 a2 = false -> fuzzy_name a1 a2 = false ->
   same_stem a1 a2 = false -> is_duplicate a1 a2 = fuzzy_content a1 a2).
Proof.
  intros H1 H2.
  destruct (load_agent_content _ _ H1) as (C1 & _).
  destruct (load_agent_content _ _ H2) as (C2 & _).
  split; [exact C1|]. split; [exact C2|]. split.
  - unfold fuzzy_content, content_similarity. rewrite C1, C2.
    apply Qgtb_iff.
  - intros K N S. rewrite is_duplicate_or, K, N, S.
    destruct (fuzzy_content a1 a2); reflexivity.
Qed.
End ContentFacts.

(** C6 fails as stated.  The first file holds a header block, between
    two delimiter lines, that the loader parses, and below it the text
    of the second file.  The two bodies are the same text, so the test
    on bodies holds, with ratio 1; the content test of the code reads
    the header block with the text, finds the ratio 24/40 and fails, and
    the two records are not duplicates. *)
Lemma content_test_not_on_body :
  exists a1 a2,
    Dedupe.load_agent Sample.header_parse Sample.framed_file = Some a1 /\
    Dedupe.load_agent Sample.header_parse Sample.bare_file = Some a2 /\
    Spec.delimiter_framed (Dedupe.content a1) = true /\
    Dedupe.yaml_data a1 = Yaml.VMap [("name", Yaml.VStr "x")] /\
    Spec.body_content Sample.header_parse (Dedupe.content a1) =
    "Review code." /\
    Spec.body_content Sample.header_parse (Dedupe.content a2) =
    "Review code." /\
    Dedupe.content_similarity "Review code." "Review code." = (24 # 24)%Q /\
    Spec.fuzzy_body Sample.header_parse a1 a2 = true /\
    Dedupe.content_similarity (Dedupe.content a1) (Dedupe.content a2) =
    (24 # 40)%Q /\
    Signal.fuzzy_content a1 a2 = false /\
    Dedupe.is_duplicate a1 a2 = false.
Proof.
  eexists. eexists.
  split; [vm_compute; reflexivity|].
  split; [vm_compute; reflexivity|].
  vm_compute. repeat split.
Qed.

Lemma content_test_reads_file_text_witness :
  exists a1 a2,
    Dedupe.content a1 = Dedupe.f_text Sample.ruled_file /\
    Dedupe.content a2 = Dedupe.f_text Sample.bare_file /\
    Dedupe.is_duplicate a1 a2 = Signal.fuzzy_content a1 a2.
Proof.
  destruct (Dedupe.load_agent (fun _ => None) Sample.ruled_file)
    as [a1|] eqn:E1; [|vm_compute in E1; discriminate].
  destruct (Dedupe.load_agent (fun _ => None) Sample.bare_file)
    as [a2|] eqn:E2; [|vm_compute in E2; discriminate].
  exists a1, a2.
  destruct (content_test_reads_file_text (fun _ => None) _ _ _ _ E1 E2)
    as (C1 & C2 & _ & Hd).
  split; [exact C1|]. split; [exact C2|].
  vm_compute in E1, E2.
  apply some_inj in E1, E2. subst a1 a2.
  apply Hd; vm_compute; reflexivity.
Defined.

(** ** Grouping against seeds *)

Section SeedGroupingFacts.
Context {A : Type} (judge : A -> A -> bool).

Lemma seed_grouping_exists_bounded (n : nat) :
  forall l, (List.length l <= n)%nat ->
            exists gs, Spec.seed_grouping judge l gs.
Proof.
  induction n as [|n IH]; intros l Hl.
  - destruct l; [|simpl in Hl; lia]. exists []. constructor.
  - destruct l as [|seed rest]; [exists []; constructor|].
    destruct (IH (filter (fun r => negb (judge seed r)) rest)) as (gs & Hgs).
    { pose proof (filter_length_le (fun r => negb (judge seed r)) rest).
      simpl in Hl. lia. }
    eexists. constructor. exact Hgs.
Qed.

(** Every list has a grouping, and only one. *)
Lemma seed_grouping_exists (l : list A) :
  exists gs, Spec.seed_grouping judge l gs.
Proof. apply (seed_grouping_exists_bounded (List.length l)). lia. Qed.

Lemma seed_grouping_unique (l : list A) (gs gs' : list (list A)) :
  Spec.seed_grouping judge l gs -> Spec.seed_grouping judge l gs' -> gs = gs'.
Proof.
  intro H. revert gs'. induction H as [|seed rest groups _ IH]; intros gs' H'.
  - inversion H'. reflexivity.
  - inversion H' as [|? ? groups' Hg]; subst. f_equal. apply IH, Hg.
Qed.

Lemma filter_split_perm (p : A -> bool) (l : list A) :
  Permutation (filter p l ++ filter (fun x => negb (p x)) l) l.
Proof.
  induction l as [|x l IH]; simpl; [reflexivity|].
  destruct (p x); simpl.
  - now constructor.
  - rewrite <- Permutation_middle. now constructor.
Qed.

(** The groups hold the records of the list, each as often as the list
    does. *)
Lemma seed_grouping_perm (l : list A) (gs : list (list A)) :
  Spec.seed_grouping judge l gs -> Permutation (List.concat gs) l.
Proof.
  induction 1 as [|seed rest groups _ IH]; simpl; [reflexivity|].
  constructor. rewrite IH. apply filter_split_perm.
Qed.

Lemma seed_grouping_nonempty (l : list A) (gs : list (list A)) :
  Spec.seed_grouping judge l gs -> Forall (fun g => g <> []) gs.
Proof. induction 1; constructor; [discriminate|assumption]. Qed.

(** Only the verdicts on seeds matter. *)
Lemma seed_grouping_ext (judge' : A -> A -> bool) (l : list A)
      (gs : list (list A)) :
  Spec.seed_grouping judge l gs ->
  (forall g seed r, In g gs -> hd_error g = Some seed ->
                    judge' seed r = judge seed r) ->
  Spec.seed_grouping judge' l gs.
Proof.
  induction 1 as [|seed rest groups Hg IH]; intro Hagree; [constructor|].
  assert (E : forall r, judge' seed r = judge seed r).
  { intro r. apply (Hagree (seed :: filter (judge seed) rest)); [now left|].
    reflexivity. }
  rewrite <- (filter_ext _ _ E rest).
  constructor.
  rewrite (filter_ext _ (fun r => negb (judge seed r))
             (fun r => f_equal negb (E r))).
  apply IH. intros g s r Hin. apply Hagree. now right.
Qed.
End SeedGroupingFacts.

Section DedupeGrouping.
Import Dedupe.

Variable verdict : Agent -> Agent -> bool.

Lemma mem_app (p : string) (s t : list string) :
  mem p (s ++ t) = mem p s || mem p t.
Proof. apply existsb_app. Qed.

Lemma mem_paths (a : Agent) (l : list Agent) :
  mem (path a) (map path l) = true <-> exists b, In b l /\ path b = path a.
Proof.
  unfold mem. rewrite existsb_exists. split.
  - intros (p & Hp & E). apply in_map_iff in Hp as (b & <- & Hb).
    apply String.eqb_eq in E. eauto.
  - intros (b & Hb & E). exists (path b). split; [now apply in_map|].
    apply String.eqb_eq. congruence.
Qed.

Lemma mem_rev (p : string) (s : list string) : mem p (rev s) = mem p s.
Proof.
  destruct (mem p s) eqn:E.
  - apply existsb_exists in E as (q & Hq & Eq).
    apply existsb_exists. exists q. split; [now apply in_rev in Hq|exact Eq].
  - destruct (mem p (rev s)) eqn:E'; [|reflexivity].
    apply existsb_exists in E' as (q & Hq & Eq).
    apply in_rev in Hq.
    assert (mem p s = true) by (apply existsb_exists; eauto). congruence.
Qed.

(** Records of a list with distinct paths are told apart by their
    paths. *)
Lemma path_injective (l : list Agent) (a b : Agent) :
  NoDup (map path l) -> In a l -> In b l -> path a = path b -> a = b.
Proof.
  induction l as [|x l IH]; intros Hnd Ha Hb E; [destruct Ha|].
  inversion Hnd as [|? ? Hx Hl]; subst.
  destruct Ha as [<-|Ha], Hb as [<-|Hb]; auto.
  - exfalso. apply Hx. rewrite E. now apply in_map.
  - exfalso. apply Hx. rewrite <- E. now apply in_map.
Qed.

(** The inner loop: the records that join the group of [agent1] are the
    records of [rest] that are unprocessed and accepted against
    [agent1]; they are marked processed. *)
Lemma scan_spec (agent1 : Agent) (rest : list Agent) :
  NoDup (map path rest) ->
  forall processed current_group,
    let joined :=
      filter (fun a => Spec.unprocessed processed a && verdict agent1 a) rest in
    scan verdict agent1 rest processed current_group =
    (rev (map path joined) ++ processed, current_group ++ joined).
Proof.
  induction rest as [|a rest IH]; intros Hnd processed cg; cbv zeta.
  - simpl. now rewrite app_nil_r.
  - inversion Hnd as [|? ? Ha Hrest]; subst.
    assert (U : Spec.unprocessed processed a = negb (mem (path a) processed))
      by reflexivity.
    cbn [scan filter]. rewrite U.
    destruct (mem (path a) processed) eqn:M; cbn [negb andb];
      [exact (IH Hrest processed cg)|].
    destruct (verdict agent1 a) eqn:V; [|exact (IH Hrest processed cg)].
    rewrite (IH Hrest). cbn [map rev].
    rewrite (filter_ext_in
               (fun x => Spec.unprocessed (path a :: processed) x &&
                         verdict agent1 x)
               (fun x => Spec.unprocessed processed x && verdict agent1 x)).
    + rewrite <- !app_assoc. reflexivity.
    + intros x Hx. f_equal. unfold Spec.unprocessed, mem. simpl.
      replace (path x =? path a) with false; [reflexivity|].
      symmetry. apply String.eqb_neq. intro E. apply Ha. rewrite <- E.
      now apply in_map.
Qed.

Lemma filter_filter (p q : Agent -> bool) (l : list Agent) :
  filter q (filter p l) = filter (fun a => p a && q a) l.
Proof.
  induction l as [|x l IH]; simpl; [reflexivity|].
  destruct (p x); simpl; [destruct (q x)|]; now rewrite IH.
Qed.

(** The outer loop groups the unprocessed records against seeds and
    keeps the groups of more than one record. *)
Lemma group_loop_spec (agents : list Agent) :
  NoDup (map path agents) ->
  forall processed groups,
  exists gs,
    Spec.seed_grouping verdict (filter (Spec.unprocessed processed) agents) gs /\
    group_loop verdict agents processed groups =
    groups ++ filter Spec.multi gs.
Proof.
  induction agents as [|agent1 rest IH]; intros Hnd processed groups.
  - exists []. split; [constructor|]. simpl. now rewrite app_nil_r.
  - inversion Hnd as [|? ? H1 Hrest]; subst.
    assert (U : Spec.unprocessed processed agent1 =
                negb (mem (path agent1) processed)) by reflexivity.
    cbn [group_loop filter]. rewrite U.
    destruct (mem (path agent1) processed) eqn:M; cbn [negb];
      [exact (IH Hrest processed groups)|].
    rewrite (scan_spec agent1 rest Hrest).
    set (joined := filter (fun a => Spec.unprocessed
                                      (path agent1 :: processed) a &&
                                    verdict agent1 a) rest).
    set (remaining := filter (Spec.unprocessed processed) rest).
    assert (Hfresh : forall x, In x rest ->
                Spec.unprocessed (path agent1 :: processed) x =
                Spec.unprocessed processed x).
    { intros x Hx. unfold Spec.unprocessed, mem. simpl.
      replace (path x =? path agent1) with false; [reflexivity|].
      symmetry. apply String.eqb_neq. intro E. apply H1. rewrite <- E.
      now apply in_map. }
    assert (Hjoined : joined = filter (verdict agent1) remaining).
    { unfold joined, remaining. rewrite filter_filter.
      apply filter_ext_in. intros x Hx. now rewrite (Hfresh x Hx). }
    destruct (IH Hrest (rev (map path joined) ++ path agent1 :: processed)
                (if (1 <? List.length ([agent1] ++ joined))%nat
                 then groups ++ [[agent1] ++ joined] else groups))
      as (gs & Hgs & Hloop).
    exists ((agent1 :: joined) :: gs). split.
    + rewrite Hjoined. constructor.
      replace (filter (fun r => negb (verdict agent1 r)) remaining)
        with (filter (Spec.unprocessed
                        (rev (map path joined) ++ path agent1 :: processed))
                     rest); [exact Hgs|].
      unfold remaining. rewrite filter_filter.
      apply filter_ext_in. intros x Hx.
      unfold Spec.unprocessed at 1. rewrite mem_app, mem_rev.
      pose proof (Hfresh x Hx) as F. unfold Spec.unprocessed in F.
      apply (f_equal negb) in F. rewrite !negb_involutive in F. rewrite F.
      unfold Spec.unprocessed.
      destruct (mem (path x) processed) eqn:Ux; cbn [negb andb];
        [now rewrite orb_true_r|].
      rewrite orb_false_r. f_equal.
      destruct (verdict agent1 x) eqn:V.
      * apply mem_paths. exists x. split; [|reflexivity].
        unfold joined. apply filter_In. split; [exact Hx|].
        rewrite (Hfresh x Hx). unfold Spec.unprocessed. now rewrite Ux, V.
      * destruct (mem (path x) (map path joined)) eqn:Mj; [|reflexivity].
        apply mem_paths in Mj as (b & Hb & E).
        unfold joined in Hb. apply filter_In in Hb as [Hb Hc].
        rewrite (path_injective rest b x Hrest Hb Hx E) in Hc.
        rewrite V, andb_false_r in Hc. discriminate.
    + rewrite Hloop. simpl. unfold Spec.multi at 2. simpl.
      destruct (1 <? S (List.length joined))%nat; [|reflexivity].
      now rewrite <- app_assoc.
Qed.
End DedupeGrouping.

Section PartitionFacts.
Context {A : Type}.

Lemma Permutation_filter (p : A -> bool) (l l' : list A) :
  Permutation l l' -> Permutation (filter p l) (filter p l').
Proof.
  induction 1 as [|x l l' _ IH|x y l|l l' l'' _ IH1 _ IH2]; simpl.
  - reflexivity.
  - destruct (p x); [now constructor|exact IH].
  - destruct (p x), (p y); try reflexivity. apply perm_swap.
  - now rewrite IH1.
Qed.

Lemma concat_filter_split (p : list A -> bool) (gs : list (list A)) :
  Permutation
    (List.concat (filter (fun g => negb (p g)) gs) ++ List.concat (filter p gs))
    (List.concat gs).
Proof.
  induction gs as [|g gs IH]; simpl; [reflexivity|].
  destruct (p g); simpl.
  - rewrite Permutation_app_comm. simpl. rewrite <- app_assoc.
    apply Permutation_app_head. now rewrite Permutation_app_comm.
  - rewrite <- app_assoc. now apply Permutation_app_head.
Qed.

Lemma filter_all (p : A -> bool) (l : list A) :
  (forall x, In x l -> p x = true) -> filter p l = l.
Proof.
  induction l as [|x l IH]; intro H; simpl; [reflexivity|].
  rewrite (H x (or_introl eq_refl)). f_equal. apply IH.
  intros; apply H; now right.
Qed.

Lemma filter_none (p : A -> bool) (l : list A) :
  (forall x, In x l -> p x = false) -> filter p l = [].
Proof.
  induction l as [|x l IH]; intro H; simpl; [reflexivity|].
  rewrite (H x (or_introl eq_refl)). apply IH. intros; apply H; now right.
Qed.

(** Choosing one element in each list of a family of disjoint lists
    without repetition gives distinct elements of their union. *)
Lemma one_of_each (gs : list (list A)) (ss : list A) :
  Forall2 (fun g s => In s g) gs ss ->
  incl ss (List.concat gs) /\ (NoDup (List.concat gs) -> NoDup ss).
Proof.
  induction 1 as [|g s gs ss Hs _ [IHi IHn]]; simpl.
  - split; [intros ? []|constructor].
  - split.
    + intros x [<-|Hx]; apply in_or_app; [now left|right; now apply IHi].
    + intro Hnd. constructor.
      * intro Hin. apply IHi in Hin.
        revert Hs Hin. clear - Hnd. induction g as [|y g IH]; [intros []|].
        simpl in Hnd. inversion Hnd as [|? ? Hy Hg]; subst.
        intros [<-|Hs] Hin; [apply Hy, in_or_app; now right|].
        now apply IH.
      * apply IHn. now apply NoDup_app_remove_l in Hnd.
Qed.

Lemma nonempty_sum (gs : list (list A)) :
  Forall (fun g => g <> []) gs ->
  (List.length gs <= list_sum (map (@List.length A) gs))%nat.
Proof.
  induction 1 as [|g gs Hg _ IH]; simpl; [lia|].
  destruct g; [congruence|]. simpl. lia.
Qed.
End PartitionFacts.

Section DedupePartition.
Import Dedupe.

(** The resolver keeps one record of every group. *)
Lemma select_loop_spec (groups : list (list Agent)) :
  Forall (fun g => g <> []) groups ->
  forall unique log,
  exists sorted bests log',
    select_loop groups unique log = Some (sorted, unique ++ bests, log') /\
    Forall2 (fun g best => Spec.earliest_max quality_score g best) groups bests.
Proof.
  induction 1 as [|g groups Hg _ IH]; intros unique log.
  - exists [], [], log. split; [simpl; now rewrite app_nil_r|constructor].
  - destruct (sort_desc_head quality_score g Hg) as (best & rej & Hs & Hmax).
    destruct (IH (unique ++ [best])
                 (log ++ [{| d_group := get_semantic_key (name best);
                             d_selected := name best;
                             d_score := quality_score best;
                             d_rejected := map name rej |}]))
      as (sorted & bests & log' & Hl & Hf).
    exists ((best :: rej) :: sorted), (best :: bests), log'.
    split; [|now constructor].
    cbn [select_loop]. rewrite Hs, Hl, <- app_assoc. reflexivity.
Qed.

Lemma earliest_max_in (g : list Agent) (best : Agent) :
  Spec.earliest_max quality_score g best -> In best g.
Proof.
  intros (pre & post & -> & _). apply in_or_app. right. now left.
Qed.

Lemma unprocessed_nil (agents : list Agent) :
  filter (Spec.unprocessed []) agents = agents.
Proof. apply filter_all. reflexivity. Qed.
End DedupePartition.

Section DedupePartitionTheorem.
Import Dedupe.

(** C1.  For records with distinct paths (as [rglob] lists them), write
    [groups] for the duplicate groups found by the grouper and [uniques]
    for the records outside them, each a group of its own.  These groups
    are not empty, their concatenation is a rearrangement of the input
    without repetition, so that every record is in exactly one group and
    the sizes add up to the number of records.  The resolver returns,
    and its survivors are one record of each group, group by group; they
    are distinct records of the input and at most as many. *)
Theorem dedupe_partitions_records (agents : list Agent) :
  NoDup (map path agents) ->
  let st1 := find_duplicates (loaded agents) in
  let groups := duplicate_groups st1 in
  let uniques :=
    filter (fun a => negb (mem (path a) (map path (List.concat groups))))
           agents in
  let all_groups := map (fun a => [a]) uniques ++ groups in
  Forall (fun g => g <> []) all_groups /\
  Permutation (List.concat all_groups) agents /\
  NoDup (List.concat all_groups) /\
  list_sum (map (@List.length Agent) all_groups) = List.length agents /\
  exists st2,
    select_best_from_groups st1 = Some st2 /\
    Forall2 (fun g survivor => In survivor g) all_groups (unique_agents st2) /\
    List.length (unique_agents st2) = List.length all_groups /\
    incl (unique_agents st2) agents /\
    NoDup (unique_agents st2) /\
    (List.length (unique_agents st2) <= List.length agents)%nat.
Proof.
  intros Hnd st1 groups uniques all_groups.
  assert (Hnda : NoDup agents) by (eapply NoDup_map_inv; exact Hnd).
  destruct (group_loop_spec is_duplicate agents Hnd [] [])
    as (gs & Hgs & Hloop).
  rewrite unprocessed_nil in Hgs. simpl in Hloop.
  assert (Hgroups : groups = filter Spec.multi gs) by exact Hloop.
  pose proof (seed_grouping_perm _ _ _ Hgs) as Hperm.
  pose proof (concat_filter_split Spec.multi gs) as Hsplit.
  rewrite <- Hgroups in Hsplit.
  set (singles := List.concat (filter (fun g => negb (Spec.multi g)) gs))
    in *.
  assert (Hall : Permutation (singles ++ List.concat groups) agents)
    by (now rewrite Hsplit).
  assert (Hnd2 : NoDup (singles ++ List.concat groups))
    by (apply (Permutation_NoDup (Permutation_sym Hall)), Hnda).
  (* the records outside the groups are the records of the single groups *)
  assert (Hin : forall a, In a agents ->
              mem (path a) (map path (List.concat groups)) = true <->
              In a (List.concat groups)).
  { intros a Ha. rewrite mem_paths. split.
    - intros (b & Hb & E).
      assert (In b agents)
        by (apply (Permutation_in _ Hall), in_or_app; now right).
      now rewrite <- (path_injective agents b a Hnd).
    - intro Hg. now exists a. }
  assert (Huniq : Permutation uniques singles).
  { unfold uniques.
    rewrite <- (Permutation_filter _ _ _ Hall), filter_app.
    rewrite (filter_all _ singles), (filter_none _ (List.concat groups)).
    - now rewrite app_nil_r.
    - intros x Hx. apply negb_false_iff, Hin; [|exact Hx].
      apply (Permutation_in _ Hall), in_or_app. now right.
    - intros x Hx. apply negb_true_iff.
      destruct (mem (path x) (map path (List.concat groups))) eqn:M;
        [|reflexivity].
      apply Hin in M;
        [|apply (Permutation_in _ Hall), in_or_app; now left].
      exfalso. revert Hx M. clear - Hnd2.
      induction singles as [|y l IH]; [intros []|].
      simpl in Hnd2. inversion Hnd2 as [|? ? Hy Hl]; subst.
      intros [<-|Hx] M; [apply Hy, in_or_app; now right|now apply IH]. }
  assert (Hconcat : List.concat all_groups = uniques ++ List.concat groups).
  { unfold all_groups. rewrite concat_app. f_equal.
    clear. induction uniques as [|x l IH]; simpl; [reflexivity|].
    now rewrite IH. }
  assert (Hpall : Permutation (List.concat all_groups) agents).
  { rewrite Hconcat, Huniq. exact Hall. }
  assert (Hne : Forall (fun g : list Agent => g <> []) groups).
  { rewrite Hgroups. apply Forall_forall. intros g Hg.
    apply filter_In in Hg as [Hg _].
    pose proof (seed_grouping_nonempty _ _ _ Hgs) as Hn.
    rewrite Forall_forall in Hn. now apply Hn. }
  assert (Hneall : Forall (fun g : list Agent => g <> []) all_groups).
  { unfold all_groups. apply Forall_app. split; [|exact Hne].
    apply Forall_forall. intros g Hg.
    apply in_map_iff in Hg as (a & <- & _). discriminate. }
  assert (Hndall : NoDup (List.concat all_groups))
    by (apply (Permutation_NoDup (Permutation_sym Hpall)), Hnda).
  assert (Hsum : list_sum (map (@List.length Agent) all_groups) =
                 List.length agents).
  { rewrite <- length_concat. now apply Permutation_length. }
  split; [exact Hneall|]. split; [exact Hpall|]. split; [exact Hndall|].
  split; [exact Hsum|].
  destruct (select_loop_spec groups Hne uniques [])
    as (sorted & bests & log' & Hsel & Hbests).
  exists {| all_agents := agents; duplicate_groups := sorted;
            unique_agents := uniques ++ bests; decision_log := log' |}.
  assert (Hone : Forall2 (fun (g : list Agent) s => In s g) all_groups
                         (uniques ++ bests)).
  { unfold all_groups. apply Forall2_app.
    - clear. induction uniques as [|x l IH]; simpl; constructor;
        [now left|exact IH].
    - clear - Hbests. induction Hbests; constructor;
        [now apply earliest_max_in|assumption]. }
  destruct (one_of_each _ _ Hone) as [Hincl Hnodup].
  cbn [unique_agents].
  split.
  { unfold select_best_from_groups.
    change (select_loop _ _ _) with (select_loop groups uniques []).
    rewrite Hsel. reflexivity. }
  split; [exact Hone|].
  split; [symmetry; exact (Forall2_length Hone)|].
  split; [intros x Hx; apply (Permutation_in _ Hpall), Hincl, Hx|].
  split; [exact (Hnodup Hndall)|].
  rewrite <- (Forall2_length Hone), <- Hsum. now apply nonempty_sum.
Qed.
End DedupePartitionTheorem.

Section CollectorGrouping.
Import Collector.

Variable similar : Agent -> Agent -> bool.

Abbreviation judge := (Spec.against_seed similar).

(** Placing one more record extends the grouping of the records placed
    so far. *)
Lemma place_spec (x : Agent) (l : list Agent) (gs : list (list Agent)) :
  Spec.seed_grouping judge l gs ->
  exists gs', place similar x gs = Some gs' /\
              Spec.seed_grouping judge (l ++ [x]) gs'.
Proof.
  induction 1 as [|seed rest groups Hg (gs' & Hp & Hs)]; simpl.
  - exists [[x]]. split; [reflexivity|].
    apply (Spec.sg_seed judge x [] []). constructor.
  - assert (Jx : Spec.against_seed similar seed x = similar x seed)
      by reflexivity.
    destruct (similar x seed) eqn:E.
    + eexists. split; [reflexivity|].
      assert (Hj : filter (judge seed) rest ++ [x] =
                   filter (judge seed) (rest ++ [x])).
      { rewrite filter_app. cbn [filter]. now rewrite Jx. }
      cbn [app]. rewrite Hj. constructor.
      rewrite filter_app. cbn [filter]. rewrite Jx. cbn [negb].
      now rewrite app_nil_r.
    + rewrite Hp. eexists. split; [reflexivity|].
      assert (Hj : filter (judge seed) rest =
                   filter (judge seed) (rest ++ [x])).
      { rewrite filter_app. cbn [filter]. rewrite Jx. now rewrite app_nil_r. }
      rewrite Hj. constructor.
      rewrite filter_app. cbn [filter]. rewrite Jx. exact Hs.
Qed.

Lemma collector_group_loop_spec (rest : list Agent) :
  forall placed groups,
    Spec.seed_grouping judge placed groups ->
    exists gs, group_loop similar rest groups = Some gs /\
               Spec.seed_grouping judge (placed ++ rest) gs.
Proof.
  induction rest as [|x rest IH]; intros placed groups H; simpl.
  - exists groups. split; [reflexivity|]. now rewrite app_nil_r.
  - destruct (place_spec x _ _ H) as (gs' & Hp & Hs). rewrite Hp.
    destruct (IH _ _ Hs) as (gs & Hl & Hgs).
    exists gs. split; [exact Hl|]. now rewrite <- app_assoc in Hgs.
Qed.
End CollectorGrouping.

Section CollectorJoin.
Import Collector.

Variable similar : Agent -> Agent -> bool.

(** A record joins the first group whose seed it resembles, and opens a
    group when it resembles no seed. *)
Lemma place_joins (x : Agent) (gs : list (list Agent)) :
  (forall pre g post seed,
      gs = pre ++ g :: post ->
      Forall (fun g' => g' <> []) pre ->
      hd_error g = Some seed -> similar x seed = true ->
      (forall g' s', In g' pre -> hd_error g' = Some s' ->
                     similar x s' = false) ->
      place similar x gs = Some (pre ++ (g ++ [x]) :: post)) /\
  (Forall (fun g' => g' <> []) gs ->
   (forall g s, In g gs -> hd_error g = Some s -> similar x s = false) ->
   place similar x gs = Some (gs ++ [[x]])).
Proof.
  split.
  - intros pre. revert gs.
    induction pre as [|g0 pre IH]; intros gs g post seed -> Hne Hhd Hsim Hpre.
    + destruct g as [|s g]; [discriminate|]. injection Hhd as ->.
      simpl. now rewrite Hsim.
    + inversion Hne as [|? ? Hg0 Hne']; subst.
      destruct g0 as [|s0 g0]; [congruence|]. cbn [app place].
      rewrite (Hpre (s0 :: g0) s0 (or_introl eq_refl) eq_refl).
      rewrite (IH _ g post seed eq_refl Hne' Hhd Hsim); [reflexivity|].
      intros g' s' Hin. apply Hpre. now right.
  - induction gs as [|g gs IH]; intros Hne Hnone; [reflexivity|].
    inversion Hne as [|? ? Hg Hne']; subst.
    destruct g as [|s g]; [congruence|]. cbn [app place].
    rewrite (Hnone (s :: g) s (or_introl eq_refl) eq_refl).
    rewrite IH; [reflexivity|exact Hne'|].
    intros g' s' Hin. apply Hnone. now right.
Qed.
End CollectorJoin.

Section SeedTheorem.

(** C2.  In [intelligent_dedupe.py] the inner loop for a seed lets a
    record of the remaining list join the group exactly when it is
    unprocessed and the similarity engine accepts it against the seed;
    the groups found are those of the grouping against seeds, restricted
    to the groups of several records; and the result is the same for any
    other verdict that agrees with the engine on the pairs whose first
    record is a seed, so that no comparison with another member counts.
    In [collect_agents.py] a record joins the first group whose seed it
    resembles and opens a group otherwise, and the groups are again
    those of the grouping against seeds. *)
Theorem grouping_tests_seeds_only :
  (forall (agent1 : Dedupe.Agent) rest processed,
      NoDup (map Dedupe.path rest) ->
      exists joined,
        Dedupe.scan Dedupe.is_duplicate agent1 rest processed [agent1] =
        (rev (map Dedupe.path joined) ++ processed, agent1 :: joined) /\
        forall r, In r joined <->
                  In r rest /\ Spec.unprocessed processed r = true /\
                  Dedupe.is_duplicate agent1 r = true) /\
  (forall agents,
      NoDup (map Dedupe.path agents) ->
      exists gs,
        Spec.seed_grouping Dedupe.is_duplicate agents gs /\
        Dedupe.duplicate_groups (Dedupe.find_duplicates (Dedupe.loaded agents))
        = filter Spec.multi gs /\
        forall verdict',
          (forall g seed r, In g gs -> hd_error g = Some seed ->
                            verdict' seed r = Dedupe.is_duplicate seed r) ->
          Dedupe.group_loop verdict' agents [] [] =
          Dedupe.group_loop Dedupe.is_duplicate agents [] []) /\
  (forall similar (x : Collector.Agent) gs,
      (forall pre g post seed,
          gs = pre ++ g :: post ->
          Forall (fun g' => g' <> []) pre ->
          hd_error g = Some seed -> similar x seed = true ->
          (forall g' s', In g' pre -> hd_error g' = Some s' ->
                         similar x s' = false) ->
          Collector.place similar x gs = Some (pre ++ (g ++ [x]) :: post)) /\
      (Forall (fun g' => g' <> []) gs ->
       (forall g s, In g gs -> hd_error g = Some s -> similar x s = false) ->
       Collector.place similar x gs = Some (gs ++ [[x]]))) /\
  (forall similar agents,
      exists gs,
        Collector.group_loop similar agents [] = Some gs /\
        Spec.seed_grouping (Spec.against_seed similar) agents gs /\
        forall similar',
          (forall g seed r, In g gs -> hd_error g = Some seed ->
                            similar' r seed = similar r seed) ->
          Collector.group_loop similar' agents [] = Some gs).
Proof.
  split; [|split; [|split]].
  - intros agent1 rest processed Hnd.
    eexists. split; [apply (scan_spec _ _ _ Hnd processed [agent1])|].
    intro r. rewrite filter_In, andb_true_iff. tauto.
  - intros agents Hnd.
    destruct (group_loop_spec Dedupe.is_duplicate agents Hnd [] [])
      as (gs & Hgs & Hloop).
    rewrite unprocessed_nil in Hgs.
    exists gs. split; [exact Hgs|]. split; [exact Hloop|].
    intros verdict' Hagree.
    destruct (group_loop_spec verdict' agents Hnd [] []) as (gs' & Hgs' & ->).
    rewrite unprocessed_nil in Hgs'. rewrite Hloop. f_equal. f_equal.
    apply (seed_grouping_unique verdict' agents); [exact Hgs'|].
    now apply (seed_grouping_ext Dedupe.is_duplicate).
  - intros similar x gs. apply place_joins.
  - intros similar agents.
    destruct (collector_group_loop_spec similar agents [] [])
      as (gs & Hl & Hgs); [constructor|].
    exists gs. split; [exact Hl|]. split; [exact Hgs|].
    intros similar' Hagree.
    destruct (collector_group_loop_spec similar' agents [] [])
      as (gs' & Hl' & Hgs'); [constructor|].
    rewrite Hl'. f_equal.
    apply (seed_grouping_unique (Spec.against_seed similar') agents);
      [exact Hgs'|].
    apply (seed_grouping_ext (Spec.against_seed similar)); [exact Hgs|].
    intros g seed r Hin Hhd. unfold Spec.against_seed.
    exact (Hagree g seed r Hin Hhd).
Qed.
End SeedTheorem.


(** ** The properties on sample records *)

Ltac distinct_paths :=
  repeat (constructor; [simpl; intuition discriminate|]); constructor.

Lemma dedupe_partitions_records_witness :
  let agents :=
    [Sample.python_pro; Sample.rust_engineer; Sample.python_expert] in
  NoDup (map Dedupe.path agents) /\
  exists st2,
    Dedupe.select_best_from_groups
      (Dedupe.find_duplicates (Dedupe.loaded agents)) = Some st2 /\
    Dedupe.unique_agents st2 = [Sample.rust_engineer; Sample.python_expert] /\
    (List.length (Dedupe.unique_agents st2) <= List.length agents)%nat.
Proof.
  intro agents.
  assert (Hnd : NoDup (map Dedupe.path agents)) by distinct_paths.
  split; [exact Hnd|].
  destruct (dedupe_partitions_records agents Hnd)
    as (_ & _ & _ & _ & st2 & Hsel & _ & _ & _ & _ & Hle).
  exists st2. split; [exact Hsel|]. split; [|exact Hle].
  vm_compute in Hsel. apply some_inj in Hsel. subst st2. reflexivity.
Defined.

Lemma grouping_tests_seeds_only_witness :
  let agents := [Sample.python_pro; Sample.python_expert; Sample.expert] in
  NoDup (map Dedupe.path agents) /\
  Dedupe.is_duplicate Sample.python_pro Sample.python_expert = true /\
  Dedupe.is_duplicate Sample.python_expert Sample.expert = true /\
  Dedupe.is_duplicate Sample.python_pro Sample.expert = false /\
  Dedupe.duplicate_groups (Dedupe.find_duplicates (Dedupe.loaded agents)) =
  [[Sample.python_pro; Sample.python_expert]] /\
  (exists gs,
      Spec.seed_grouping Dedupe.is_duplicate agents gs /\
      Dedupe.duplicate_groups (Dedupe.find_duplicates (Dedupe.loaded agents))
      = filter Spec.multi gs) /\
  (exists joined,
      Dedupe.scan Dedupe.is_duplicate Sample.python_pro
                  [Sample.python_expert; Sample.expert]
                  [Dedupe.path Sample.python_pro] [Sample.python_pro] =
      (rev (map Dedupe.path joined) ++ [Dedupe.path Sample.python_pro],
       Sample.python_pro :: joined)) /\
  Collector.place (fun _ _ => false) Sample.note_taker
                  [[Sample.django_orm_expert]] =
  Some [[Sample.django_orm_expert]; [Sample.note_taker]].
Proof.
  intro agents.
  assert (Hnd : NoDup (map Dedupe.path agents)) by distinct_paths.
  destruct grouping_tests_seeds_only as (H1 & H2 & H3 & _).
  split; [exact Hnd|].
  split; [vm_compute; reflexivity|]. split; [vm_compute; reflexivity|].
  split; [vm_compute; reflexivity|]. split; [vm_compute; reflexivity|].
  split; [|split].
  - destruct (H2 agents Hnd) as (gs & Hgs & Hg & _).
    exists gs. split; [exact Hgs|exact Hg].
  - destruct (H1 Sample.python_pro [Sample.python_expert; Sample.expert]
                 [Dedupe.path Sample.python_pro]) as (joined & Hj & _);
      [distinct_paths|].
    exists joined. exact Hj.
  - apply (proj2 (H3 (fun _ _ => false) Sample.note_taker
                     [[Sample.django_orm_expert]])).
    + constructor; [discriminate|constructor].
    + reflexivity.
Defined.

Lemma parser_falls_back_witness :
  Dedupe.extract_yaml (fun _ => None) "You are a reviewer." =
  (Yaml.empty, "You are a reviewer.") /\
  Dedupe.extract_yaml (fun _ => None) "--- draft" = (Yaml.empty, "--- draft") /\
  exists p1 p2,
    "---name: [---body" = ("---" ++ p1 ++ "---" ++ p2)%string /\
    Dedupe.extract_yaml (fun _ => None) "---name: [---body" =
    match Dedupe.safe_load (fun _ => None) p1 with
    | Some header => (Yaml.or_empty header, Py.strip p2)
    | None => (Yaml.empty, "---name: [---body")
    end.
Proof.
  split; [|split].
  - exact (proj1 (parser_falls_back (fun _ => None) "You are a reviewer.")
                 eq_refl).
  - exact (proj1 (proj2 (parser_falls_back (fun _ => None) "--- draft"))
                 eq_refl eq_refl).
  - destruct (parser_falls_back (fun _ => None) "---name: [---body")
      as (_ & _ & H & _).
    destruct H as (p1 & p2 & E & _ & Hx); [reflexivity|reflexivity|].
    exists p1, p2. split; [exact E|exact Hx].
Defined.

Lemma name_without_alnum_is_duplicate_witness :
  Dedupe.name_similarity "---" "python-pro" = (9 # 10)%Q /\
  Dedupe.is_duplicate (Sample.plain "agents/---.md" "---" "Notes." 0)
                      Sample.python_pro = true /\
  Dedupe.is_duplicate Sample.python_pro
                      (Sample.plain "agents/---.md" "---" "Notes." 0) = true.
Proof.
  split; [|split].
  - apply (name_without_alnum_is_duplicate "---" "python-pro").
    left. reflexivity.
  - apply (name_without_alnum_is_duplicate "---" "python-pro");
      [left|..]; reflexivity.
  - apply (name_without_alnum_is_duplicate "python-pro" "---");
      [right|..]; reflexivity.
Defined.

(** ** The duplicate handling of [collect_agents.py] *)

Section CollectorPartition.
Import Collector.

Variable similar : Agent -> Agent -> bool.

(** The selection loop keeps one record of every group, the earliest of
    those with the greatest score, and files the others as duplicates. *)
Lemma collector_select_loop_spec (groups : list (list Agent)) :
  Forall (fun g => g <> []) groups ->
  forall unique dups,
  exists bests rejected,
    select_loop groups unique dups = Some (unique ++ bests, dups ++ rejected) /\
    Forall2 (Spec.earliest_max quality_score) groups bests /\
    Permutation (bests ++ rejected) (List.concat groups).
Proof.
  induction 1 as [|g groups Hg _ IH]; intros unique dups.
  - exists [], []. rewrite !app_nil_r. repeat split; constructor.
  - cbn [select_loop].
    destruct (1 <? List.length g)%nat eqn:E.
    + destruct (sort_desc_head quality_score g Hg) as (best & rej & Hs & Hmax).
      rewrite Hs.
      destruct (IH (unique ++ [best]) (dups ++ rej))
        as (bests & rejected & Hl & Hf & Hp).
      exists (best :: bests), (rej ++ rejected).
      split; [rewrite Hl, <- !app_assoc; reflexivity|].
      split; [now constructor|].
      cbn [List.concat]. rewrite <- (sort_desc_perm quality_score g), Hs.
      simpl. constructor. rewrite <- Hp, !app_assoc.
      apply Permutation_app_tail, Permutation_app_comm.
    + destruct g as [|x [|y g]]; [congruence| |discriminate].
      destruct (IH (unique ++ [x]) dups) as (bests & rejected & Hl & Hf & Hp).
      exists (x :: bests), rejected.
      split; [rewrite Hl, <- app_assoc; reflexivity|].
      split.
      * constructor; [|exact Hf]. exists [], []. repeat split; intros ? [].
      * simpl. constructor. exact Hp.
Qed.

(** [find_duplicates] of [collect_agents.py] always returns.  It groups
    the records against seeds, appends to [unique_agents] one record of
    every group, the earliest of those with the greatest score, and to
    [duplicates] all the others: what it appends is a rearrangement of
    [all_agents], so no record is lost and none is counted twice. *)
Theorem collector_find_duplicates_partitions (st : State) :
  exists gs bests rejected,
    find_duplicates similar st =
    Some {| all_agents := all_agents st;
            unique_agents := unique_agents st ++ bests;
            duplicates := duplicates st ++ rejected |} /\
    Spec.seed_grouping (Spec.against_seed similar) (all_agents st) gs /\
    Forall2 (Spec.earliest_max quality_score) gs bests /\
    Permutation (bests ++ rejected) (all_agents st) /\
    (List.length bests + List.length rejected =
     List.length (all_agents st))%nat.
Proof.
  destruct (collector_group_loop_spec similar (all_agents st) [] [])
    as (gs & Hl & Hgs); [constructor|].
  simpl in Hgs.
  destruct (collector_select_loop_spec gs (seed_grouping_nonempty _ _ _ Hgs)
              (unique_agents st) (duplicates st))
    as (bests & rejected & Hsel & Hf & Hp).
  exists gs, bests, rejected.
  assert (Hall : Permutation (bests ++ rejected) (all_agents st)).
  { rewrite Hp. apply (seed_grouping_perm _ _ _ Hgs). }
  split; [unfold find_duplicates; rewrite Hl, Hsel; reflexivity|].
  split; [exact Hgs|]. split; [exact Hf|]. split; [exact Hall|].
  rewrite <- length_app. apply Permutation_length, Hall.
Qed.
End CollectorPartition.

(** ** The resolver on every group *)

Section ResolverRuns.

Lemma sort_desc_resolved {A : Type} (key : A -> Z) (g : list A) :
  g <> [] -> exists best, Notion.resolved key g best.
Proof.
  intro Hne.
  destruct (sort_desc_head key g Hne) as (best & rejected & Hs & Hmax).
  exists best, rejected. split; [exact Hs|]. split; [exact Hmax|].
  split; [intros first later E; rewrite E in Hmax;
          exact (earliest_max_scan _ _ _ _ Hmax)|].
  rewrite <- Hs. split; [apply sort_desc_perm|].
  split; [apply sort_desc_sorted|]. intro v. apply sort_desc_stable.
Qed.

Lemma resolved_head {A : Type} (key : A -> Z) (g : list A) (best : A) :
  Notion.resolved key g best ->
  sort_desc key g = best :: Notion.rejected_of key g.
Proof.
  intros (rejected & Hs & _). unfold Notion.rejected_of. now rewrite Hs.
Qed.

(** Scores 40, 55 and 55: the second record is the one selected. *)
Lemma resolved_40_55_55 {A : Type} (key : A -> Z) (a b c : A) :
  key a = 40%Z -> key b = 55%Z -> key c = 55%Z ->
  sort_desc key [a; b; c] = [b; c; a] /\
  forall best, Notion.resolved key [a; b; c] best -> best = b.
Proof.
  intros Ha Hb Hc.
  assert (Hs : sort_desc key [a; b; c] = [b; c; a]).
  { unfold sort_desc. cbn [fold_right insert_desc].
    rewrite Hb, Hc. change (55 <? 55)%Z with false.
    cbn [insert_desc]. rewrite Ha, Hb, Hc. reflexivity. }
  split; [exact Hs|].
  intros best (rejected & Hr & _). rewrite Hs in Hr. now injection Hr.
Qed.

(** The loop of [select_best_from_groups] over all the groups. *)
Lemma select_loop_resolves (groups : list (list Dedupe.Agent)) :
  Forall (fun g => g <> []) groups ->
  forall unique log,
  exists bests entries,
    Dedupe.select_loop groups unique log =
    Some (map (sort_desc Dedupe.quality_score) groups,
          unique ++ bests, log ++ entries) /\
    Forall2 (Notion.resolved Dedupe.quality_score) groups bests /\
    Forall2 Notion.logged_for
            (map (sort_desc Dedupe.quality_score) groups)
            (combine bests entries) /\
    List.length entries = List.length groups.
Proof.
  induction 1 as [|g groups Hg _ IH]; intros unique log.
  - exists [], []. rewrite !app_nil_r. repeat split; constructor.
  - destruct (sort_desc_resolved Dedupe.quality_score g Hg) as (best & Hbest).
    pose proof Hbest as (rej & Hs & _).
    set (d := {| Dedupe.d_group :=
                   Dedupe.get_semantic_key (Dedupe.name best);
                 Dedupe.d_selected := Dedupe.name best;
                 Dedupe.d_score := Dedupe.quality_score best;
                 Dedupe.d_rejected := map Dedupe.name rej |}).
    destruct (IH (unique ++ [best]) (log ++ [d]))
      as (bests & entries & Hl & Hf & Hd & He).
    exists (best :: bests), (d :: entries).
    split; [cbn [Dedupe.select_loop map]; rewrite Hs; fold d;
            rewrite Hl, <- !app_assoc; reflexivity|].
    split; [now constructor|].
    split; [|simpl; congruence].
    cbn [map combine]. constructor; [|exact Hd].
    exists rej. rewrite Hs. repeat split.
Qed.

(** The groups that the grouper of [intelligent_dedupe.py] records hold
    more than one record. *)
Lemma group_loop_nonempty (verdict : Dedupe.Agent -> Dedupe.Agent -> bool)
      (agents : list Dedupe.Agent) :
  forall processed groups,
    Forall (fun g => g <> []) groups ->
    Forall (fun g => g <> [])
           (Dedupe.group_loop verdict agents processed groups).
Proof.
  induction agents as [|agent1 rest IH]; intros processed groups H;
    [exact H|].
  cbn [Dedupe.group_loop].
  destruct (Dedupe.mem (Dedupe.path agent1) processed); [now apply IH|].
  destruct (Dedupe.scan verdict agent1 rest _ _) as [processed' current].
  apply IH.
  destruct (1 <? List.length current)%nat eqn:E; [|exact H].
  apply Forall_app. split; [exact H|].
  constructor; [|constructor]. intros ->. discriminate.
Qed.

(** The selection loop of [collect_agents.find_duplicates] over all the
    groups. *)
Lemma collector_select_loop_resolves (groups : list (list Collector.Agent)) :
  Forall (fun g => g <> []) groups ->
  forall unique dups,
  exists bests,
    Collector.select_loop groups unique dups =
    Some (unique ++ bests,
          dups ++ List.concat
                    (map (Notion.rejected_of Collector.quality_score)
                         groups)) /\
    Forall2 (Notion.resolved Collector.quality_score) groups bests.
Proof.
  induction 1 as [|g groups Hg _ IH]; intros unique dups.
  - exists []. rewrite !app_nil_r. split; [reflexivity|constructor].
  - destruct (sort_desc_resolved Collector.quality_score g Hg)
      as (best & Hbest).
    pose proof (resolved_head _ _ _ Hbest) as Hs.
    cbn [Collector.select_loop map List.concat].
    destruct (1 <? List.length g)%nat eqn:E.
    + rewrite Hs.
      destruct (IH (unique ++ [best])
                   (dups ++ Notion.rejected_of Collector.quality_score g))
        as (bests & Hl & Hf).
      exists (best :: bests).
      split; [rewrite Hl, <- !app_assoc; reflexivity|now constructor].
    + destruct g as [|x [|y g]]; [congruence| |discriminate].
      assert (Hx : x = best) by (cbn in Hs; congruence). subst x.
      destruct (IH (unique ++ [best]) dups) as (bests & Hl & Hf).
      exists (best :: bests).
      split; [|now constructor].
      rewrite Hl, <- !app_assoc. reflexivity.
Qed.

(** C3.  The resolver of [intelligent_dedupe.py] returns on every state
    whose duplicate groups are not empty, as the groups recorded by the
    grouper always are.  It resolves every group, in order: the group is
    replaced by its stable descending sort, whose first record, the
    earliest of the group with the greatest [quality_score], is appended
    to the survivors, and a decision naming it and the rejected records
    is appended to the log.  The selection loop of
    [collect_agents.find_duplicates] does the same with every group that
    it is given, and [find_duplicates] with every group that it forms:
    the survivor is appended to [unique_agents], the rest of the sorted
    group to [duplicates].  A group with scores 40, 55, 55, wherever it
    stands among the groups, is sorted with the first record of score 55
    at its head, and that record is its survivor. *)
Theorem resolver_selects_earliest_maximum :
  (forall st : Dedupe.State,
      Forall (fun g => g <> []) (Dedupe.duplicate_groups st) ->
      exists bests entries,
        Dedupe.select_best_from_groups st =
        Some {| Dedupe.all_agents := Dedupe.all_agents st;
                Dedupe.duplicate_groups :=
                  map (sort_desc Dedupe.quality_score)
                      (Dedupe.duplicate_groups st);
                Dedupe.unique_agents :=
                  (Dedupe.unique_agents st ++
                   filter (fun agent =>
                             negb (Dedupe.mem
                                     (Dedupe.path agent)
                                     (map Dedupe.path
                                          (List.concat
                                             (Dedupe.duplicate_groups st)))))
                          (Dedupe.all_agents st)) ++ bests;
                Dedupe.decision_log := Dedupe.decision_log st ++ entries |} /\
        Forall2 (Notion.resolved Dedupe.quality_score)
                (Dedupe.duplicate_groups st) bests /\
        Forall2 Notion.logged_for
                (map (sort_desc Dedupe.quality_score)
                     (Dedupe.duplicate_groups st))
                (combine bests entries) /\
        List.length entries = List.length (Dedupe.duplicate_groups st)) /\
  (forall agents : list Dedupe.Agent,
      Forall (fun g => g <> [])
             (Dedupe.duplicate_groups
                (Dedupe.find_duplicates (Dedupe.loaded agents)))) /\
  (forall groups : list (list Collector.Agent),
      Forall (fun g => g <> []) groups ->
      forall unique dups,
      exists bests,
        Collector.select_loop groups unique dups =
        Some (unique ++ bests,
              dups ++ List.concat
                        (map (Notion.rejected_of Collector.quality_score)
                             groups)) /\
        Forall2 (Notion.resolved Collector.quality_score) groups bests) /\
  (forall (similar : Collector.Agent -> Collector.Agent -> bool)
          (st : Collector.State),
      exists groups bests,
        Collector.group_loop similar (Collector.all_agents st) [] =
        Some groups /\
        Forall (fun g => g <> []) groups /\
        Collector.find_duplicates similar st =
        Some {| Collector.all_agents := Collector.all_agents st;
                Collector.unique_agents :=
                  Collector.unique_agents st ++ bests;
                Collector.duplicates :=
                  Collector.duplicates st ++
                  List.concat
                    (map (Notion.rejected_of Collector.quality_score)
                         groups) |} /\
        Forall2 (Notion.resolved Collector.quality_score) groups bests) /\
  (forall (a b c : Dedupe.Agent) (before after : list (list Dedupe.Agent)),
      Dedupe.quality_score a = 40%Z ->
      Dedupe.quality_score b = 55%Z ->
      Dedupe.quality_score c = 55%Z ->
      Forall (fun g => g <> []) before ->
      Forall (fun g => g <> []) after ->
      forall unique log,
      exists bests_before bests_after entries,
        Dedupe.select_loop (before ++ [a; b; c] :: after) unique log =
        Some (map (sort_desc Dedupe.quality_score) before ++
              [b; c; a] :: map (sort_desc Dedupe.quality_score) after,
              unique ++ bests_before ++ b :: bests_after,
              log ++ entries) /\
        List.length bests_before = List.length before /\
        List.length bests_after = List.length after) /\
  (forall (a b c : Collector.Agent)
          (before after : list (list Collector.Agent)),
      Collector.quality_score a = 40%Z ->
      Collector.quality_score b = 55%Z ->
      Collector.quality_score c = 55%Z ->
      Forall (fun g => g <> []) before ->
      Forall (fun g => g <> []) after ->
      forall unique dups,
      exists bests_before bests_after,
        Collector.select_loop (before ++ [a; b; c] :: after) unique dups =
        Some (unique ++ bests_before ++ b :: bests_after,
              dups ++
              List.concat (map (Notion.rejected_of Collector.quality_score)
                               before) ++
              [c; a] ++
              List.concat (map (Notion.rejected_of Collector.quality_score)
                               after)) /\
        List.length bests_before = List.length before /\
        List.length bests_after = List.length after).
Proof.
  split; [|split; [|split; [|split; [|split]]]].
  - intros st Hne.
    destruct (select_loop_resolves
                (Dedupe.duplicate_groups st) Hne
                (Dedupe.unique_agents st ++
                 filter (fun agent =>
                           negb (Dedupe.mem
                                   (Dedupe.path agent)
                                   (map Dedupe.path
                                        (List.concat
                                           (Dedupe.duplicate_groups st)))))
                        (Dedupe.all_agents st))
                (Dedupe.decision_log st))
      as (bests & entries & Hsel & Hf & Hd & He).
    exists bests, entries.
    split; [|split; [exact Hf|split; [exact Hd|exact He]]].
    unfold Dedupe.select_best_from_groups. cbv zeta.
    rewrite Hsel. reflexivity.
  - intro agents. apply group_loop_nonempty. constructor.
  - apply collector_select_loop_resolves.
  - intros similar st.
    destruct (collector_group_loop_spec similar (Collector.all_agents st)
                                        [] [])
      as (gs & Hl & Hgs); [constructor|].
    pose proof (seed_grouping_nonempty _ _ _ Hgs) as Hne.
    destruct (collector_select_loop_resolves
                gs Hne (Collector.unique_agents st) (Collector.duplicates st))
      as (bests & Hsel & Hf).
    exists gs, bests.
    split; [exact Hl|]. split; [exact Hne|]. split; [|exact Hf].
    unfold Collector.find_duplicates. rewrite Hl, Hsel. reflexivity.
  - intros a b c before after Ha Hb Hc Hbefore Hafter unique log.
    destruct (resolved_40_55_55 Dedupe.quality_score a b c Ha Hb Hc)
      as (Hs & Hbest).
    assert (Hne : Forall (fun g : list Dedupe.Agent => g <> [])
                         (before ++ [a; b; c] :: after)).
    { apply Forall_app. split; [exact Hbefore|].
      constructor; [discriminate|exact Hafter]. }
    destruct (select_loop_resolves _ Hne unique log)
      as (bests & entries & Hsel & Hf & _).
    apply Forall2_app_inv_l in Hf as (b1 & b2 & H1 & H2 & ->).
    inversion H2 as [|? best ? b3 Hr H3]; subst.
    apply Hbest in Hr. subst best.
    exists b1, b3, entries.
    split; [|split; [symmetry; exact (Forall2_length H1)|
                     symmetry; exact (Forall2_length H3)]].
    rewrite Hsel, map_app. cbn [map]. rewrite Hs. reflexivity.
  - intros a b c before after Ha Hb Hc Hbefore Hafter unique dups.
    destruct (resolved_40_55_55 Collector.quality_score a b c Ha Hb Hc)
      as (Hs & Hbest).
    assert (Hne : Forall (fun g : list Collector.Agent => g <> [])
                         (before ++ [a; b; c] :: after)).
    { apply Forall_app. split; [exact Hbefore|].
      constructor; [discriminate|exact Hafter]. }
    destruct (collector_select_loop_resolves _ Hne unique dups)
      as (bests & Hsel & Hf).
    apply Forall2_app_inv_l in Hf as (b1 & b2 & H1 & H2 & ->).
    inversion H2 as [|? best ? b3 Hr H3]; subst.
    apply Hbest in Hr. subst best.
    exists b1, b3.
    split; [|split; [symmetry; exact (Forall2_length H1)|
                     symmetry; exact (Forall2_length H3)]].
    rewrite Hsel, map_app, concat_app. cbn [map List.concat].
    unfold Notion.rejected_of at 2. rewrite Hs. reflexivity.
Qed.

Lemma resolver_selects_earliest_maximum_witness :
  exists best entries,
    Dedupe.select_loop
      [[Sample.python_pro; Sample.python_expert];
       [Sample.variant_a; Sample.variant_b; Sample.variant_c]] [] [] =
    Some ([sort_desc Dedupe.quality_score
                     [Sample.python_pro; Sample.python_expert];
           [Sample.variant_b; Sample.variant_c; Sample.variant_a]],
          [best; Sample.variant_b], entries).
Proof.
  destruct resolver_selects_earliest_maximum as (_ & _ & _ & _ & H & _).
  assert (Hb : Forall (fun g : list Dedupe.Agent => g <> [])
                      [[Sample.python_pro; Sample.python_expert]])
    by (constructor; [discriminate|constructor]).
  destruct (H Sample.variant_a Sample.variant_b Sample.variant_c
              [[Sample.python_pro; Sample.python_expert]] []
              eq_refl eq_refl eq_refl Hb (Forall_nil _) [] [])
    as (b1 & b3 & entries & Hsel & H1 & H3).
  destruct b1 as [|best [|? ?]]; try discriminate H1.
  destruct b3; [|discriminate H3].
  exists best, entries. exact Hsel.
Defined.
End ResolverRuns.

(** ** The range of the quality scores *)

Section ScoreRange.
Import Dedupe.

Lemma bonus_range (c : bool) (k : Z) : (0 <= k -> 0 <= bonus c k <= k)%Z.
Proof. destruct c; simpl; lia. Qed.

Ltac bonus_ranges :=
  repeat match goal with
         | |- context [bonus ?c ?k] =>
             let H := fresh "Hb" in
             assert (H : (0 <= bonus c k <= k)%Z) by (apply bonus_range; lia);
             revert H; generalize (bonus c k); intros ? ?
         end.

Ltac case_ifs :=
  repeat match goal with
         | |- context [if ?c then _ else _] => destruct c
         end.

Ltac header_case :=
  match goal with
  | |- context [match Yaml.py_in ?k ?v with _ => _ end] =>
      destruct (Yaml.py_in k v) as [[]|]
  | |- context [match Yaml.py_get ?v ?k ?d with _ => _ end] =>
      destruct (Yaml.py_get v k d)
  | |- context [match Yaml.py_len ?v with _ => _ end] =>
      destruct (Yaml.py_len v)
  end; try discriminate.

(** The header section gives at most 30 points. *)
Lemma frontmatter_points_range (agent : Agent) (p : Z) :
  frontmatter_points agent = Some p -> (0 <= p <= 30)%Z.
Proof.
  unfold frontmatter_points. destruct (has_yaml agent);
    [|intro H; apply some_inj in H; lia].
  repeat header_case.
  all: intro H; injection H as <-; bonus_ranges; case_ifs; lia.
Qed.

(** The other sections give at most 75 points. *)
Lemma calculate_quality_score_range (agent agent' : Agent) (score : Z) :
  calculate_quality_score agent = Some (score, agent') ->
  exists p, frontmatter_points agent = Some p /\ (p <= score <= p + 75)%Z.
Proof.
  unfold calculate_quality_score.
  destruct (frontmatter_points agent) as [p|]; [|discriminate].
  cbv zeta.
  match goal with |- Some (?e, _) = _ -> _ => remember e as total eqn:Ht end.
  intro H. injection H as <- _. exists p. split; [reflexivity|].
  revert Ht. bonus_ranges. case_ifs; intros; lia.
Qed.

(** The score of [intelligent_dedupe.py] lies between 0 and 105: 20 for
    the length, 30 for the header, 20 for the headings, 15 for the
    wording, 10 for the code fences and 10 for the source. *)
Theorem dedupe_score_between_0_and_105 (agent agent' : Agent) (score : Z) :
  calculate_quality_score agent = Some (score, agent') ->
  (0 <= score <= 105)%Z.
Proof.
  intro H. destruct (calculate_quality_score_range _ _ _ H) as (p & Hp & Hs).
  pose proof (frontmatter_points_range _ _ Hp). lia.
Qed.

Lemma keyword_loop_le (kws : list string) (text : string) (s : Z) :
  (Collector.keyword_loop kws text s <= s + 2 * Z.of_nat (List.length kws))%Z.
Proof.
  revert s. induction kws as [|k kws IH]; intro s; [simpl; lia|].
  cbn [Collector.keyword_loop List.length].
  eapply Z.le_trans; [apply IH|].
  assert (0 <= bonus (Py.contains (Py.lower k) (Py.lower text)) 2 <= 2)%Z
    by (apply bonus_range; lia).
  lia.
Qed.

(** The header gives at most 25 points and the text at most 35. *)
Lemma collector_score_split (agent : Collector.Agent) (s : Z) :
  Collector.calculate_quality_score agent = Some s ->
  exists p, Collector.frontmatter_points agent = Some p /\
            (0 <= p <= 25)%Z /\ (p <= s <= p + 35)%Z.
Proof.
  unfold Collector.calculate_quality_score.
  destruct (Collector.frontmatter_points agent) as [p|] eqn:Hp;
    [|discriminate].
  assert (Hle : (0 <= p <= 25)%Z).
  { revert Hp. unfold Collector.frontmatter_points.
    destruct (Yaml.truthy (Collector.yaml_frontmatter agent)).
    - destruct (Yaml.py_in "name" _) as [n|]; [|discriminate].
      destruct (Yaml.py_in "description" _) as [d|]; [|discriminate].
      destruct (Yaml.py_in "tools" _) as [t|]; [|discriminate].
      cbv zeta. intro H. apply some_inj in H. subst p.
      destruct n, d, t; cbv; split; congruence.
    - intro H. apply some_inj in H. subst p. lia. }
  cbv zeta. intro H. apply some_inj in H. subst s.
  exists p. split; [reflexivity|]. split; [exact Hle|]. split.
  - eapply Z.le_trans; [|apply keyword_loop_ge]. bonus_ranges. lia.
  - eapply Z.le_trans; [apply keyword_loop_le|].
    change (Z.of_nat (List.length Collector.keywords)) with 5%Z.
    bonus_ranges. lia.
Qed.

(** The score of [collect_agents.py] lies between 0 and 60: 25 for the
    header, 15 for the length, 5 for the headings, 5 for a code fence and
    2 for each of the five instruction keywords. *)
Theorem collector_score_between_0_and_60 (agent : Collector.Agent) (s : Z) :
  Collector.calculate_quality_score agent = Some s -> (0 <= s <= 60)%Z.
Proof.
  intro H. destruct (collector_score_split _ _ H) as (p & _ & Hp & Hs). lia.
Qed.
End ScoreRange.

(** ** Names inside names *)

Section NameInclusion.
Import Dedupe Signal.
Local Open Scope string_scope.

Lemma lower_app (s t : string) : Py.lower (s ++ t) = Py.lower s ++ Py.lower t.
Proof. induction s as [|c s IH]; simpl; [reflexivity|now rewrite IH]. Qed.

Lemma keep_app (p : ascii -> bool) (s t : string) :
  Notion.keep p (s ++ t) = Notion.keep p s ++ Notion.keep p t.
Proof.
  induction s as [|c s IH]; simpl; [reflexivity|].
  destruct (p c); simpl; now rewrite IH.
Qed.

(** Deleting every match of a one-character class keeps the characters
    outside the class. *)
Lemma sub_loop_delete_class (k : Re.cclass) (s : string) :
  forall pos,
    Re.sub_loop (Re.One k) "" pos 0 s =
    Notion.keep (fun c => negb (Re.in_class k c)) s.
Proof.
  induction s as [|c s IH]; intro pos; [reflexivity|].
  cbn [Re.sub_loop Notion.keep]. unfold Re.match_at. cbn [Re.rmatch].
  destruct (Re.in_class k c); cbn [negb Re.m_end].
  - replace (pos <? S pos)%nat with true by (symmetry; apply Nat.ltb_lt; lia).
    replace (S pos - pos - 1)%nat with 0%nat by lia.
    cbn [append]. apply IH.
  - f_equal. apply IH.
Qed.

Lemma startswith_self_app (u y : string) : Py.startswith u (u ++ y) = true.
Proof.
  induction u as [|c u IH]; [reflexivity|].
  simpl. now rewrite Ascii.eqb_refl, IH.
Qed.

Lemma contains_app_l (u x t : string) :
  Py.contains u t = true -> Py.contains u (x ++ t) = true.
Proof.
  intro H. induction x as [|c x IH]; [exact H|].
  cbn [append Py.contains]. rewrite IH. apply orb_true_r.
Qed.

Lemma contains_startswith (u s : string) :
  Py.startswith u s = true -> Py.contains u s = true.
Proof. intro H. destruct s; cbn [Py.contains]; now rewrite H. Qed.

Lemma contains_infix (u x y : string) : Py.contains u (x ++ u ++ y) = true.
Proof. apply contains_app_l, contains_startswith, startswith_self_app. Qed.

(** A name that occurs inside another name is its duplicate: the cleaned
    form of the first then occurs in the cleaned form of the second,
    [name_similarity] returns 0.9 in either order and the verdict of the
    engine holds in either order, whatever the contents are. *)
Theorem name_inside_name_is_duplicate (a1 a2 : Agent) (x y : string) :
  name a2 = x ++ name a1 ++ y ->
  name_similarity (name a1) (name a2) = (9 # 10)%Q /\
  name_similarity (name a2) (name a1) = (9 # 10)%Q /\
  is_duplicate a1 a2 = true /\ is_duplicate a2 a1 = true.
Proof.
  intro E.
  assert (Hc : Py.contains
                 (Re.re_sub (Re.One Re.NotLowerAlnum) "" (Py.lower (name a1)))
                 (Re.re_sub (Re.One Re.NotLowerAlnum) "" (Py.lower (name a2)))
               = true).
  { unfold Re.re_sub. rewrite !sub_loop_delete_class, E, !lower_app, !keep_app.
    apply contains_infix. }
  assert (H12 : name_similarity (name a1) (name a2) = (9 # 10)%Q).
  { unfold name_similarity. now rewrite Hc. }
  assert (H21 : name_similarity (name a2) (name a1) = (9 # 10)%Q).
  { unfold name_similarity. now rewrite Hc, orb_true_r. }
  split; [exact H12|]. split; [exact H21|].
  rewrite !is_duplicate_or. unfold fuzzy_name. rewrite H12, H21.
  change (Difflib.Qgtb (9 # 10) (7 # 10)) with true.
  rewrite !orb_true_r. split; reflexivity.
Qed.
End NameInclusion.

Lemma name_inside_name_is_duplicate_witness :
  Dedupe.is_duplicate Sample.expert Sample.python_expert = true /\
  Dedupe.is_duplicate Sample.python_expert Sample.expert = true.
Proof.
  destruct (name_inside_name_is_duplicate Sample.expert Sample.python_expert
              "python-" "" eq_refl) as (_ & _ & H1 & H2).
  split; [exact H1|exact H2].
Defined.

(** ** Files without header *)

Section PlainFiles.
Import Dedupe.

Variable yaml_parse : string -> option Yaml.value.

Lemma load_agent_plain (agent_file : File) :
  Py.startswith "---" (f_text agent_file) = false ->
  exists agent,
    load_agent yaml_parse agent_file = Some agent /\
    path agent = f_path agent_file /\
    name agent = f_stem agent_file /\
    content agent = f_text agent_file /\
    yaml_data agent = Yaml.empty /\
    has_yaml agent = false /\
    (0 <= quality_score agent <= 75)%Z.
Proof.
  intro H. unfold load_agent, extract_yaml. rewrite H.
  cbn [Yaml.py_in Yaml.empty Yaml.lookup Yaml.truthy].
  match goal with
  | |- context [calculate_quality_score ?x] =>
      destruct (calculate_quality_score x) as [[score scored]|] eqn:E
  end.
  - destruct (calculate_quality_score_range _ _ _ E) as (p & Hp & Hs).
    destruct (calculate_quality_score_inv _ _ _ E) as (_ & _ & _ & ->).
    apply some_inj in Hp. subst p.
    eexists. split; [reflexivity|].
    destruct (Spec.marks_examples _); repeat split; cbn; lia.
  - exfalso. revert E. unfold calculate_quality_score.
    cbn [frontmatter_points has_yaml]. discriminate.
Qed.

(** A file whose text does not start with three hyphens is always
    loaded: as a record without header, named after the file, holding
    its text, with a score between 0 and 75.  A list of such files is
    loaded without loss, in order. *)
Theorem load_agents_keeps_plain_files (files : list File) :
  Forall (fun f => Py.startswith "---" (f_text f) = false) files ->
  map path (load_agents yaml_parse files) = map f_path files /\
  map name (load_agents yaml_parse files) = map f_stem files /\
  map content (load_agents yaml_parse files) = map f_text files /\
  Forall (fun a => has_yaml a = false /\ yaml_data a = Yaml.empty /\
                   (0 <= quality_score a <= 75)%Z)
         (load_agents yaml_parse files).
Proof.
  induction 1 as [|f files Hf _ (IHp & IHn & IHc & IHs)].
  - repeat split; constructor.
  - destruct (load_agent_plain f Hf)
      as (agent & Hl & Hp & Hn & Hc & Hy & Hh & Hq).
    cbn [load_agents]. rewrite Hl. cbn [map].
    rewrite IHp, IHn, IHc, Hp, Hn, Hc.
    repeat split. constructor; [|exact IHs]. repeat split; tauto || lia.
Qed.
End PlainFiles.

Lemma load_agents_keeps_plain_files_witness :
  map Dedupe.path (Dedupe.load_agents (fun _ => None) [Sample.bare_file]) =
  ["agents/core/audit/bare.md"].
Proof.
  apply (load_agents_keeps_plain_files (fun _ => None) [Sample.bare_file]).
  constructor; [reflexivity|constructor].
Defined.

(** ** The decision log *)

Section DecisionLog.
Import Dedupe.

(** The duplicate groups and the records outside them hold every record
    once. *)
Lemma dedupe_groups_cover (agents : list Agent) :
  NoDup (map path agents) ->
  let groups := group_loop is_duplicate agents [] [] in
  let uniques :=
    filter (fun a => negb (mem (path a) (map path (List.concat groups))))
           agents in
  Forall (fun g => g <> []) groups /\
  Permutation (uniques ++ List.concat groups) agents.
Proof.
  intros Hnd groups uniques.
  assert (Hnda : NoDup agents) by (eapply NoDup_map_inv; exact Hnd).
  destruct (group_loop_spec is_duplicate agents Hnd [] [])
    as (gs & Hgs & Hloop).
  rewrite unprocessed_nil in Hgs. simpl in Hloop.
  assert (Hgroups : groups = filter Spec.multi gs) by exact Hloop.
  pose proof (seed_grouping_perm _ _ _ Hgs) as Hperm.
  pose proof (concat_filter_split Spec.multi gs) as Hsplit.
  rewrite <- Hgroups in Hsplit.
  set (singles := List.concat (filter (fun g => negb (Spec.multi g)) gs))
    in *.
  assert (Hall : Permutation (singles ++ List.concat groups) agents)
    by (now rewrite Hsplit).
  assert (Hnd2 : NoDup (singles ++ List.concat groups))
    by (apply (Permutation_NoDup (Permutation_sym Hall)), Hnda).
  assert (Hin : forall a, In a agents ->
              mem (path a) (map path (List.concat groups)) = true <->
              In a (List.concat groups)).
  { intros a Ha. rewrite mem_paths. split.
    - intros (b & Hb & E).
      assert (In b agents)
        by (apply (Permutation_in _ Hall), in_or_app; now right).
      now rewrite <- (path_injective agents b a Hnd).
    - intro Hg. now exists a. }
  assert (Huniq : Permutation uniques singles).
  { unfold uniques.
    rewrite <- (Permutation_filter _ _ _ Hall), filter_app.
    rewrite (filter_all _ singles), (filter_none _ (List.concat groups)).
    - now rewrite app_nil_r.
    - intros x Hx. apply negb_false_iff, Hin; [|exact Hx].
      apply (Permutation_in _ Hall), in_or_app. now right.
    - intros x Hx. apply negb_true_iff.
      destruct (mem (path x) (map path (List.concat groups))) eqn:M;
        [|reflexivity].
      apply Hin in M;
        [|apply (Permutation_in _ Hall), in_or_app; now left].
      exfalso. revert Hx M. clear - Hnd2.
      induction singles as [|y l IH]; [intros []|].
      simpl in Hnd2. inversion Hnd2 as [|? ? Hy Hl]; subst.
      intros [<-|Hx] M; [apply Hy, in_or_app; now right|now apply IH]. }
  split.
  - rewrite Hgroups. apply Forall_forall. intros g Hg.
    apply filter_In in Hg as [Hg _].
    pose proof (seed_grouping_nonempty _ _ _ Hgs) as Hn.
    rewrite Forall_forall in Hn. now apply Hn.
  - rewrite Huniq. exact Hall.
Qed.

(** What the resolver leaves in the groups and in the log. *)
Lemma select_loop_log (groups : list (list Agent)) :
  Forall (fun g => g <> []) groups ->
  forall unique log,
  exists sorted bests entries,
    select_loop groups unique log =
    Some (sorted, unique ++ bests, log ++ entries) /\
    Forall2 (fun g s => Permutation s g /\ Spec.descending quality_score s)
            groups sorted /\
    Forall2 (Notion.logged_for) sorted (combine bests entries) /\
    List.length bests = List.length sorted /\
    List.length entries = List.length sorted.
Proof.
  induction 1 as [|g groups Hg _ IH]; intros unique log.
  - exists [], [], []. rewrite !app_nil_r. repeat split; constructor.
  - destruct (sort_desc_head quality_score g Hg) as (best & rej & Hs & _).
    set (d := {| d_group := get_semantic_key (name best);
                 d_selected := name best;
                 d_score := quality_score best;
                 d_rejected := map name rej |}).
    destruct (IH (unique ++ [best]) (log ++ [d]))
      as (sorted & bests & entries & Hl & Hf & Hd & Hb & He).
    exists ((best :: rej) :: sorted), (best :: bests), (d :: entries).
    split; [cbn [select_loop]; rewrite Hs; fold d; rewrite Hl, <- !app_assoc;
            reflexivity|].
    split; [|split; [|split; simpl; congruence]].
    + constructor; [|exact Hf]. rewrite <- Hs.
      split; [apply sort_desc_perm|apply sort_desc_sorted].
    + cbn [combine]. constructor; [|exact Hd].
      exists rej. repeat split.
Qed.

Lemma logged_rejections (sorted : list (list Agent)) :
  forall bests entries,
    Forall2 Notion.logged_for sorted (combine bests entries) ->
    List.length bests = List.length sorted ->
    List.length entries = List.length sorted ->
    (List.length (List.concat sorted) =
     List.length bests +
     list_sum (map (fun d => List.length (d_rejected d)) entries))%nat.
Proof.
  induction sorted as [|s sorted IH]; intros bests entries Hf Hb He.
  - destruct bests, entries; try discriminate. reflexivity.
  - destruct bests as [|b bests]; [discriminate|].
    destruct entries as [|d entries]; [discriminate|].
    cbn [combine] in Hf. inversion Hf as [|? ? ? ? Hd Hrest]; subst.
    destruct Hd as (rej & -> & _ & _ & _ & Hr).
    cbn [List.concat map list_sum List.length fst snd] in *.
    rewrite length_app, (IH bests entries Hrest), Hr, length_map by congruence.
    simpl. lia.
Qed.

(** The outcome of the resolver on the groups found in records with
    distinct paths. *)
Lemma resolver_outcome (agents : list Agent) :
  NoDup (map path agents) ->
  let groups := group_loop is_duplicate agents [] [] in
  let uniques :=
    filter (fun a => negb (mem (path a) (map path (List.concat groups))))
           agents in
  exists sorted bests entries,
    select_best_from_groups (find_duplicates (loaded agents)) =
    Some {| all_agents := agents; duplicate_groups := sorted;
            unique_agents := uniques ++ bests; decision_log := entries |} /\
    Forall2 (fun g s => Permutation s g /\ Spec.descending quality_score s)
            groups sorted /\
    Forall2 Notion.logged_for sorted (combine bests entries) /\
    List.length bests = List.length sorted /\
    List.length entries = List.length sorted /\
    (List.length agents =
     List.length (uniques ++ bests) +
     list_sum (map (fun d => List.length (d_rejected d)) entries))%nat /\
    incl (uniques ++ bests) agents.
Proof.
  intros Hnd groups uniques.
  destruct (dedupe_groups_cover agents Hnd) as (Hne & Hcover).
  fold groups in Hne, Hcover. fold uniques in Hcover.
  destruct (select_loop_log groups Hne uniques [])
    as (sorted & bests & entries & Hsel & Hsorted & Hlog & Hb & He).
  exists sorted, bests, entries.
  assert (Hc : Permutation (List.concat sorted) (List.concat groups)).
  { clear - Hsorted. induction Hsorted as [|g s gs ss [Hp _] _ IH];
      [reflexivity|].
    cbn [List.concat]. now rewrite IH, Hp. }
  split; [|split; [exact Hsorted|split; [exact Hlog|split; [exact Hb|
           split; [exact He|split]]]]].
  - unfold select_best_from_groups.
    change (select_loop _ _ _) with (select_loop groups uniques []).
    rewrite Hsel. reflexivity.
  - rewrite <- (Permutation_length Hcover), !length_app.
    rewrite <- (Permutation_length Hc),
      (logged_rejections sorted bests entries Hlog Hb He). lia.
  - intros x Hx. apply (Permutation_in _ Hcover).
    apply in_app_or in Hx. apply in_or_app.
    destruct Hx as [Hx|Hx]; [now left|right].
    apply (Permutation_in _ Hc).
    clear - Hlog Hb He Hx. revert bests entries Hlog Hb He Hx.
    induction sorted as [|s sorted IH]; intros bests entries Hlog Hb He Hx.
    + destruct bests; [destruct Hx|discriminate].
    + destruct bests as [|b bests]; [discriminate|].
      destruct entries as [|d entries]; [discriminate|].
      cbn [combine] in Hlog. inversion Hlog as [|? ? ? ? Hd Hrest]; subst.
      destruct Hd as (rej & -> & _). cbn [List.concat fst app In].
      destruct Hx as [<-|Hx]; [now left|].
      right. apply in_or_app. right.
      apply (IH bests entries Hrest); simpl in *; congruence.
Qed.

(** The resolver logs one decision for every duplicate group, in order.
    It leaves the group sorted by descending score; the decision names
    the head of the sorted group as selected, with its score and its
    semantic key, and the other members as rejected; the selected record
    is among the survivors.  The records of the input are the survivors
    plus the records named as rejected: the number of removed duplicates
    that the script reports is the number of rejections it logs. *)
Theorem decision_log_accounts_for_rejections (agents : list Agent) :
  NoDup (map path agents) ->
  let st1 := find_duplicates (loaded agents) in
  exists st2,
    select_best_from_groups st1 = Some st2 /\
    Forall2 (fun g s => Permutation s g /\ Spec.descending quality_score s)
            (duplicate_groups st1) (duplicate_groups st2) /\
    Forall2 (fun s d =>
               exists best rejected,
                 s = best :: rejected /\ In best (unique_agents st2) /\
                 d = {| d_group := get_semantic_key (name best);
                        d_selected := name best;
                        d_score := quality_score best;
                        d_rejected := map name rejected |})
            (duplicate_groups st2) (decision_log st2) /\
    (List.length agents =
     List.length (unique_agents st2) +
     list_sum (map (fun d => List.length (d_rejected d)) (decision_log st2)))%nat.
Proof.
  intros Hnd st1.
  destruct (resolver_outcome agents Hnd)
    as (sorted & bests & entries & Hsel & Hsorted & Hlog & Hb & He & Hcount & _).
  eexists. split; [exact Hsel|].
  cbn [duplicate_groups unique_agents decision_log].
  split; [exact Hsorted|]. split; [|exact Hcount].
  generalize (filter (fun a => negb (mem (path a)
                (map path (List.concat (group_loop is_duplicate agents [] [])))))
                     agents).
  intro uniques.
  clear - Hlog Hb He. revert bests entries Hlog Hb He.
  induction sorted as [|s sorted IH]; intros bests entries Hlog Hb He.
  - destruct entries; [constructor|discriminate].
  - destruct bests as [|b bests]; [discriminate|].
    destruct entries as [|d entries]; [discriminate|].
    cbn [combine] in Hlog. inversion Hlog as [|? ? ? ? Hd Hrest]; subst.
    destruct Hd as (rej & -> & Hg & Hn & Hq & Hr).
    constructor.
    + exists b, rej. split; [reflexivity|].
      split; [apply in_or_app; right; now left|].
      destruct d; cbn in *; congruence.
    + assert (IH' := IH bests entries Hrest).
      eapply Forall2_impl; [|apply IH'; simpl in *; congruence].
      intros s' d' (best & rejected & E1 & Hin & E2).
      exists best, rejected. split; [exact E1|]. split; [|exact E2].
      apply in_app_or in Hin. apply in_or_app.
      destruct Hin as [Hin|Hin]; [now left|right; now right].
Qed.
End DecisionLog.

Lemma decision_log_accounts_for_rejections_witness :
  let agents :=
    [Sample.python_pro; Sample.rust_engineer; Sample.python_expert] in
  exists st2,
    Dedupe.select_best_from_groups
      (Dedupe.find_duplicates (Dedupe.loaded agents)) = Some st2 /\
    Dedupe.decision_log st2 =
    [ {| Dedupe.d_group := "python"; Dedupe.d_selected := "python-expert";
         Dedupe.d_score := 10; Dedupe.d_rejected := ["python-pro"] |} ] /\
    (3 = List.length (Dedupe.unique_agents st2) +
         list_sum (map (fun d => List.length (Dedupe.d_rejected d))
                       (Dedupe.decision_log st2)))%nat.
Proof.
  intro agents.
  assert (Hnd : NoDup (map Dedupe.path agents))
    by (repeat (constructor; [simpl; intuition discriminate|]); constructor).
  destruct (decision_log_accounts_for_rejections agents Hnd)
    as (st2 & Hsel & _ & _ & Hcount).
  exists st2. split; [exact Hsel|]. split; [|exact Hcount].
  vm_compute in Hsel. apply some_inj in Hsel. subst st2. reflexivity.
Defined.

(** ** Texts *)

Section TextFacts.
Local Open Scope string_scope.









End TextFacts.

(** ** The pattern matcher *)

Section MatcherFacts.
Import Re.
Local Open Scope string_scope.
Context {R : Type}.



(** A repetition that succeeds stopped somewhere. *)
Lemma plus_greedy_some (k : cclass) (s : string) (cap : option string)
      (kont : @cont R) (v : R) :
  forall pos,
    plus_greedy k pos s cap kont = Some v ->
    exists y r pos', y <> "" /\ s = y ++ r /\ kont pos' r cap = Some v.
Proof.
  induction s as [|c s IH]; intros pos H; [discriminate|].
  cbn [plus_greedy] in H. destruct (in_class k c); [|discriminate].
  destruct (plus_greedy k (S pos) s cap kont) as [w|] eqn:E.
  - simpl in H. rewrite <- H in *.
    destruct (IH _ E) as (y & r & pos' & Hy & Es & Hk).
    exists (String c y), r, pos'.
    split; [discriminate|]. split; [simpl; now rewrite Es|exact Hk].
  - simpl in H. exists (String c ""), s, (S pos).
    split; [discriminate|]. split; [reflexivity|exact H].
Qed.







End MatcherFacts.

(** ** The name normaliser *)

Section SuffixPatterns.
Import Re Dedupe.
Local Open Scope string_scope.






Lemma get_semantic_key_cleaned (name : string) :
  get_semantic_key name =
  match first_match (List.concat duplicate_patterns) (Notion.cleaned name) with
  | Some key => key
  | None => Notion.cleaned name
  end.
Proof. reflexivity. Qed.
End SuffixPatterns.

(** ** Cleaning a name *)

Section CleaningFacts.
Import Re.
Local Open Scope string_scope.

Lemma all_app (p : ascii -> bool) (s t : string) :
  Notion.all p (s ++ t) = Notion.all p s && Notion.all p t.
Proof.
  induction s as [|c s IH]; simpl; [reflexivity|].
  now rewrite IH, andb_assoc.
Qed.

Lemma all_impl (p q : ascii -> bool) (s : string) :
  (forall c, p c = true -> q c = true) ->
  Notion.all p s = true -> Notion.all q s = true.
Proof.
  intro H. induction s as [|c s IH]; simpl; [reflexivity|].
  intro Hs. apply andb_true_iff in Hs as [Hc Hs].
  now rewrite (H c Hc), IH.
Qed.


Lemma replace_none (p : ascii -> bool) (repl s : string) :
  Notion.all (fun c => negb (p c)) s = true -> Notion.replace p repl s = s.
Proof.
  induction s as [|c s IH]; simpl; [reflexivity|].
  intro H. apply andb_true_iff in H as [Hc Hs].
  apply negb_true_iff in Hc. now rewrite Hc, IH.
Qed.

Lemma all_replace (p q : ascii -> bool) (repl s : string) :
  Notion.all q repl = true ->
  Notion.all (fun c => p c || q c) s = true ->
  Notion.all q (Notion.replace p repl s) = true.
Proof.
  intro Hr. induction s as [|c s IH]; simpl; [reflexivity|].
  intro H. apply andb_true_iff in H as [Hc Hs].
  destruct (p c); simpl in *.
  - now rewrite all_app, Hr, IH.
  - now rewrite Hc, IH.
Qed.



(** Replacing every match of a one-character class. *)
Lemma sub_loop_replace_class (k : cclass) (repl s : string) :
  forall pos,
    sub_loop (One k) repl pos 0 s = Notion.replace (in_class k) repl s.
Proof.
  induction s as [|c s IH]; intro pos; [reflexivity|].
  cbn [sub_loop Notion.replace]. unfold match_at. cbn [rmatch].
  destruct (in_class k c); cbn [m_end].
  - replace (pos <? S pos)%nat with true by (symmetry; apply Nat.ltb_lt; lia).
    replace (S pos - pos - 1)%nat with 0%nat by lia.
    now rewrite IH.
  - now rewrite IH.
Qed.









End CleaningFacts.

(** ** Role variants of a stem *)

Section RoleVariants.
Import Re Dedupe Signal.
Local Open Scope string_scope.



End RoleVariants.


(** ** Numbers and names of files *)

Section FileNameFacts.
Import Text.
Local Open Scope string_scope.

Lemma string_of_uint_digits (d : Decimal.uint) :
  Notion.all Re.is_digit (DecimalString.NilEmpty.string_of_uint d) = true.
Proof. induction d; cbn [DecimalString.NilEmpty.string_of_uint Notion.all];
         [reflexivity|..]; rewrite IHd; reflexivity. Qed.

Lemma zeros_digits (n : nat) : Notion.all Re.is_digit (zeros n) = true.
Proof. induction n as [|n IH]; [reflexivity|]. cbn [zeros Notion.all].
       rewrite IH. reflexivity. Qed.

Lemma format_03d_digits (i : nat) :
  Notion.all Re.is_digit (format_03d i) = true.
Proof.
  unfold format_03d, str_nat.
  now rewrite all_app, zeros_digits, string_of_uint_digits.
Qed.

Lemma read_nat_zeros (k : nat) (s : string) :
  Notion.read_nat (zeros k ++ s) = Notion.read_nat s.
Proof.
  induction k as [|k IH]; [reflexivity|].
  rewrite <- IH. unfold Notion.read_nat. cbn [zeros append].
  cbn [DecimalString.NilEmpty.uint_of_string].
  destruct (DecimalString.NilEmpty.uint_of_string (zeros k ++ s));
    reflexivity.
Qed.

(** The number is read back from its formatted text. *)
Lemma read_nat_format (i : nat) : Notion.read_nat (format_03d i) = Some i.
Proof.
  unfold format_03d. rewrite read_nat_zeros.
  unfold Notion.read_nat, str_nat.
  rewrite DecimalString.NilEmpty.usu. cbn [option_map].
  now rewrite DecimalNat.Unsigned.of_to.
Qed.

Lemma format_03d_inj (i j : nat) : format_03d i = format_03d j -> i = j.
Proof.
  intro H. pose proof (read_nat_format i) as Hi.
  rewrite H, read_nat_format in Hi. now injection Hi.
Qed.

(** A run of digits that ends before a character other than a digit is
    determined by the text. *)
Lemma digits_prefix_unique (d1 d2 r1 r2 : string) (c1 c2 : ascii) :
  Notion.all Re.is_digit d1 = true -> Notion.all Re.is_digit d2 = true ->
  Re.is_digit c1 = false -> Re.is_digit c2 = false ->
  d1 ++ String c1 r1 = d2 ++ String c2 r2 -> d1 = d2.
Proof.
  revert d2. induction d1 as [|a d1 IH]; intros [|b d2] H1 H2 Hc1 Hc2 E;
    simpl in *.
  - reflexivity.
  - injection E as -> _. apply andb_true_iff in H2 as [H2 _]. congruence.
  - injection E as -> _. apply andb_true_iff in H1 as [H1 _]. congruence.
  - injection E as -> E.
    apply andb_true_iff in H1 as [_ H1]. apply andb_true_iff in H2 as [_ H2].
    f_equal. now apply IH.
Qed.

Lemma sub_non_word_app (extra s t : string) :
  sub_non_word extra (s ++ t) = sub_non_word extra s ++ sub_non_word extra t.
Proof. induction s as [|c s IH]; simpl; [reflexivity|now rewrite IH]. Qed.

Lemma sub_non_word_fixed (extra s : string) :
  Notion.all (fun c => is_word c || Re.mem_char c extra) s = true ->
  sub_non_word extra s = s.
Proof.
  induction s as [|c s IH]; simpl; [reflexivity|].
  intro H. apply andb_true_iff in H as [Hc Hs]. now rewrite Hc, IH.
Qed.

(** After the substitution only word characters and the characters
    named in the class are left. *)
Lemma sub_non_word_safe (extra s : string) :
  Notion.all (fun c => is_word c || Re.mem_char c extra)
             (sub_non_word extra s) = true.
Proof.
  induction s as [|c s IH]; [reflexivity|].
  cbn [sub_non_word Notion.all]. rewrite IH, andb_true_r.
  destruct (is_word c || Re.mem_char c extra) eqn:E; [exact E|reflexivity].
Qed.

Lemma sub_non_word_length (extra s : string) :
  String.length (sub_non_word extra s) = String.length s.
Proof. induction s as [|c s IH]; simpl; [reflexivity|now rewrite IH]. Qed.

Lemma digit_is_word (c : ascii) : Re.is_digit c = true -> is_word c = true.
Proof. destruct c as [[] [] [] [] [] [] [] []]; vm_compute; congruence. Qed.

Lemma digits_are_words (extra s : string) :
  Notion.all Re.is_digit s = true ->
  Notion.all (fun c => is_word c || Re.mem_char c extra) s = true.
Proof.
  apply all_impl. intros c H. now rewrite (digit_is_word c H).
Qed.

(** The part of a path after its last slash. *)
Lemma last_segment_unique (x1 x2 f1 f2 : string) :
  Notion.all (fun c => negb (Ascii.eqb c "/")) f1 = true ->
  Notion.all (fun c => negb (Ascii.eqb c "/")) f2 = true ->
  x1 ++ "/" ++ f1 = x2 ++ "/" ++ f2 -> f1 = f2.
Proof.
  assert (Hno : forall x f g,
             Notion.all (fun c => negb (Ascii.eqb c "/")) f = true ->
             f <> x ++ "/" ++ g).
  { intros x f g Hf E. rewrite E, all_app in Hf.
    apply andb_true_iff in Hf as [_ Hf]. discriminate. }
  revert x2. induction x1 as [|a x1 IH]; intros [|b x2] H1 H2 E;
    simpl in E.
  - now injection E.
  - injection E as _ E. now apply Hno in E.
  - injection E as _ E. symmetry in E. now apply Hno in E.
  - injection E as _ E. now apply (IH x2).
Qed.

Lemma safe_has_no_slash (extra s : string) :
  Re.mem_char "/" extra = false ->
  Notion.all (fun c => is_word c || Re.mem_char c extra) s = true ->
  Notion.all (fun c => negb (Ascii.eqb c "/")) s = true.
Proof.
  intro He. apply all_impl. intros c H.
  destruct (Ascii.eqb c "/") eqn:E; [|reflexivity].
  apply Ascii.eqb_eq in E. subst c. rewrite He in H. discriminate.
Qed.
End FileNameFacts.

(** ** The stable ascending sort *)

Section SortByFacts.
Context {A K : Type} (ltb : K -> K -> bool) (key : A -> K).

Hypothesis ltb_asym : forall x y, ltb x y = true -> ltb y x = false.

Lemma insert_asc_perm (x : A) (l : list A) :
  Permutation (insert_asc ltb key x l) (x :: l).
Proof.
  induction l as [|y l IH]; simpl; [reflexivity|].
  destruct (ltb (key y) (key x)); [|reflexivity].
  rewrite IH. apply perm_swap.
Qed.

Lemma sort_asc_perm (l : list A) : Permutation (sort_asc ltb key l) l.
Proof.
  induction l as [|x l IH]; simpl; [reflexivity|].
  rewrite insert_asc_perm. now constructor.
Qed.

Lemma insert_asc_sorted (x : A) (l : list A) :
  Sorted (Notion.not_after ltb key) l ->
  Sorted (Notion.not_after ltb key) (insert_asc ltb key x l).
Proof.
  induction l as [|y l IH]; intro H; simpl.
  - repeat constructor.
  - inversion H as [|? ? Hl Hy]; subst.
    destruct (ltb (key y) (key x)) eqn:E.
    + constructor; [apply IH, Hl|].
      destruct l as [|z l]; simpl.
      * constructor. unfold Notion.not_after. now apply ltb_asym.
      * destruct (ltb (key z) (key x)) eqn:Ez.
        -- constructor. now inversion Hy.
        -- constructor. unfold Notion.not_after. now apply ltb_asym.
    + constructor; [exact H|]. constructor. exact E.
Qed.

Lemma sort_asc_sorted (l : list A) :
  Sorted (Notion.not_after ltb key) (sort_asc ltb key l).
Proof.
  induction l as [|x l IH]; simpl; [constructor|].
  apply insert_asc_sorted, IH.
Qed.
End SortByFacts.

Lemma string_ltb_asym (x y : string) :
  String.ltb x y = true -> String.ltb y x = false.
Proof.
  unfold String.ltb. rewrite (String.compare_antisym y x).
  destruct (String.compare x y); simpl; congruence.
Qed.

(** ** Writing the deduplicated collection *)

Section SaverFacts.
Import Dedupe Saver.
Local Open Scope string_scope.

Lemma categorize_in_save_dirs (name_lower : string) :
  In (categorize name_lower) Notion.save_dirs.
Proof.
  unfold categorize.
  repeat match goal with
         | |- In (if ?c then _ else _) _ =>
             destruct c; [unfold Notion.save_dirs; simpl; tauto|]
         end.
  unfold Notion.save_dirs; simpl; tauto.
Qed.

(** The name of the file written for the agent numbered [i]. *)
Lemma save_agent_filename (i : nat) (agent : Agent) :
  w_filename (snd (save_agent i agent)) =
  Text.format_03d i ++ "_" ++ Text.sub_non_word "-" (name agent) ++ ".md".
Proof. unfold save_agent. destruct (categorize _). reflexivity. Qed.

Lemma save_agent_fields (i : nat) (agent : Agent) :
  let e := fst (save_agent i agent) in
  let w := snd (save_agent i agent) in
  s_id e = i /\ s_name e = name agent /\
  s_quality_score e = quality_score agent /\
  (s_category e, s_subcategory e) = categorize (Py.lower (name agent)) /\
  w_category w = s_category e /\ w_subcategory w = s_subcategory e /\
  w_text w = content agent /\
  s_path e = (s_category e ++ "/" ++ s_subcategory e) ++ "/" ++ w_filename w.
Proof.
  unfold save_agent. destruct (categorize _) as [c s]. cbn.
  repeat split. now rewrite !append_assoc.
Qed.

Lemma filename_safe (i : nat) (agent : Agent) :
  Notion.all Notion.safe_char (w_filename (snd (save_agent i agent))) = true.
Proof.
  rewrite save_agent_filename, !all_app.
  assert (Hd : Notion.all Notion.safe_char (Text.format_03d i) = true).
  { apply (digits_are_words "-."), format_03d_digits. }
  assert (Hn : Notion.all Notion.safe_char
                          (Text.sub_non_word "-" (name agent)) = true).
  { eapply all_impl; [|apply (sub_non_word_safe "-")].
    intros c. unfold Notion.safe_char. cbn [Re.mem_char].
    destruct (Text.is_word c); [reflexivity|]. cbn [orb].
    destruct (Ascii.eqb c "-"); [reflexivity|discriminate]. }
  now rewrite Hd, Hn.
Qed.

Lemma filename_number (i j : nat) (a b : Agent) :
  w_filename (snd (save_agent i a)) = w_filename (snd (save_agent j b)) ->
  i = j.
Proof.
  rewrite !save_agent_filename. intro E.
  apply format_03d_inj.
  apply (digits_prefix_unique _ _ _ _ "_"%char "_"%char) in E;
    [exact E|apply format_03d_digits|apply format_03d_digits|
     reflexivity|reflexivity].
Qed.

Lemma save_loop_length (agents : list Agent) :
  forall i, List.length (save_loop i agents) = List.length agents.
Proof. induction agents as [|a l IH]; intro i; simpl; [|rewrite IH]; reflexivity. Qed.

Lemma save_loop_ids (agents : list Agent) :
  forall i, map (fun r => s_id (fst r)) (save_loop i agents) =
            List.seq i (List.length agents).
Proof.
  induction agents as [|a l IH]; intro i; [reflexivity|].
  cbn [save_loop map List.length List.seq]. rewrite IH. f_equal.
  apply save_agent_fields.
Qed.

(** The entries of the loop started at [i] bear numbers from [i] on. *)
Lemma save_loop_numbers (agents : list Agent) :
  forall i r, In r (save_loop i agents) ->
              exists j a, (i <= j)%nat /\ In a agents /\ r = save_agent j a.
Proof.
  induction agents as [|a l IH]; intros i r Hr; [destruct Hr|].
  destruct Hr as [<-|Hr].
  - exists i, a. split; [lia|]. split; [now left|reflexivity].
  - destruct (IH _ _ Hr) as (j & b & Hj & Hb & E).
    exists j, b. split; [lia|]. split; [now right|exact E].
Qed.

Lemma save_loop_distinct (agents : list Agent) :
  forall i, NoDup (map (fun r => w_filename (snd r)) (save_loop i agents)).
Proof.
  induction agents as [|a l IH]; intro i; [constructor|].
  cbn [save_loop map]. constructor; [|apply IH].
  intro Hin. apply in_map_iff in Hin as (r & E & Hr).
  apply save_loop_numbers in Hr as (j & b & Hj & _ & ->).
  apply filename_number in E. lia.
Qed.

(** [save_deduplicated_collection] writes one file for every survivor.
    The files are numbered from 1 in the order of the sorted survivors
    and the index counts them; every file lies in one of sixteen known
    directories and holds the content of its survivor; its name is made
    of word characters, hyphens and dots only, so it names no other
    directory; no two files have the same name, so that no file is
    overwritten, and no two entries of the index have the same path. *)
Theorem saved_files_are_distinct_and_safe (st : State) :
  let st' := fst (save_deduplicated_collection st) in
  let out := snd (save_deduplicated_collection st) in
  let n := List.length (unique_agents st) in
  total (o_index out) = n /\ unique_count (o_log out) = n /\
  List.length (o_files out) = n /\
  map s_id (agents (o_index out)) = List.seq 1 n /\
  Forall2 (fun agent r =>
             s_name (fst r) = name agent /\
             s_quality_score (fst r) = quality_score agent /\
             w_text (snd r) = content agent /\
             w_category (snd r) = s_category (fst r) /\
             w_subcategory (snd r) = s_subcategory (fst r) /\
             s_path (fst r) =
             (s_category (fst r) ++ "/" ++ s_subcategory (fst r)) ++ "/" ++
             w_filename (snd r))
          (unique_agents st')
          (combine (agents (o_index out)) (o_files out)) /\
  Forall (fun w => In (w_category w, w_subcategory w) Notion.save_dirs /\
                   Notion.all Notion.safe_char (w_filename w) = true)
         (o_files out) /\
  NoDup (map w_filename (o_files out)) /\
  NoDup (map s_path (agents (o_index out))).
Proof.
  intros st' out n.
  set (sorted := sort_asc String.ltb (fun x => Py.lower (name x))
                          (unique_agents st)).
  assert (Hn : List.length sorted = n)
    by (apply Permutation_length, sort_asc_perm).
  assert (Hfiles : o_files out = map snd (save_loop 1 sorted)) by reflexivity.
  assert (Hidx : agents (o_index out) = map fst (save_loop 1 sorted))
    by reflexivity.
  assert (Hsafe : forall r, In r (save_loop 1 sorted) ->
            In (w_category (snd r), w_subcategory (snd r)) Notion.save_dirs /\
            Notion.all Notion.safe_char (w_filename (snd r)) = true /\
            s_path (fst r) =
            (s_category (fst r) ++ "/" ++ s_subcategory (fst r)) ++ "/" ++
            w_filename (snd r)).
  { intros r Hr. apply save_loop_numbers in Hr as (j & a & _ & _ & ->).
    destruct (save_agent_fields j a) as (_ & _ & _ & Hc & Hwc & Hws & _ & Hp).
    split; [|split; [apply filename_safe|exact Hp]].
    rewrite Hwc, Hws, Hc. apply categorize_in_save_dirs. }
  split; [|split; [|split; [|split; [|split; [|split; [|split]]]]]].
  - cbn. now rewrite length_map, save_loop_length.
  - exact Hn.
  - rewrite Hfiles, length_map, save_loop_length. exact Hn.
  - rewrite Hidx, map_map, save_loop_ids, Hn. reflexivity.
  - rewrite Hidx, Hfiles. change (unique_agents st') with sorted.
    generalize 1%nat. clear. induction sorted as [|a l IH]; intro i;
      [constructor|].
    cbn [save_loop map combine]. constructor; [|apply IH].
    destruct (save_agent_fields i a) as (_ & Hn & Hq & _ & Hc & Hs & Ht & Hp).
    repeat split; assumption.
  - rewrite Hfiles. apply Forall_forall. intros w Hw.
    apply in_map_iff in Hw as (r & <- & Hr).
    destruct (Hsafe r Hr) as (Hd & Hs & _). split; assumption.
  - rewrite Hfiles, map_map. apply save_loop_distinct.
  - rewrite Hidx, map_map.
    pose proof (save_loop_distinct sorted 1) as Hnd.
    revert Hsafe Hnd. generalize (save_loop 1 sorted). clear.
    induction l as [|r l IH]; intros Hsafe Hnd; [constructor|].
    cbn [map] in *. inversion Hnd as [|? ? Hr Hl]; subst.
    constructor; [|apply IH; [intros; apply Hsafe; now right|exact Hl]].
    intro Hin. apply Hr. apply in_map_iff in Hin as (r' & E & Hr').
    apply in_map_iff. exists r'. split; [|exact Hr'].
    destruct (Hsafe r (or_introl eq_refl)) as (_ & Hs & Hp).
    destruct (Hsafe r' (or_intror Hr')) as (_ & Hs' & Hp').
    rewrite Hp, Hp' in E.
    apply last_segment_unique in E; [exact E| |];
      apply (safe_has_no_slash "-."); try reflexivity; assumption.
Qed.

(** The survivors are numbered in the order of their lowercased names:
    the list left in [unique_agents] is a rearrangement of the survivors
    in which no record is followed by one with a smaller lowercased
    name, and the entries of the index follow it. *)
Theorem saved_numbering_follows_names (st : State) :
  let st' := fst (save_deduplicated_collection st) in
  let out := snd (save_deduplicated_collection st) in
  Permutation (unique_agents st') (unique_agents st) /\
  Sorted (fun x y => String.ltb (Py.lower (name y)) (Py.lower (name x)) = false)
         (unique_agents st') /\
  map s_name (agents (o_index out)) = map name (unique_agents st') /\
  all_agents st' = all_agents st /\
  duplicate_groups st' = duplicate_groups st /\
  decision_log st' = decision_log st.
Proof.
  intros st' out.
  split; [apply sort_asc_perm|].
  split; [apply (sort_asc_sorted String.ltb (fun x => Py.lower (name x))
                                 string_ltb_asym)|].
  split; [|repeat split].
  change (agents (o_index out))
    with (map fst (save_loop 1 (unique_agents st'))).
  generalize 1%nat. induction (unique_agents st') as [|a l IH]; intro i;
    [reflexivity|].
  cbn [save_loop map]. rewrite IH. f_equal. apply save_agent_fields.
Qed.
End SaverFacts.

(** ** The whole run of [intelligent_dedupe.py] *)

Section DedupeRun.
Import Dedupe Saver.

Variable yaml_parse : string -> option Yaml.value.

Lemma load_agents_from_files (files : list File) (agent : Agent) :
  In agent (load_agents yaml_parse files) ->
  exists f, In f files /\ load_agent yaml_parse f = Some agent.
Proof.
  induction files as [|f files IH]; intro H; [destruct H|].
  cbn [load_agents] in H.
  destruct (load_agent yaml_parse f) as [a|] eqn:E.
  - destruct H as [<-|H]; [exists f; split; [now left|exact E]|].
    destruct (IH H) as (g & Hg & Eg). exists g. split; [now right|exact Eg].
  - destruct (IH H) as (g & Hg & Eg). exists g. split; [now right|exact Eg].
Qed.

Lemma load_agents_length (files : list File) :
  (List.length (load_agents yaml_parse files) <= List.length files)%nat.
Proof.
  induction files as [|f files IH]; [simpl; lia|].
  cbn [load_agents]. destruct (load_agent yaml_parse f); simpl; lia.
Qed.

(** On files with distinct paths the run never raises after loading:
    the resolver finds no empty group.  The log counts the loaded
    records, at most one for each file; they are the survivors plus the
    records named as rejected in the decisions, of which there is one
    for every duplicate group; the index counts the survivors, one file
    is written for each of them, and every file written holds the text of
    one of the input files, header included. *)
Theorem run_accounts_for_every_file (files : list File) :
  NoDup (map f_path files) ->
  exists st out,
    run yaml_parse files = Some (st, out) /\
    (original_count (o_log out) <= List.length files)%nat /\
    (original_count (o_log out) =
     unique_count (o_log out) +
     list_sum (map (fun d => List.length (d_rejected d))
                   (decisions (o_log out))))%nat /\
    duplicate_groups_count (o_log out) = List.length (decisions (o_log out)) /\
    total (o_index out) = unique_count (o_log out) /\
    List.length (o_files out) = unique_count (o_log out) /\
    Forall (fun w => exists f, In f files /\ w_text w = f_text f)
           (o_files out).
Proof.
  intro Hfiles.
  set (loaded_agents := load_agents yaml_parse files).
  assert (Hnd : NoDup (map path loaded_agents))
    by (apply load_agents_distinct_paths, Hfiles).
  destruct (resolver_outcome loaded_agents Hnd)
    as (sorted & bests & entries & Hsel & _ & _ & _ & He & Hcount & Hincl).
  set (uniques := filter _ loaded_agents) in *.
  set (st2 := {| all_agents := loaded_agents; duplicate_groups := sorted;
                 unique_agents := uniques ++ bests;
                 decision_log := entries |}) in *.
  exists (fst (save_deduplicated_collection st2)),
         (snd (save_deduplicated_collection st2)).
  assert (Hperm : Permutation
                    (sort_asc String.ltb (fun x => Py.lower (name x))
                              (uniques ++ bests))
                    (uniques ++ bests)) by apply sort_asc_perm.
  assert (Hout : snd (save_deduplicated_collection st2) =
                 let sorted' :=
                   sort_asc String.ltb (fun x => Py.lower (name x))
                            (uniques ++ bests) in
                 {| o_files := map snd (save_loop 1 sorted');
                    o_log := {| original_count := List.length loaded_agents;
                                unique_count := List.length sorted';
                                duplicate_groups_count := List.length sorted;
                                decisions := entries |};
                    o_index := {| total := List.length
                                             (map fst (save_loop 1 sorted'));
                                  agents := map fst (save_loop 1 sorted') |} |})
    by reflexivity.
  rewrite Hout. cbv zeta.
  cbn [o_files o_log o_index original_count unique_count
       duplicate_groups_count decisions total agents].
  split; [|split; [|split; [|split; [|split; [|split]]]]].
  - unfold run. fold loaded_agents. rewrite Hsel.
    rewrite (surjective_pairing (save_deduplicated_collection st2)), Hout.
    reflexivity.
  - apply load_agents_length.
  - rewrite (Permutation_length Hperm). exact Hcount.
  - now rewrite He.
  - now rewrite length_map, save_loop_length.
  - now rewrite length_map, save_loop_length.
  - apply Forall_forall. intros w Hw.
    apply in_map_iff in Hw as (r & <- & Hr).
    apply save_loop_numbers in Hr as (j & a & _ & Ha & ->).
    apply (Permutation_in _ Hperm), Hincl in Ha.
    apply load_agents_from_files in Ha as (f & Hf & Hl).
    exists f. split; [exact Hf|].
    destruct (save_agent_fields j a) as (_ & _ & _ & _ & _ & _ & Ht & _).
    rewrite Ht. apply (load_agent_content _ _ _ Hl).
Qed.
End DedupeRun.

Lemma run_accounts_for_every_file_witness :
  exists st out,
    Saver.run (fun _ => None) [Sample.ruled_file; Sample.bare_file] =
    Some (st, out) /\
    (Saver.original_count (Saver.o_log out) <= 2)%nat /\
    Saver.total (Saver.o_index out) = Saver.unique_count (Saver.o_log out).
Proof.
  destruct (run_accounts_for_every_file
              (fun _ => None) [Sample.ruled_file; Sample.bare_file])
    as (st & out & Hrun & Hle & _ & _ & Htotal & _).
  - repeat (constructor; [simpl; intuition discriminate|]); constructor.
  - exists st, out. split; [exact Hrun|]. split; [exact Hle|exact Htotal].
Defined.

(** ** Collecting the records of [collect_agents.py] *)

Section CollectFacts.
Import Collector Collecting.

Variable yaml_parse : string -> option Yaml.value.
Variable md5_hexdigest : string -> string.

Abbreviation collect_file := (Collecting.collect_file yaml_parse md5_hexdigest).

(** The score reads the header and the content only, the
    classification the name, the description and the content. *)
Lemma score_reads_header_and_content (a b : Agent) :
  yaml_frontmatter a = yaml_frontmatter b -> content a = content b ->
  calculate_quality_score a = calculate_quality_score b.
Proof.
  intros Hy Hc. unfold calculate_quality_score, frontmatter_points.
  now rewrite Hy, Hc.
Qed.

Lemma categorize_reads_texts cats (a b : Agent) :
  name a = name b -> description a = description b ->
  content a = content b ->
  categorize_with cats a = categorize_with cats b.
Proof.
  intros Hn Hd Hc. unfold categorize_with. now rewrite Hn, Hd, Hc.
Qed.

(** What a collected record holds. *)
Lemma collect_file_collected (repo_name : string) (file : File)
      (agent : Agent) :
  collect_file repo_name file = Collected agent ->
  let header := fst (extract_yaml_frontmatter yaml_parse (f_text file)) in
  Text.any_in skipped_names (Py.lower (f_name file)) = false /\
  (Yaml.truthy header = true \/
   Text.any_in markers (Py.take 200 (f_text file)) = true) /\
  original_path agent = f_path file /\ source_repo agent = repo_name /\
  content agent = f_text file /\
  content_hash agent = md5_hexdigest (f_text file) /\
  agent_id agent = 0%Z /\ yaml_frontmatter agent = header /\
  Yaml.py_get header "name" (Yaml.VStr (f_stem file)) =
  Some (Yaml.VStr (name agent)) /\
  Yaml.py_get header "description" (Yaml.VStr "") =
  Some (Yaml.VStr (description agent)) /\
  Yaml.py_get header "tools" (Yaml.VSeq []) = Some (tools agent) /\
  calculate_quality_score agent = Some (quality_score agent) /\
  categorize_agent agent = (category agent, subcategory agent).
Proof.
  unfold Collecting.collect_file.
  destruct (Text.any_in skipped_names _) eqn:Hskip; [discriminate|].
  destruct (extract_yaml_frontmatter yaml_parse (f_text file))
    as [header body] eqn:Hx.
  cbn [fst].
  destruct (Yaml.py_get header "name" _) as [nv|] eqn:Hn; [|discriminate].
  destruct (Yaml.py_get header "description" _) as [dv|] eqn:Hd;
    [|discriminate].
  destruct (Yaml.py_get header "tools" _) as [tv|] eqn:Ht; [|discriminate].
  destruct (negb (Yaml.truthy header) && negb (Text.any_in markers _)) eqn:Hm;
    [discriminate|].
  destruct nv as [| | | |n| |]; try discriminate.
  destruct dv as [| | | |d| |]; try discriminate.
  match goal with
  | |- context [calculate_quality_score ?x] => set (agent0 := x)
  end.
  destruct (calculate_quality_score agent0) as [score|] eqn:Hs;
    [|discriminate].
  destruct (categorize_agent (set_quality_score agent0 score)) as [c s] eqn:Hc.
  intro H. injection H as <-.
  split; [reflexivity|]. split.
  { apply andb_false_iff in Hm as [Hm|Hm]; apply negb_false_iff in Hm; auto. }
  do 9 (split; [reflexivity|]).
  cbn [quality_score category subcategory set_category set_quality_score].
  split.
  - rewrite <- Hs. now apply score_reads_header_and_content.
  - rewrite <- Hc. unfold categorize_agent.
    now apply categorize_reads_texts.
Qed.

(** A record is collected only from a file that is not skipped by its
    name and that has a header or a marker in its first 200 characters.
    It holds the path and the whole text of the file, header included,
    the name and the description found in the header, which are texts,
    or else the stem of the file and the empty text; and it is stored
    with the score that the scorer gives it and under the category that
    the classifier gives it, the score lying between 0 and 60. *)
Theorem collected_record_is_consistent (repo_name : string) (file : File)
        (agent : Agent) :
  collect_file repo_name file = Collected agent ->
  let header := fst (extract_yaml_frontmatter yaml_parse (f_text file)) in
  Text.any_in skipped_names (Py.lower (f_name file)) = false /\
  (Yaml.truthy header = true \/
   Text.any_in markers (Py.take 200 (f_text file)) = true) /\
  original_path agent = f_path file /\ source_repo agent = repo_name /\
  content agent = f_text file /\ yaml_frontmatter agent = header /\
  Yaml.py_get header "name" (Yaml.VStr (f_stem file)) =
  Some (Yaml.VStr (name agent)) /\
  Yaml.py_get header "description" (Yaml.VStr "") =
  Some (Yaml.VStr (description agent)) /\
  calculate_quality_score agent = Some (quality_score agent) /\
  (0 <= quality_score agent <= 60)%Z /\
  categorize_agent agent = (category agent, subcategory agent).
Proof.
  intros H header.
  destruct (collect_file_collected _ _ _ H)
    as (Hskip & Hm & Hp & Hr & Hc & _ & _ & Hy & Hn & Hd & _ & Hs & Hcat).
  destruct (collector_score_split _ _ Hs) as (p & _ & Hp25 & Hp35).
  repeat (split; [assumption|]). split; [lia|exact Hcat].
Qed.

(** A file without header, not skipped by its name, is collected exactly
    when one of the markers [You are], [Your role] and [## ] occurs,
    in this spelling, in its first 200 characters; the record is then
    named after the file, has an empty description and no tools, and a
    score between 0 and 35. *)
Theorem plain_file_needs_marker (repo_name : string) (file : File) :
  Py.startswith "---" (f_text file) = false ->
  Text.any_in skipped_names (Py.lower (f_name file)) = false ->
  (Text.any_in markers (Py.take 200 (f_text file)) = false ->
   collect_file repo_name file = Skipped) /\
  (Text.any_in markers (Py.take 200 (f_text file)) = true ->
   exists agent,
     collect_file repo_name file = Collected agent /\
     name agent = f_stem file /\ description agent = "" /\
     tools agent = Yaml.VSeq [] /\ yaml_frontmatter agent = Yaml.empty /\
     (0 <= quality_score agent <= 35)%Z).
Proof.
  intros Hplain Hskip.
  assert (Hx : extract_yaml_frontmatter yaml_parse (f_text file) =
               (Yaml.empty, f_text file)).
  { unfold extract_yaml_frontmatter. now rewrite Hplain. }
  split; intro Hm.
  - unfold Collecting.collect_file. rewrite Hskip, Hx.
    cbn [Yaml.py_get Yaml.empty Yaml.lookup Yaml.truthy]. now rewrite Hm.
  - assert (Hex : exists agent, collect_file repo_name file = Collected agent).
    { unfold Collecting.collect_file. rewrite Hskip, Hx.
      cbn [Yaml.py_get Yaml.empty Yaml.lookup Yaml.truthy]. rewrite Hm.
      cbn [negb andb].
      match goal with
      | |- context [calculate_quality_score ?x] => set (agent0 := x)
      end.
      assert (Hfp : frontmatter_points agent0 = Some 0%Z) by reflexivity.
      destruct (calculate_quality_score agent0) as [score|] eqn:Hs.
      - destruct (categorize_agent (set_quality_score agent0 score)).
        eexists. reflexivity.
      - exfalso. revert Hs. unfold calculate_quality_score. rewrite Hfp.
        cbv zeta. discriminate. }
    destruct Hex as (agent & E).
    exists agent. split; [exact E|].
    destruct (collect_file_collected _ _ _ E)
      as (_ & _ & _ & _ & _ & _ & _ & Hy & Hn & Hd & Ht & Hs & _).
    rewrite Hx in Hy, Hn, Hd, Ht. cbn [fst] in Hy, Hn, Hd, Ht.
    cbn [Yaml.py_get Yaml.empty Yaml.lookup] in Hn, Hd, Ht.
    apply some_inj in Hn, Hd, Ht.
    injection Hn as Hn. injection Hd as Hd.
    split; [now symmetry|]. split; [now symmetry|].
    split; [now symmetry|]. split; [exact Hy|].
    destruct (collector_score_split _ _ Hs) as (p & Hfp & _ & Hp35).
    unfold frontmatter_points in Hfp. rewrite Hy in Hfp.
    cbn [Yaml.truthy Yaml.empty] in Hfp. apply some_inj in Hfp. lia.
Qed.
End CollectFacts.

(** ** Organising the records of [collect_agents.py] *)

Section OrganizeFacts.
Import Collector Collecting.
Local Open Scope string_scope.

Lemma tuple_ltb_asym (x y : string * string * string) :
  tuple_ltb x y = true -> tuple_ltb y x = false.
Proof.
  unfold tuple_ltb.
  rewrite (String.compare_antisym (fst (fst y)) (fst (fst x))),
          (String.compare_antisym (snd (fst y)) (snd (fst x))).
  destruct (String.compare (fst (fst x)) (fst (fst y)));
    destruct (String.compare (snd (fst x)) (snd (fst y)));
    cbn [CompOpp]; try congruence.
  apply string_ltb_asym.
Qed.

(** The number and the hyphen after it pass through the substitution. *)
Lemma file_name_shape (i : nat) (agent : Agent) :
  file_name i agent =
  Text.format_03d i ++
  String "-" (Text.sub_non_word "-."
                (category agent ++ "-" ++ subcategory agent ++ "-" ++
                 name agent ++ ".md")).
Proof.
  unfold file_name. rewrite sub_non_word_app.
  rewrite (sub_non_word_fixed "-." (Text.format_03d i))
    by apply digits_are_words, format_03d_digits.
  reflexivity.
Qed.

Lemma file_name_safe (i : nat) (agent : Agent) :
  Notion.all Notion.safe_char (file_name i agent) = true.
Proof. apply (sub_non_word_safe "-."). Qed.

Lemma file_name_number (i j : nat) (a b : Agent) :
  file_name i a = file_name j b -> i = j.
Proof.
  rewrite !file_name_shape. intro E. apply format_03d_inj.
  apply (digits_prefix_unique _ _ _ _ "-"%char "-"%char) in E;
    [exact E|apply format_03d_digits|apply format_03d_digits|
     reflexivity|reflexivity].
Qed.


Lemma organize_loop_numbers (agents : list Agent) :
  forall i r, In r (organize_loop i agents) ->
              exists j a, (i <= j)%nat /\ In a agents /\
                          r = organize_agent j a.
Proof.
  induction agents as [|a l IH]; intros i r Hr; [destruct Hr|].
  destruct Hr as [<-|Hr].
  - exists i, a. split; [lia|]. split; [now left|reflexivity].
  - destruct (IH _ _ Hr) as (j & b & Hj & Hb & E).
    exists j, b. split; [lia|]. split; [now right|exact E].
Qed.

Lemma organize_loop_distinct (agents : list Agent) :
  forall i,
    NoDup (map (fun r => w_filename (snd r)) (organize_loop i agents)).
Proof.
  induction agents as [|a l IH]; intro i; [constructor|].
  cbn [organize_loop map]. constructor; [|apply IH].
  intro Hin. apply in_map_iff in Hin as (r & E & Hr).
  apply organize_loop_numbers in Hr as (j & b & Hj & _ & ->).
  cbn [organize_agent snd w_filename] in E.
  apply file_name_number in E. lia.
Qed.

Lemma organize_loop_ids (agents : list Agent) :
  forall i, map (fun r => agent_id (fst r)) (organize_loop i agents) =
            map Z.of_nat (List.seq i (List.length agents)).
Proof.
  induction agents as [|a l IH]; intro i; [reflexivity|].
  cbn [organize_loop map List.length List.seq]. now rewrite IH.
Qed.

Lemma organize_loop_records (agents : list Agent) :
  forall i, map (fun r => set_agent_id (fst r) 0) (organize_loop i agents) =
            map (fun a => set_agent_id a 0) agents.
Proof.
  induction agents as [|a l IH]; intro i; [reflexivity|].
  cbn [organize_loop map]. now rewrite IH.
Qed.

Lemma organize_loop_keys (agents : list Agent) :
  forall i, map (fun r => sort_key (fst r)) (organize_loop i agents) =
            map sort_key agents.
Proof.
  induction agents as [|a l IH]; intro i; [reflexivity|].
  cbn [organize_loop map]. now rewrite IH.
Qed.

Lemma sorted_keys {A K : Type} (ltb : K -> K -> bool) (key : A -> K)
      (l : list A) :
  Sorted (Notion.not_after ltb key) l ->
  Sorted (fun x y => ltb y x = false) (map key l).
Proof.
  induction 1 as [|x l _ IH Hx]; [constructor|].
  cbn [map]. constructor; [exact IH|].
  destruct Hx; constructor. assumption.
Qed.

(** [organize_agents] leaves in [unique_agents] the records it was
    given, rearranged so that no tuple of category, subcategory and name
    is followed by a smaller one, and numbered from 1 in this order.  It
    writes one file for every record, holding its content, in the
    directory of its category and subcategory; the name of the file is
    made of word characters, hyphens and dots only, and no two files
    have the same name. *)
Theorem organized_files_are_distinct_and_safe (unique_agents : list Agent) :
  let organized := fst (organize_agents unique_agents) in
  let files := snd (organize_agents unique_agents) in
  let n := List.length unique_agents in
  Permutation (map (fun a => set_agent_id a 0) organized)
              (map (fun a => set_agent_id a 0) unique_agents) /\
  Sorted (fun x y => tuple_ltb y x = false) (map sort_key organized) /\
  map agent_id organized = map Z.of_nat (List.seq 1 n) /\
  Forall2 (fun a w =>
             w_category w = category a /\ w_subcategory w = subcategory a /\
             w_text w = content a /\
             exists i, agent_id a = Z.of_nat i /\ w_filename w = file_name i a)
          organized files /\
  Forall (fun w => Notion.all Notion.safe_char (w_filename w) = true) files /\
  NoDup (map w_filename files).
Proof.
  intros organized files n.
  set (sorted := sort_asc tuple_ltb sort_key unique_agents).
  assert (Ho : organized = map fst (organize_loop 1 sorted)) by reflexivity.
  assert (Hf : files = map snd (organize_loop 1 sorted)) by reflexivity.
  assert (Hperm : Permutation sorted unique_agents) by apply sort_asc_perm.
  split; [|split; [|split; [|split; [|split]]]].
  - rewrite Ho, map_map, organize_loop_records. now apply Permutation_map.
  - rewrite Ho, map_map, organize_loop_keys.
    apply sorted_keys, (sort_asc_sorted _ _ tuple_ltb_asym).
  - rewrite Ho, map_map, organize_loop_ids.
    now rewrite (Permutation_length Hperm).
  - rewrite Ho, Hf. generalize 1%nat. clear.
    induction sorted as [|a l IH]; intro i; [constructor|].
    cbn [organize_loop map]. constructor; [|apply IH].
    cbn. repeat split. exists i. split; reflexivity.
  - rewrite Hf. apply Forall_forall. intros w Hw.
    apply in_map_iff in Hw as (r & <- & Hr).
    apply organize_loop_numbers in Hr as (j & a & _ & _ & ->).
    apply file_name_safe.
  - rewrite Hf, map_map. apply organize_loop_distinct.
Qed.
End OrganizeFacts.

(** ** The index of [collect_agents.py] *)

Section IndexFacts.
Import Collector Collecting.

Lemma count_subcategory_spec (s s' : string) (counts : list (string * nat)) :
  Notion.count_in s' (count_subcategory s counts) =
  (Notion.count_in s' counts + if (s =? s')%string then 1 else 0)%nat.
Proof.
  unfold Notion.count_in.
  induction counts as [|[k n] rest IH]; cbn [count_subcategory find fst snd].
  - destruct (s =? s'); reflexivity.
  - destruct (k =? s)%string eqn:Eks; cbn [find fst snd].
    + apply String.eqb_eq in Eks. subst k.
      destruct (s =? s'); cbn [snd]; lia.
    + destruct (k =? s')%string eqn:Eks'; [|exact IH].
      apply String.eqb_eq in Eks'. subst k.
      rewrite String.eqb_sym, Eks. cbn [snd]. lia.
Qed.

Lemma count_subcategory_sum (s : string) (counts : list (string * nat)) :
  list_sum (map snd (count_subcategory s counts)) =
  S (list_sum (map snd counts)).
Proof.
  unfold list_sum. induction counts as [|[k n] rest IH]; [reflexivity|].
  cbn [count_subcategory]. destruct (k =? s)%string;
    cbn [map fold_right snd]; [|rewrite IH]; lia.
Qed.

Lemma count_category_spec (c s c' s' : string)
      (cats : list (string * list (string * nat))) :
  Notion.count_of c' s' (count_category c s cats) =
  (Notion.count_of c' s' cats +
   if ((c =? c') && (s =? s'))%string then 1 else 0)%nat.
Proof.
  unfold Notion.count_of.
  induction cats as [|[k counts] rest IH]; cbn [count_category find fst snd].
  - destruct (c =? c')%string; [|reflexivity]. cbn [snd andb].
    unfold Notion.count_in. cbn [find fst snd].
    destruct (s =? s')%string; reflexivity.
  - destruct (k =? c)%string eqn:Ekc; cbn [find fst snd].
    + apply String.eqb_eq in Ekc. subst k.
      destruct (c =? c')%string; cbn [snd andb]; [|lia].
      apply count_subcategory_spec.
    + destruct (k =? c')%string eqn:Ekc'; [|exact IH].
      apply String.eqb_eq in Ekc'. subst k.
      rewrite String.eqb_sym, Ekc. cbn [snd andb]. lia.
Qed.

Lemma count_category_sum (c s : string)
      (cats : list (string * list (string * nat))) :
  Notion.total_count (count_category c s cats) = S (Notion.total_count cats).
Proof.
  unfold Notion.total_count.
  induction cats as [|[k counts] rest IH]; [reflexivity|].
  cbn [count_category]. destruct (k =? c)%string; cbn [map snd].
  - change (list_sum (?x :: ?l)) with (x + list_sum l)%nat.
    rewrite count_subcategory_sum.
    change (list_sum (list_sum (map snd counts) ::
                      map (fun e => list_sum (map snd (snd e))) rest))
      with (list_sum (map snd counts) +
            list_sum (map (fun e => list_sum (map snd (snd e))) rest))%nat.
    lia.
  - change (list_sum (list_sum (map snd counts) ::
                      map (fun e => list_sum (map snd (snd e)))
                          (count_category c s rest)))
      with (list_sum (map snd counts) +
            list_sum (map (fun e => list_sum (map snd (snd e)))
                          (count_category c s rest)))%nat.
    rewrite IH.
    change (list_sum (list_sum (map snd counts) ::
                      map (fun e => list_sum (map snd (snd e))) rest))
      with (list_sum (map snd counts) +
            list_sum (map (fun e => list_sum (map snd (snd e))) rest))%nat.
    lia.
Qed.

Lemma count_loop_spec (agents : list Agent) :
  forall cats,
    Notion.total_count (count_loop agents cats) =
    (Notion.total_count cats + List.length agents)%nat /\
    forall c s,
      Notion.count_of c s (count_loop agents cats) =
      (Notion.count_of c s cats +
       List.length (filter (Notion.filed_under c s) agents))%nat.
Proof.
  induction agents as [|a l IH]; intro cats; cbn [count_loop].
  - split; [simpl; lia|]. intros; simpl; lia.
  - destruct (IH (count_category (category a) (subcategory a) cats))
      as [Ht Hc].
    split.
    + rewrite Ht, count_category_sum. simpl. lia.
    + intros c s. rewrite Hc, count_category_spec.
      cbn [filter]. unfold Notion.filed_under at 2.
      destruct ((category a =? c) && (subcategory a =? s))%string;
        simpl; lia.
Qed.

(** The counts of the index add up to [total_agents]; the count kept
    for a category and a subcategory is the number of unique records
    filed under them; and the index lists one entry for every unique
    record, in order. *)
Theorem index_counts_add_up (unique_agents duplicates : list Agent) :
  let index := create_index unique_agents duplicates in
  Notion.total_count (categories_count index) = total_agents index /\
  (forall c s,
      Notion.count_of c s (categories_count index) =
      List.length (filter (Notion.filed_under c s) unique_agents)) /\
  List.length (agents index) = total_agents index /\
  map e_name (agents index) = map name unique_agents /\
  map e_id (agents index) = map agent_id unique_agents.
Proof.
  intro index. destruct (count_loop_spec unique_agents []) as [Ht Hc].
  split; [exact Ht|]. split; [intros c s; now rewrite Hc|].
  cbn. rewrite length_map, !map_map. repeat split.
Qed.
End IndexFacts.

(** ** The whole run of [collect_agents.py], up to the index *)

Section CollectorRun.
Import Collector Collecting.

Variable yaml_parse : string -> option Yaml.value.
Variable md5_hexdigest : string -> string.
Variable similar : Agent -> Agent -> bool.



End CollectorRun.

(** ** The range of the similarity ratio *)

Section RatioRange.
Import Difflib.
Import Spec Notion.

Variables a b : seq.

Lemma j2len_prev_anchored (blo : nat) (d : list (nat * nat)) (j : nat) :
  anchored blo d -> (blo <= j)%nat -> (blo + j2len_prev d j <= j)%nat.
Proof.
  intros H Hj. destruct j as [|j]; simpl; [lia|].
  induction d as [|[j' k] d IH]; simpl; [lia|].
  destruct (j =? j')%nat eqn:E.
  - apply Nat.eqb_eq in E. subst j'.
    specialize (H j k (or_introl eq_refl)). lia.
  - apply IH. intros j0 k0 Hin. apply (H j0 k0). now right.
Qed.

Lemma inner_loop_inside_b (i blo bhi : nat) (js : list nat)
      (j2len : list (nat * nat)) :
  anchored blo j2len ->
  forall newj2len best,
    anchored blo newj2len -> inside_b blo bhi best ->
    anchored blo (fst (inner_loop i blo bhi js j2len newj2len best)) /\
    inside_b blo bhi (snd (inner_loop i blo bhi js j2len newj2len best)).
Proof.
  intro Hold. induction js as [|j js IH]; intros newj2len best Hnew Hbest.
  - simpl. auto.
  - cbn [inner_loop]. destruct (j <? blo)%nat eqn:Elo; [now apply IH|].
    destruct (bhi <=? j)%nat eqn:Ehi; [simpl; auto|].
    apply Nat.ltb_ge in Elo. apply Nat.leb_gt in Ehi.
    pose proof (j2len_prev_anchored _ _ j Hold Elo) as Hk.
    apply IH.
    + intros j0 k0 [E|Hin]; [|now apply (Hnew j0 k0)].
      injection E as <- <-. lia.
    + destruct (m_size best <? j2len_prev j2len j + 1)%nat; [|exact Hbest].
      unfold inside_b. simpl. lia.
Qed.

Lemma outer_loop_inside_b (blo bhi : nat) (rng : list nat) :
  forall j2len best,
    anchored blo j2len -> inside_b blo bhi best ->
    inside_b blo bhi (outer_loop a b blo bhi rng j2len best).
Proof.
  induction rng as [|i rng IH]; intros j2len best Hd Hbest; [exact Hbest|].
  cbn [outer_loop].
  assert (Hnil : anchored blo []) by (intros ? ? []).
  destruct (inner_loop_inside_b i blo bhi
              (b2j_get b (nth i a "000"%char)) j2len Hd
              [] best Hnil Hbest) as [Hd' Hbest'].
  destruct (inner_loop i blo bhi _ j2len [] best) as [newj2len best'].
  now apply IH.
Qed.

Lemma extend_left_inside_b (alo blo bhi fuel : nat) (best : Match) :
  inside_b blo bhi best ->
  inside_b blo bhi (extend_left a b alo blo fuel best).
Proof.
  revert best. induction fuel as [|fuel IH]; intros best H; [exact H|].
  cbn [extend_left].
  destruct ((alo <? m_a best)%nat && (blo <? m_b best)%nat && _) eqn:E;
    [|exact H].
  apply andb_true_iff in E as [E _]. apply andb_true_iff in E as [_ E].
  apply Nat.ltb_lt in E. apply IH. unfold inside_b in *. simpl. lia.
Qed.

Lemma extend_right_inside_b (ahi blo bhi fuel : nat) (best : Match) :
  inside_b blo bhi best ->
  inside_b blo bhi (extend_right a b ahi bhi fuel best).
Proof.
  revert best. induction fuel as [|fuel IH]; intros best H; [exact H|].
  cbn [extend_right].
  destruct ((m_a best + m_size best <? ahi)%nat && _ && _) eqn:E; [|exact H].
  apply andb_true_iff in E as [E _]. apply andb_true_iff in E as [_ E].
  apply Nat.ltb_lt in E. apply IH. unfold inside_b in *. simpl. lia.
Qed.

(** The longest match found in a window lies inside it, in the second
    sequence too. *)
Lemma find_longest_match_inside_b (alo ahi blo bhi : nat) :
  (blo <= bhi)%nat ->
  inside_b blo bhi (find_longest_match a b alo ahi blo bhi).
Proof.
  intro H. unfold find_longest_match.
  apply extend_right_inside_b, extend_left_inside_b, outer_loop_inside_b.
  - intros j k [].
  - unfold inside_b. simpl. lia.
Qed.

Lemma sizes_app (l l' : list Match) : sizes (l ++ l') = (sizes l + sizes l')%nat.
Proof.
  unfold sizes. induction l as [|x l IH]; simpl; [reflexivity|].
  rewrite IH. lia.
Qed.

(** The blocks found match no more elements than the windows span. *)
Lemma blocks_loop_sizes (fuel : nat) :
  forall queue acc blocks,
    windows_ok queue ->
    blocks_loop a b fuel queue acc = Some blocks ->
    (sizes blocks <= sizes acc + span_a queue)%nat /\
    (sizes blocks <= sizes acc + span_b queue)%nat.
Proof.
  induction fuel as [|fuel IH]; intros queue acc blocks Hwf Hrun.
  - destruct queue as [|[[[alo ahi] blo] bhi] queue]; [|discriminate].
    injection Hrun as <-. lia.
  - destruct queue as [|[[[alo ahi] blo] bhi] queue];
      [injection Hrun as <-; lia|].
    inversion Hwf as [|? ? [Hwa Hwb] Hq]; subst. simpl in Hwa, Hwb.
    pose proof (find_longest_match_inside a b alo ahi blo bhi Hwa)
      as [Hlo Hhi].
    pose proof (find_longest_match_inside_b alo ahi blo bhi Hwb)
      as [Hlob Hhib].
    cbn [blocks_loop] in Hrun.
    set (x := find_longest_match a b alo ahi blo bhi) in *.
    assert (Hspan : forall q,
               span_a ((alo, ahi, blo, bhi) :: q) = (ahi - alo + span_a q)%nat /\
               span_b ((alo, ahi, blo, bhi) :: q) = (bhi - blo + span_b q)%nat)
      by (intro q; split; reflexivity).
    destruct (Hspan queue) as [-> ->].
    destruct (m_size x =? 0)%nat eqn:Ek.
    + destruct (IH _ _ _ Hq Hrun). lia.
    + apply Nat.eqb_neq in Ek.
      destruct ((alo <? m_a x)%nat && (blo <? m_b x)%nat) eqn:E1;
        destruct ((m_a x + m_size x <? ahi)%nat &&
                  (m_b x + m_size x <? bhi)%nat) eqn:E2;
        try (apply andb_true_iff in E1 as [E1a E1b];
             apply Nat.ltb_lt in E1a, E1b);
        try (apply andb_true_iff in E2 as [E2a E2b];
             apply Nat.ltb_lt in E2a, E2b);
        apply IH in Hrun;
        try (repeat constructor; simpl; try lia; exact Hq);
        rewrite sizes_app in Hrun;
        change (sizes [x]) with (m_size x + 0)%nat in Hrun;
        repeat match type of Hrun with
               | context [span_a ((?p, ?q, ?r, ?s) :: ?l)] =>
                   change (span_a ((p, q, r, s) :: l))
                     with (q - p + span_a l)%nat in Hrun
               | context [span_b ((?p, ?q, ?r, ?s) :: ?l)] =>
                   change (span_b ((p, q, r, s) :: l))
                     with (s - r + span_b l)%nat in Hrun
               end;
        lia.
Qed.

Lemma sizes_insert (x : Match) (l : list Match) :
  sizes (insert_match x l) = (m_size x + sizes l)%nat.
Proof.
  induction l as [|y l IH]; [reflexivity|].
  cbn [insert_match]. destruct (match_leb x y); [reflexivity|].
  change (sizes (y :: insert_match x l))
    with (m_size y + sizes (insert_match x l))%nat.
  rewrite IH. change (sizes (y :: l)) with (m_size y + sizes l)%nat. lia.
Qed.

Lemma sizes_sort (l : list Match) : sizes (sort_matches l) = sizes l.
Proof.
  induction l as [|x l IH]; [reflexivity|].
  cbn [sort_matches fold_right]. fold (sort_matches l).
  rewrite sizes_insert, IH. reflexivity.
Qed.

Lemma sizes_collapse (l : list Match) :
  forall cur, sizes (collapse cur l) = (m_size cur + sizes l)%nat.
Proof.
  induction l as [|x l IH]; intro cur; cbn [collapse].
  - destruct (m_size cur =? 0)%nat eqn:E; [apply Nat.eqb_eq in E|];
      simpl; lia.
  - destruct (_ && _).
    + rewrite IH. simpl. lia.
    + rewrite sizes_app, IH.
      destruct (m_size cur =? 0)%nat eqn:E; [apply Nat.eqb_eq in E|];
        simpl; lia.
Qed.

(** The matching blocks match no more elements than either sequence
    has. *)
Lemma matching_blocks_sizes :
  (sizes (get_matching_blocks a b) <= List.length a)%nat /\
  (sizes (get_matching_blocks a b) <= List.length b)%nat.
Proof.
  unfold get_matching_blocks. cbv zeta.
  rewrite sizes_app, sizes_collapse, sizes_sort.
  destruct (blocks_loop a b _ _ []) as [found|] eqn:E.
  - apply blocks_loop_sizes in E.
    + unfold span_a, span_b in E. simpl in *. lia.
    + repeat constructor; simpl; lia.
  - simpl. lia.
Qed.

Lemma ratio_range : (0 <= ratio a b <= 1)%Q.
Proof.
  unfold ratio. fold (sizes (get_matching_blocks a b)).
  destruct matching_blocks_sizes as [Ha Hb].
  destruct (List.length a + List.length b =? 0)%nat eqn:E.
  - split; [discriminate|apply Qle_refl].
  - apply Nat.eqb_neq in E.
    assert (Hpos : Z.pos (Pos.of_nat (List.length a + List.length b)) =
                   Z.of_nat (List.length a + List.length b)).
    { destruct (List.length a + List.length b)%nat as [|n] eqn:En;
        [congruence|].
      rewrite <- Pos.of_nat_succ, Zpos_P_of_succ_nat. lia. }
    unfold Qle. cbn [Qnum Qden]. rewrite Hpos. split; lia.
Qed.
End RatioRange.

Section SimilarityRange.
Import Dedupe.

(** Both similarities of [intelligent_dedupe.py] lie between 0 and 1:
    the matching blocks that [difflib] finds match no more elements than
    either text has, and the substring rule returns 0.9. *)
Theorem similarities_between_0_and_1 (name1 name2 content1 content2 : string) :
  (0 <= name_similarity name1 name2 <= 1)%Q /\
  (0 <= content_similarity content1 content2 <= 1)%Q.
Proof.
  split.
  - unfold name_similarity. cbv zeta.
    destruct (_ || _); [split; discriminate|apply ratio_range].
  - apply ratio_range.
Qed.
End SimilarityRange.

(** ** Patterns without group *)

Section GrouplessFacts.
Import Re.
Local Open Scope string_scope.

(** A pattern without group hands the capture it received to its
    continuation. *)
Lemma rmatch_groupless {R : Type} (r : regex) :
  Notion.groupless r = true ->
  forall pos s cap (kont : @cont R) v,
    rmatch r pos s cap kont = Some v ->
    exists pos' s', kont pos' s' cap = Some v.
Proof.
  induction r as [lit|k|k|r1 IH1|r1 IH1 r2 IH2|r1 IH1 r2 IH2|r1 IH1| |];
    intros Hg pos s cap kont v H; cbn [rmatch] in H; cbn [Notion.groupless] in Hg.
  - destruct (Py.startswith lit s); [eauto|discriminate].
  - destruct s as [|c s]; [discriminate|].
    destruct (in_class k c); [eauto|discriminate].
  - apply plus_greedy_some in H as (y & t & pos' & _ & _ & Hk). eauto.
  - destruct (rmatch r1 pos s cap kont) as [w|] eqn:E; simpl in H.
    + rewrite <- H in *. now apply (IH1 Hg _ _ _ _ _ E).
    + eauto.
  - apply andb_true_iff in Hg as [Hg1 Hg2].
    destruct (rmatch r1 pos s cap kont) as [w|] eqn:E; simpl in H.
    + rewrite <- H in *. now apply (IH1 Hg1 _ _ _ _ _ E).
    + now apply (IH2 Hg2 _ _ _ _ _ H).
  - apply andb_true_iff in Hg as [Hg1 Hg2].
    apply (IH1 Hg1) in H as (pos' & s' & H).
    now apply (IH2 Hg2) in H.
  - discriminate.
  - destruct (pos =? 0)%nat; [eauto|discriminate].
  - destruct s as [|c [|d s]]; [eauto| |discriminate].
    destruct (Ascii.eqb c "010"%char); [eauto|discriminate].
Qed.

(** A match of a pattern without group captures nothing. *)
Lemma match_groupless (r : regex) (s : string) (m : match_obj) :
  Notion.groupless r = true -> re_match r s = Some m -> m_group1 m = None.
Proof.
  intros Hg H. unfold re_match, match_at in H.
  apply (rmatch_groupless r Hg) in H as (pos' & s' & H).
  injection H as <-. reflexivity.
Qed.

(** A match of a pattern that begins with [(.+)] captures a prefix of
    the text. *)
Lemma match_stem_shaped (r : regex) (s : string) (m : match_obj) :
  Notion.stem_shaped r = true -> re_match r s = Some m ->
  exists n, m_group1 m = Some (Py.take n s).
Proof.
  intros Hs H.
  destruct r as [| | | | |r1 rest| | |]; try discriminate.
  destruct r1 as [| | | | | |r1| |]; try discriminate.
  destruct r1 as [|?|k| | | | | |]; try discriminate.
  destruct k; try discriminate.
  cbn [Notion.stem_shaped] in Hs.
  unfold re_match, match_at in H. cbn [rmatch] in H.
  apply plus_greedy_some in H as (y & t & pos' & _ & _ & H).
  apply (rmatch_groupless rest Hs) in H as (pos'' & s'' & H).
  injection H as <-. eexists. reflexivity.
Qed.
End GrouplessFacts.

(** ** What a semantic key looks like *)

Section KeyFacts.
Import Re Dedupe.
Local Open Scope string_scope.

Lemma first_match_app (l1 l2 : list regex) (s : string) :
  first_match (l1 ++ l2) s =
  match first_match l1 s with
  | Some key => Some key
  | None => first_match l2 s
  end.
Proof.
  induction l1 as [|r l1 IH]; [reflexivity|].
  cbn [app first_match]. destruct (re_match r s); [reflexivity|exact IH].
Qed.

Lemma first_match_groupless (l : list regex) (s : string) :
  forallb Notion.groupless l = true ->
  first_match l s = None \/ first_match l s = Some s.
Proof.
  induction l as [|r l IH]; intro H; [now left|].
  cbn [forallb] in H. apply andb_true_iff in H as [Hr Hl].
  cbn [first_match]. destruct (re_match r s) as [m|] eqn:E; [|now apply IH].
  right. now rewrite (match_groupless r s m Hr E).
Qed.

Lemma first_match_shape (l : list regex) (s key : string) :
  forallb (fun r => Notion.stem_shaped r || Notion.groupless r) l = true ->
  first_match l s = Some key ->
  key = s \/ exists n, key = Py.strip (Py.take n s).
Proof.
  induction l as [|r l IH]; intros H Hk; [discriminate|].
  cbn [forallb] in H. apply andb_true_iff in H as [Hr Hl].
  cbn [first_match] in Hk.
  destruct (re_match r s) as [m|] eqn:E; [|now apply IH].
  injection Hk as <-. apply orb_true_iff in Hr as [Hr|Hr].
  - destruct (match_stem_shaped r s m Hr E) as (n & ->). right. now exists n.
  - rewrite (match_groupless r s m Hr E). now left.
Qed.

(** The patterns for machine-learning and artificial-intelligence
    engineers, which have no group, never decide the key: it is the key
    that the first five groups of patterns give.  In particular the key
    of [ml-engineer] is [ml] and that of [machine-learning-engineer] is
    [machine learning]: the two names do not share a key. *)
Theorem engineer_patterns_never_decide (name : string) :
  get_semantic_key name =
  match first_match Notion.suffix_patterns (Notion.cleaned name) with
  | Some key => key
  | None => Notion.cleaned name
  end /\
  get_semantic_key "ml-engineer" = "ml" /\
  get_semantic_key "machine-learning-engineer" = "machine learning" /\
  get_semantic_key "ai-engineer" = "ai" /\
  get_semantic_key "artificial-intelligence-engineer" =
  "artificial intelligence".
Proof.
  split; [|repeat split; vm_compute; reflexivity].
  rewrite get_semantic_key_cleaned.
  change (List.concat duplicate_patterns)
    with (Notion.suffix_patterns ++
          List.concat (skipn 5 duplicate_patterns))%list.
  rewrite first_match_app.
  destruct (first_match Notion.suffix_patterns (Notion.cleaned name));
    [reflexivity|].
  destruct (first_match_groupless (List.concat (skipn 5 duplicate_patterns))
              (Notion.cleaned name) eq_refl) as [-> | ->]; reflexivity.
Qed.

Lemma all_take (p : ascii -> bool) (s : string) :
  Notion.all p s = true -> forall n, Notion.all p (Py.take n s) = true.
Proof.
  unfold Py.take. induction s as [|c s IH]; intros H n.
  - destruct n; reflexivity.
  - simpl in H. apply andb_true_iff in H as [Hc Hs].
    destruct n as [|n]; [reflexivity|]. simpl. now rewrite Hc, IH.
Qed.

Lemma all_lstrip (p : ascii -> bool) (s : string) :
  Notion.all p s = true -> Notion.all p (Py.lstrip s) = true.
Proof.
  induction s as [|c s IH]; intro H; [reflexivity|].
  cbn [Py.lstrip]. destruct (Py.isspace c); [|exact H].
  simpl in H. apply andb_true_iff in H as [_ H]. now apply IH.
Qed.

Lemma all_rstrip (p : ascii -> bool) (s : string) :
  Notion.all p s = true -> Notion.all p (Py.rstrip s) = true.
Proof.
  induction s as [|c s IH]; intro H; [reflexivity|].
  simpl in H. apply andb_true_iff in H as [Hc Hs]. specialize (IH Hs).
  cbn [Py.rstrip]. destruct (Py.rstrip s) as [|d t].
  - destruct (Py.isspace c); [reflexivity|]. simpl. now rewrite Hc.
  - cbn [Notion.all] in *. now rewrite Hc, IH.
Qed.

Lemma all_strip (p : ascii -> bool) (s : string) :
  Notion.all p s = true -> Notion.all p (Py.strip s) = true.
Proof. intro H. now apply all_rstrip, all_lstrip. Qed.

Lemma all_lower (p q : ascii -> bool) (s : string) :
  (forall c, p c = true -> q (Py.lower_char c) = true) ->
  Notion.all p s = true -> Notion.all q (Py.lower s) = true.
Proof.
  intro Hpq. induction s as [|c s IH]; intro H; [reflexivity|].
  simpl in H. apply andb_true_iff in H as [Hc Hs].
  simpl. now rewrite (Hpq c Hc), IH.
Qed.

Lemma lower_char_key (c : ascii) :
  negb (Notion.is_separator c) = true ->
  Notion.key_char (Py.lower_char c) = true.
Proof. destruct c as [[] [] [] [] [] [] [] []]; vm_compute; congruence. Qed.

Lemma rstrip_idem (s : string) : Py.rstrip (Py.rstrip s) = Py.rstrip s.
Proof.
  induction s as [|c s IH]; [reflexivity|].
  cbn [Py.rstrip]. destruct (Py.rstrip s) as [|d t] eqn:E.
  - destruct (Py.isspace c) eqn:Ec; [reflexivity|].
    cbn [Py.rstrip]. now rewrite Ec.
  - cbn [Py.rstrip]. cbn [Py.rstrip] in IH.
    destruct (Py.rstrip t) as [|e u] eqn:Et.
    + destruct (Py.isspace d); [discriminate|]. now rewrite IH.
    + now rewrite IH.
Qed.

Lemma lstrip_head (s : string) :
  Py.lstrip s = "" \/
  exists c t, Py.lstrip s = String c t /\ Py.isspace c = false.
Proof.
  induction s as [|c s IH]; [now left|].
  cbn [Py.lstrip]. destruct (Py.isspace c) eqn:E; [exact IH|].
  right. now exists c, s.
Qed.

Lemma strip_idem (s : string) : Py.strip (Py.strip s) = Py.strip s.
Proof.
  unfold Py.strip.
  destruct (lstrip_head s) as [->|(c & t & -> & Hc)]; [reflexivity|].
  assert (H : exists u, Py.rstrip (String c t) = String c u).
  { cbn [Py.rstrip]. destruct (Py.rstrip t); [|eauto].
    rewrite Hc. eauto. }
  destruct H as (u & Hu). rewrite Hu. cbn [Py.lstrip]. rewrite Hc.
  rewrite <- Hu. apply rstrip_idem.
Qed.

Lemma lstrip_length (s : string) :
  (String.length (Py.lstrip s) <= String.length s)%nat.
Proof.
  induction s as [|c s IH]; [simpl; lia|].
  cbn [Py.lstrip]. destruct (Py.isspace c); simpl; lia.
Qed.

Lemma rstrip_length (s : string) :
  (String.length (Py.rstrip s) <= String.length s)%nat.
Proof.
  induction s as [|c s IH]; [simpl; lia|].
  cbn [Py.rstrip]. destruct (Py.rstrip s); [destruct (Py.isspace c)|];
    simpl in *; lia.
Qed.

Lemma strip_length (s : string) :
  (String.length (Py.strip s) <= String.length s)%nat.
Proof.
  unfold Py.strip. pose proof (rstrip_length (Py.lstrip s)).
  pose proof (lstrip_length s). lia.
Qed.

Lemma take_length (n : nat) (s : string) :
  (String.length (Py.take n s) <= String.length s)%nat.
Proof.
  unfold Py.take. revert n. induction s as [|c s IH]; intro n.
  - destruct n; simpl; lia.
  - destruct n as [|n]; simpl; [lia|]. specialize (IH n). lia.
Qed.

Lemma lower_length (s : string) :
  String.length (Py.lower s) = String.length s.
Proof. induction s as [|c s IH]; simpl; [reflexivity|now rewrite IH]. Qed.

Lemma replace_char_length (p : ascii -> bool) (c : ascii) (s : string) :
  String.length (Notion.replace p (String c "") s) = String.length s.
Proof.
  induction s as [|d s IH]; [reflexivity|].
  cbn [Notion.replace]. destruct (p d); simpl; now rewrite IH.
Qed.

(** Deleting matches never makes a text longer. *)
Lemma sub_loop_delete_length (r : regex) (s : string) :
  forall pos skip,
    (String.length (sub_loop r "" pos skip s) <= String.length s)%nat.
Proof.
  induction s as [|c s IH]; intros pos skip; [simpl; lia|].
  cbn [sub_loop]. destruct skip as [|k].
  - destruct (match_at r pos (String c s)) as [m|].
    + destruct (pos <? m_end m)%nat; cbn [append String.length].
      * specialize (IH (S pos) (m_end m - pos - 1)%nat). lia.
      * specialize (IH (S pos) 0%nat). lia.
    + cbn [String.length]. specialize (IH (S pos) 0%nat). lia.
  - specialize (IH (S pos) k). cbn [String.length]. lia.
Qed.

Lemma cleaned_facts (name : string) :
  Py.strip (Notion.cleaned name) = Notion.cleaned name /\
  Notion.all Notion.key_char (Notion.cleaned name) = true /\
  (String.length (Notion.cleaned name) <= String.length name)%nat.
Proof.
  unfold Notion.cleaned. cbv zeta.
  split; [apply strip_idem|]. split.
  - apply all_strip. apply (all_lower (fun c => negb (Notion.is_separator c))).
    + apply lower_char_key.
    + unfold re_sub at 1. rewrite sub_loop_replace_class.
      apply all_replace; [reflexivity|].
      apply (all_impl (fun _ => true)).
      * intros c _. change (in_class (OneOf "-_") c)
          with (Notion.is_separator c).
        now destruct (Notion.is_separator c).
      * generalize (re_sub (Cat Bol (Cat (Plus Digit) (One (OneOf "-_"))))
                           "" name).
        intro t. induction t; simpl; auto.
  - eapply Nat.le_trans; [apply strip_length|].
    rewrite lower_length. unfold re_sub at 1.
    rewrite sub_loop_replace_class, replace_char_length.
    apply sub_loop_delete_length.
Qed.

(** The semantic key of a name made of ASCII characters, on which
    [lower] and [strip] are those of the code, is trimmed and holds no
    hyphen, no underscore and no capital; it is no longer than the
    name. *)
Theorem semantic_key_is_normalised (name : string) :
  Notion.all Notion.ascii_char name = true ->
  Py.strip (get_semantic_key name) = get_semantic_key name /\
  Notion.all Notion.key_char (get_semantic_key name) = true /\
  (String.length (get_semantic_key name) <= String.length name)%nat.
Proof.
  intros _.
  destruct (cleaned_facts name) as (Hs & Ha & Hl).
  rewrite get_semantic_key_cleaned.
  destruct (first_match (List.concat duplicate_patterns) (Notion.cleaned name))
    as [key|] eqn:E; [|now repeat split].
  apply first_match_shape in E as [->|(n & ->)]; [now repeat split| |reflexivity].
  split; [apply strip_idem|]. split.
  - now apply all_strip, all_take.
  - eapply Nat.le_trans; [apply strip_length|].
    eapply Nat.le_trans; [apply take_length|exact Hl].
Qed.
End KeyFacts.

(** ** Assembling and parsing a document *)

Section RoundTrip.
Local Open Scope string_scope.



Variable yaml_parse : string -> option Yaml.value.

End RoundTrip.


(** ** The links of the catalog *)

Section ReadmeLinks.
Import Collector Collecting.
Local Open Scope string_scope.

Lemma append_inv_head (p x y : string) : p ++ x = p ++ y -> x = y.
Proof.
  induction p as [|c p IH]; intro H; [exact H|].
  injection H as H. now apply IH.
Qed.

Lemma word_is_no_slash (c : ascii) :
  Text.is_word c || Re.mem_char c "-." = true ->
  negb (Ascii.eqb c "/") = true.
Proof. destruct c as [[] [] [] [] [] [] [] []]; vm_compute; congruence. Qed.

Lemma slash_or_same (c : ascii) :
  Ascii.eqb c "/" = false ->
  Text.is_word c || Re.mem_char c "-./" =
  Text.is_word c || Re.mem_char c "-.".
Proof. destruct c as [[] [] [] [] [] [] [] []]; vm_compute; congruence. Qed.

(** Keeping the slashes changes the result exactly when there is
    one. *)
Lemma keeping_slashes (s : string) :
  Text.sub_non_word "-./" s = Text.sub_non_word "-." s <->
  Notion.no_slash s = true.
Proof.
  unfold Notion.no_slash. induction s as [|c s IH]; [now split|].
  cbn [Text.sub_non_word Notion.all]. split.
  - intro H. injection H as Hc Hs. apply IH in Hs. rewrite Hs, andb_true_r.
    destruct (Ascii.eqb c "/") eqn:E; [|reflexivity].
    apply Ascii.eqb_eq in E. subst c. discriminate.
  - intro H. apply andb_true_iff in H as [Hc Hs].
    apply negb_true_iff in Hc. rewrite (slash_or_same c Hc).
    f_equal. now apply IH.
Qed.

Lemma words_are_safe (extra s : string) :
  Notion.all Text.is_word s = true ->
  Notion.all (fun c => Text.is_word c || Re.mem_char c extra) s = true.
Proof. apply all_impl. intros c H. now rewrite H. Qed.

(** The link and the path differ by the slashes of the name only. *)
Lemma link_is_path_iff (i : nat) (agent : Agent) :
  Notion.all Text.is_word (category agent) = true ->
  Notion.all Text.is_word (subcategory agent) = true ->
  (readme_path i agent = organized_path i agent <->
   Notion.no_slash (name agent) = true).
Proof.
  intros Hc Hs.
  set (T := Text.format_03d i ++ "-" ++ category agent ++ "-" ++
            subcategory agent ++ "-" ++ name agent ++ ".md").
  set (P := "agents/" ++ category agent ++ "/" ++ subcategory agent ++ "/").
  assert (Hr : readme_path i agent = P ++ Text.sub_non_word "-./" T).
  { unfold readme_path. cbv zeta.
    replace ("agents/" ++ category agent ++ "/" ++ subcategory agent ++ "/" ++
             Text.format_03d i ++ "-" ++ category agent ++ "-" ++
             subcategory agent ++ "-" ++ name agent ++ ".md")
      with (P ++ T) by (unfold P, T; now rewrite !append_assoc).
    rewrite sub_non_word_app. f_equal.
    apply sub_non_word_fixed. unfold P.
    rewrite !all_app, (words_are_safe "-./" _ Hc), (words_are_safe "-./" _ Hs).
    reflexivity. }
  assert (Ho : organized_path i agent = P ++ Text.sub_non_word "-." T).
  { unfold organized_path, file_name, P. cbv zeta. fold T.
    now rewrite !append_assoc. }
  assert (Hn : Notion.no_slash T = Notion.no_slash (name agent)).
  { unfold T, Notion.no_slash. rewrite !all_app.
    assert (Hw : forall s, Notion.all Text.is_word s = true ->
                           Notion.all (fun c => negb (Ascii.eqb c "/")) s
                           = true).
    { intro s. apply all_impl. intros c H. apply word_is_no_slash.
      now rewrite H. }
    rewrite (Hw _ Hc), (Hw _ Hs).
    rewrite (safe_has_no_slash "-." (Text.format_03d i) eq_refl)
      by apply digits_are_words, format_03d_digits.
    cbn [Notion.all Ascii.eqb Bool.eqb negb andb].
    now rewrite !andb_true_r. }
  rewrite Hr, Ho, <- Hn, <- keeping_slashes. split.
  - apply append_inv_head.
  - now intros ->.
Qed.

(** For a record filed under a category and a subcategory made of word
    characters, the link of the catalog is the path of the file written
    for the record exactly when its name holds no slash: a slash in the
    name is kept in the link and replaced in the name of the file. *)
Theorem readme_link_names_the_file (i : nat) (agent : Agent) :
  Notion.all Text.is_word (category agent) = true ->
  Notion.all Text.is_word (subcategory agent) = true ->
  (readme_path i agent = organized_path i agent <->
   Notion.no_slash (name agent) = true).
Proof.
  intros Hc Hs. split; intro H.
  - now apply (link_is_path_iff i agent Hc Hs).
  - now apply (link_is_path_iff i agent Hc Hs).
Qed.
End ReadmeLinks.

(** ** The directories of the collection *)

Section TaxonomyDirs.
Import Collector Collecting.

Lemma categorize_with_in_entries cats (agent : Agent) :
  Spec.entries cats <> [] ->
  categorize_with cats agent = ("specialized", "general") \/
  In (categorize_with cats agent)
     (map (fun e => (fst (fst e), snd (fst e))) (Spec.entries cats)).
Proof.
  intro Hne.
  destruct (categorize_with_spec cats agent Hne)
    as (Hpos & Hzero & Hmax & _ & (e & He)).
  set (score := Spec.entry_score _ _ _) in *.
  destruct (Z.ltb 0 (score e)) eqn:E.
  - apply Z.ltb_lt in E. right. rewrite (Hmax e He E).
    apply (in_map (fun e => (fst (fst e), snd (fst e)))).
    destruct He as (pre & post & -> & _). apply in_or_app. right. now left.
  - apply Z.ltb_ge in E. left. apply Hzero. intros e' He'.
    pose proof (Hpos e') as Hp'. pose proof (Hpos e) as Hpe.
    destruct He as (pre & post & Hl & Hpre & Hpost).
    rewrite Hl in He'. apply in_app_or in He'.
    destruct He' as [H|[E'|H]].
    + specialize (Hpre _ H). lia.
    + subst e'. lia.
    + specialize (Hpost _ H). lia.
Qed.

Variable yaml_parse : string -> option Yaml.value.
Variable md5_hexdigest : string -> string.

(** A collected record is filed under a pair of category and
    subcategory of the taxonomy, or under the default pair; all of them
    are made of word characters, so that the directory of the record is
    named safely and, when its name holds no slash, its link in the
    catalog is the path of its file. *)
Theorem collected_directory_is_from_taxonomy (repo_name : string)
        (file : File) (agent : Agent) :
  Collecting.collect_file yaml_parse md5_hexdigest repo_name file =
  Collected agent ->
  In (category agent, subcategory agent) Notion.taxonomy_dirs /\
  Notion.all Text.is_word (category agent) = true /\
  Notion.all Text.is_word (subcategory agent) = true /\
  forall i, Notion.no_slash (name agent) = true ->
            readme_path i (set_agent_id agent (Z.of_nat i)) =
            organized_path i (set_agent_id agent (Z.of_nat i)).
Proof.
  intro H.
  destruct (collect_file_collected _ _ _ _ _ H)
    as (_ & _ & _ & _ & _ & _ & _ & _ & _ & _ & _ & _ & Hcat).
  assert (Hin : In (category agent, subcategory agent) Notion.taxonomy_dirs).
  { rewrite <- Hcat. unfold categorize_agent, Notion.taxonomy_dirs.
    destruct (categorize_with_in_entries categories agent categories_nonempty)
      as [-> | Hin]; [now left|now right]. }
  assert (Hwords : forallb (fun d => Notion.all Text.is_word (fst d) &&
                                     Notion.all Text.is_word (snd d))
                           Notion.taxonomy_dirs = true)
    by (vm_compute; reflexivity).
  rewrite forallb_forall in Hwords. specialize (Hwords _ Hin).
  cbn [fst snd] in Hwords. apply andb_true_iff in Hwords as [Hc Hs].
  split; [exact Hin|]. split; [exact Hc|]. split; [exact Hs|].
  intros i Hn. now apply link_is_path_iff.
Qed.
End TaxonomyDirs.

(** ** The directories of [save_deduplicated_collection] *)

Section SaverPrecedence.
Import Saver.

(** The tests on languages come first: a name with the sign of a
    language is filed under [languages] whatever else it holds; a name
    with the sign of a task and of no language is filed under [tasks];
    and a name with neither keeps the default directory. *)
Theorem saver_languages_take_precedence (name_lower : string) :
  (Text.any_in Notion.language_words name_lower = true <->
   fst (categorize name_lower) = "languages") /\
  (Text.any_in Notion.language_words name_lower = false ->
   (Text.any_in Notion.task_words name_lower = true <->
    fst (categorize name_lower) = "tasks")) /\
  (Text.any_in Notion.language_words name_lower = false ->
   Text.any_in Notion.task_words name_lower = false ->
   categorize name_lower = ("specialized", "general")).
Proof.
  unfold categorize, Text.any_in, Notion.language_words, Notion.task_words.
  cbn [existsb].
  repeat match goal with
         | |- context [Py.contains ?w name_lower] =>
             generalize (Py.contains w name_lower); intro
         end.
  rewrite ?orb_false_r.
  repeat match goal with
         | b : bool |- _ => destruct b; cbn [orb fst];
                            [repeat split; intros; congruence|]
         end.
  repeat split; intros; congruence.
Qed.
End SaverPrecedence.

(** ** Headers that make a file be dropped *)

Section DroppedFiles.

Variable yaml_parse : string -> option Yaml.value.
Variable md5_hexdigest : string -> string.

(** [load_agents] drops a file whose header is a mapping that gives, for
    its description or for its tools, a value without length, such as
    an empty entry or a number: the scorer raises on it. *)
Theorem unsized_entry_drops_the_file (agent_file : Dedupe.File)
        (m : list (string * Yaml.value)) (key : string) (v : Yaml.value) :
  fst (Dedupe.extract_yaml yaml_parse (Dedupe.f_text agent_file)) =
  Yaml.VMap m ->
  key = "description" \/ key = "tools" ->
  Yaml.lookup key m = Some v -> Yaml.py_len v = None ->
  Dedupe.load_agent yaml_parse agent_file = None /\
  forall rest,
    Dedupe.load_agents yaml_parse (agent_file :: rest) =
    Dedupe.load_agents yaml_parse rest.
Proof.
  intros Hx Hkey Hv Hlen.
  assert (Hnone : Dedupe.load_agent yaml_parse agent_file = None).
  { unfold Dedupe.load_agent.
    destruct (Dedupe.extract_yaml yaml_parse (Dedupe.f_text agent_file))
      as [yd body].
    cbn [fst] in Hx. subst yd. cbn [Yaml.py_in].
    match goal with
    | |- context [Dedupe.calculate_quality_score ?x] => set (agent := x)
    end.
    assert (Ht : Yaml.truthy (Yaml.VMap m) = true)
      by (destruct m; [destruct Hkey; subst; discriminate|reflexivity]).
    assert (Hp : Dedupe.frontmatter_points agent = None).
    { unfold Dedupe.frontmatter_points.
      cbn [Dedupe.has_yaml Dedupe.yaml_data agent]. rewrite Ht.
      cbn [Yaml.py_in Yaml.py_get].
      destruct Hkey as [-> | ->]; rewrite Hv, Hlen.
      - reflexivity.
      - destruct (Yaml.lookup "description" m) as [d|]; [|reflexivity].
        destruct (Yaml.py_len d); reflexivity. }
    unfold Dedupe.calculate_quality_score. now rewrite Hp. }
  split; [exact Hnone|]. intro rest. cbn [Dedupe.load_agents].
  now rewrite Hnone.
Qed.

(** [collect_agents] drops, with an error report, a file whose header
    is not a mapping, or is a mapping that gives for the name or for
    the description a value that is not a text. *)
Theorem header_without_text_name_is_dropped (repo_name : string)
        (file : Collecting.File) :
  Text.any_in Collecting.skipped_names (Py.lower (Collecting.f_name file))
  = false ->
  let header :=
    fst (Collector.extract_yaml_frontmatter yaml_parse
           (Collecting.f_text file)) in
  ((forall m, header <> Yaml.VMap m) ->
   Collecting.collect_file yaml_parse md5_hexdigest repo_name file =
   Collecting.Failed) /\
  (forall m key v,
      header = Yaml.VMap m ->
      key = "name" \/ key = "description" ->
      Yaml.lookup key m = Some v -> Notion.is_text v = false ->
      Collecting.collect_file yaml_parse md5_hexdigest repo_name file =
      Collecting.Failed).
Proof.
  intros Hskip header. subst header.
  unfold Collecting.collect_file. rewrite Hskip.
  destruct (Collector.extract_yaml_frontmatter yaml_parse
              (Collecting.f_text file)) as [yd body].
  cbn [fst]. split.
  - intro Hno. destruct yd as [| | | | | |m]; try reflexivity.
    now destruct (Hno m).
  - intros m key v -> Hkey Hv Htext. cbn [Yaml.py_get].
    assert (Ht : Yaml.truthy (Yaml.VMap m) = true)
      by (destruct m; [destruct Hkey; subst; discriminate|reflexivity]).
    rewrite Ht. cbn [negb andb].
    destruct Hkey as [-> | ->]; rewrite Hv.
    + destruct v; try reflexivity; discriminate.
    + destruct (Yaml.lookup "name" m) as [[| | | |n| |]|];
        destruct v; try reflexivity; discriminate.
Qed.
End DroppedFiles.

(** ** The properties above on sample records *)

Lemma dedupe_score_between_0_and_105_witness :
  Dedupe.calculate_quality_score Fixture.full_marks =
  Some (105%Z, Dedupe.set_has_examples Fixture.full_marks true) /\
  (0 <= 105 <= 105)%Z.
Proof.
  assert (E : Dedupe.calculate_quality_score Fixture.full_marks =
              Some (105%Z, Dedupe.set_has_examples Fixture.full_marks true))
    by (vm_compute; reflexivity).
  split; [exact E|]. exact (dedupe_score_between_0_and_105 _ _ _ E).
Defined.

Lemma collector_score_between_0_and_60_witness :
  Collector.calculate_quality_score Fixture.full_collected = Some 60%Z /\
  (0 <= 60 <= 60)%Z.
Proof.
  assert (E : Collector.calculate_quality_score Fixture.full_collected =
              Some 60%Z) by (vm_compute; reflexivity).
  split; [exact E|]. exact (collector_score_between_0_and_60 _ _ E).
Defined.

Lemma collected_record_is_consistent_witness :
  Collecting.collect_file (fun _ => None) (fun _ => "") "repo"
                          Fixture.marked_file =
  Collecting.Collected Fixture.helper /\
  Collector.content Fixture.helper = "You are a careful helper." /\
  Collector.calculate_quality_score Fixture.helper = Some 0%Z /\
  Collector.categorize_agent Fixture.helper = ("specialized", "general").
Proof.
  assert (E : Collecting.collect_file (fun _ => None) (fun _ => "") "repo"
                                      Fixture.marked_file =
              Collecting.Collected Fixture.helper)
    by (vm_compute; reflexivity).
  destruct (collected_record_is_consistent _ _ _ _ _ E)
    as (_ & _ & _ & _ & Hc & _ & _ & _ & Hs & _ & Hcat).
  split; [exact E|]. split; [exact Hc|]. split; [exact Hs|exact Hcat].
Defined.

Lemma plain_file_needs_marker_witness :
  Collecting.collect_file (fun _ => None) (fun _ => "") "repo"
                          Fixture.unmarked_file = Collecting.Skipped /\
  exists agent,
    Collecting.collect_file (fun _ => None) (fun _ => "") "repo"
                            Fixture.marked_file = Collecting.Collected agent /\
    Collector.name agent = "helper".
Proof.
  split.
  - apply (plain_file_needs_marker (fun _ => None) (fun _ => "") "repo"
             Fixture.unmarked_file); reflexivity.
  - destruct (proj2 (plain_file_needs_marker
                       (fun _ => None) (fun _ => "") "repo"
                       Fixture.marked_file eq_refl eq_refl) eq_refl)
      as (agent & E & Hn & _).
    exists agent. split; [exact E|exact Hn].
Defined.

Lemma readme_link_names_the_file_witness :
  Collecting.readme_path 7 Fixture.helper =
  Collecting.organized_path 7 Fixture.helper /\
  Collecting.readme_path 3 Fixture.pipeline_helper <>
  Collecting.organized_path 3 Fixture.pipeline_helper.
Proof.
  split.
  - apply (readme_link_names_the_file 7 Fixture.helper); reflexivity.
  - intro E.
    apply (readme_link_names_the_file 3 Fixture.pipeline_helper) in E;
      [discriminate E|reflexivity|reflexivity].
Defined.

Lemma collected_directory_is_from_taxonomy_witness :
  In ("specialized", "general") Notion.taxonomy_dirs /\
  Collecting.readme_path 1 (Collecting.set_agent_id Fixture.helper 1) =
  Collecting.organized_path 1 (Collecting.set_agent_id Fixture.helper 1).
Proof.
  assert (E : Collecting.collect_file (fun _ => None) (fun _ => "") "repo"
                                      Fixture.marked_file =
              Collecting.Collected Fixture.helper)
    by (vm_compute; reflexivity).
  destruct (collected_directory_is_from_taxonomy _ _ _ _ _ E)
    as (Hin & _ & _ & Hlink).
  split; [exact Hin|exact (Hlink 1%nat eq_refl)].
Defined.

Lemma unsized_entry_drops_the_file_witness :
  Dedupe.load_agents Fixture.toy_parse
                     [Fixture.undescribed_file; Sample.bare_file] =
  Dedupe.load_agents Fixture.toy_parse [Sample.bare_file].
Proof.
  apply (unsized_entry_drops_the_file
           Fixture.toy_parse Fixture.undescribed_file
           [("name", Yaml.VStr "x"); ("description", Yaml.VNull)]
           "description" Yaml.VNull);
    [reflexivity|now left|reflexivity|reflexivity].
Defined.

Lemma header_without_text_name_is_dropped_witness :
  Collecting.collect_file Fixture.toy_parse (fun _ => "") "repo"
                          Fixture.numbered_file = Collecting.Failed.
Proof.
  apply (proj2 (header_without_text_name_is_dropped
                  Fixture.toy_parse (fun _ => "") "repo"
                  Fixture.numbered_file eq_refl)
               [("name", Yaml.VInt 7)] "name" (Yaml.VInt 7));
    [reflexivity|now left|reflexivity|reflexivity].
Defined.

Lemma saver_languages_take_precedence_witness :
  fst (Saver.categorize "pytest-runner") = "languages" /\
  fst (Saver.categorize "qa-helper") = "tasks" /\
  Saver.categorize "notes" = ("specialized", "general").
Proof.
  split; [|split].
  - apply (proj1 (saver_languages_take_precedence "pytest-runner")).
    reflexivity.
  - apply (proj1 (proj2 (saver_languages_take_precedence "qa-helper")));
      reflexivity.
  - apply (proj2 (proj2 (saver_languages_take_precedence "notes")));
      reflexivity.
Defined.

Lemma semantic_key_is_normalised_witness :
  Dedupe.get_semantic_key "003-React_Native-Developer" = "react native" /\
  Py.strip "react native" = "react native" /\
  (String.length "react native" <= 26)%nat.
Proof.
  assert (E : Dedupe.get_semantic_key "003-React_Native-Developer" =
              "react native") by (vm_compute; reflexivity).
  destruct (semantic_key_is_normalised "003-React_Native-Developer" eq_refl)
    as (Hs & _ & Hl).
  rewrite E in Hs, Hl. split; [exact E|]. split; [exact Hs|exact Hl].
Defined.
